(** * PPO agent models (python/ppo/models.py)

    The file follows the two phases of the TensorFlow program:

    - [Build]: what [create_agent_model] and the model constructors declare
      when the graph is built (placeholders, layers, the arguments handed to
      [create_ppo_optimizer]) and the exceptions they raise;
    - [Run]: the values the declared operations compute on one batch, with
      tensors of rank at most two over the real numbers and TensorFlow's
      broadcasting written out.

    float32 arithmetic is idealised as arithmetic over [R]: the results
    about computed values are identities and weak bounds, which the float32
    program follows up to rounding; no result says that a computed value is
    strictly positive, since float32 underflows where [R] does not.  Python
    [int]s are [Z], [tf.int32] values are [Z] with the wrap-around written
    out, Python dictionaries are [gmap]s. *)

From Stdlib Require Import Reals Lra ZArith Ascii String List.
From stdpp Require Import base option list gmap strings pretty.

Open Scope Z_scope.

(** ** Python values, exceptions and results *)

Inductive exn :=
| UnityEnvironmentException (msg : string)
| Exception (msg : string)
| IndexError
| KeyError (key : string)
| ValueError.

Inductive result (A : Type) :=
| Ok (a : A)
| Raise (e : exn).
Arguments Ok {A} a.
Arguments Raise {A} e.

Definition bind {A B} (r : result A) (k : A -> result B) : result B :=
  match r with
  | Ok a => k a
  | Raise e => Raise e
  end.

Notation "'let*' x ':=' r 'in' k" := (bind r (fun x => k))
  (at level 10, x pattern, r at level 100, k at level 200).

(** [l[0]] on a Python list. *)
Definition first {A} (l : list A) : result A :=
  match l with
  | x :: _ => Ok x
  | [] => Raise IndexError
  end.

(** [d[k]] on a Python dictionary. *)
Definition getitem {A} (d : gmap string A) (k : string) : result A :=
  match d !! k with
  | Some v => Ok v
  | None => Raise (KeyError k)
  end.

(** The brain parameters read by models.py, and the environment holding them. *)
Record BrainParameters := {
  action_space_type : string;
  action_space_size : Z;
  state_space_type : string;
  state_space_size : Z;
  number_observations : Z;
  camera_resolutions : list (gmap string Z)
}.

Record UnityEnvironment := {
  brain_names : list string;
  brains : gmap string BrainParameters
}.

(** ** Graph construction *)

Module Build.

Inductive dtype := float32 | int32.

Inductive activation := elu | tanh.

Inductive initializer :=
| default_initializer
| variance_scaling_initializer (factor : R).

(** The graph nodes models.py creates, each with the arguments of the call
    that creates it.  A Python number met by an arithmetic operator becomes a
    [constant]; [add], [sub], [mul] and [div] are the operators [+], [-], [*]
    and [/] on tensors. *)
Inductive node :=
| placeholder (shape : option (list (option Z))) (dt : dtype) (name : option string)
| conv2d (inputs : node) (filters : Z) (kernel_size strides : list Z)
         (use_bias : bool) (act : option activation)
| dense (inputs : node) (units : Z) (act : option activation) (use_bias : bool)
        (kernel_initializer : initializer)
| flatten (inputs : node)
| reshape (t : node) (shape : list Z)
| one_hot_encoding (labels : node) (num_classes : Z)
| concat (a b : node) (axis : Z)
| constant (c : R)
| zeros (shape : list Z)
| tf_Variable (initial_value : node)
| exp (x : node)
| sqrt (x : node)
| log (x : node)
| pow (x y : node)
| add (x y : node)
| sub (x y : node)
| mul (x y : node)
| div (x y : node)
| identity (x : node) (name : string)
| stop_gradient (x : node)
| reduce_sum (x : node).

(** The tensors an operation reads.  The initial value of a variable is read
    once, by its initializer, and is no input of the variable. *)
Definition inputs (n : node) : list node :=
  match n with
  | placeholder _ _ _ | constant _ | zeros _ | tf_Variable _ => []
  | conv2d i _ _ _ _ _ | dense i _ _ _ _ | flatten i | reshape i _
  | one_hot_encoding i _ | exp i | sqrt i | log i | identity i _
  | stop_gradient i | reduce_sum i => [i]
  | concat a b _ | pow a b | add a b | sub a b | mul a b | div a b => [a; b]
  end.

(** [depends_on n x]: the value of [n] is computed from the value of [x],
    through any chain of inputs. *)
Inductive depends_on : node -> node -> Prop :=
| depends_on_refl n : depends_on n n
| depends_on_input n i x : In i (inputs n) -> depends_on i x -> depends_on n x.

(** [differentiates n x]: some chain of inputs from [n] to [x] enters no
    [tf.stop_gradient].  These are the chains along which the gradient of [n]
    is propagated back: [tf.stop_gradient] passes its input on unchanged and
    hands no gradient to it, so an [x] that [n] reaches only through it is a
    constant for every gradient of [n]. *)
Inductive differentiates : node -> node -> Prop :=
| differentiates_refl n : differentiates n n
| differentiates_input n i x :
    (forall y, n <> stop_gradient y) ->
    In i (inputs n) -> differentiates i x -> differentiates n x.

(** [tf.layers.conv2d] pads with 'valid' by default: a spatial dimension of
    size [size] becomes [(size - kernel) / stride + 1], and TensorFlow's shape
    inference raises [ValueError] ("Negative dimension size caused by
    subtracting ...") when the kernel does not fit in it.  A negative size is
    refused with [ValueError] too, by the placeholder that declares it. *)
Definition conv_output_size (size kernel stride : Z) : result Z :=
  if size <? kernel then Raise ValueError
  else Ok ((size - kernel) / stride + 1).

(** The attributes the encoder methods of [PPOModel] set on [self]. *)
Record PPOModel := {
  observation_in : option node;
  conv1 : option node;
  conv2 : option node;
  state_in : option node
}.

Definition new_PPOModel : PPOModel :=
  {| observation_in := None; conv1 := None; conv2 := None; state_in := None |}.

(** Each convolution is built only if its kernel fits in both spatial
    dimensions of its input; otherwise the call raises and the method returns
    nothing. *)
Definition create_visual_encoder (self : PPOModel) (o_size_h o_size_w h_size : Z)
  : result (PPOModel * node) :=
  let observation_in_ :=
    placeholder (Some [None; Some o_size_h; Some o_size_w; Some 1]) float32
                (Some "observation_0"%string) in
  let* conv1_h := conv_output_size o_size_h 3 2 in
  let* conv1_w := conv_output_size o_size_w 3 2 in
  let conv1_ := conv2d observation_in_ 32 [3; 3] [2; 2] false (Some elu) in
  let* conv2_h := conv_output_size conv1_h 3 2 in
  let* conv2_w := conv_output_size conv1_w 3 2 in
  let conv2_ := conv2d conv1_ 64 [3; 3] [2; 2] false (Some elu) in
  let hidden := dense (flatten conv2_) h_size (Some elu) false default_initializer in
  Ok ({| observation_in := Some observation_in_; conv1 := Some conv1_;
         conv2 := Some conv2_; state_in := state_in self |}, hidden).

Definition create_continuous_state_encoder (self : PPOModel) (s_size h_size : Z)
  : PPOModel * node :=
  let state_in_ := placeholder (Some [None; Some s_size]) float32 (Some "state"%string) in
  let hidden_1 := dense state_in_ h_size (Some elu) false default_initializer in
  let hidden_2 := dense hidden_1 h_size (Some elu) false default_initializer in
  ({| observation_in := observation_in self; conv1 := conv1 self;
      conv2 := conv2 self; state_in := Some state_in_ |}, hidden_2).

Definition create_discrete_state_encoder (self : PPOModel) (s_size h_size : Z)
  : PPOModel * node :=
  let state_in_ := placeholder (Some [None; Some 1]) int32 (Some "state"%string) in
  let state_in' := reshape state_in_ [-1] in
  let state_onehot := one_hot_encoding state_in' s_size in
  let hidden := dense state_onehot h_size (Some elu) true default_initializer in
  ({| observation_in := observation_in self; conv1 := conv1 self;
      conv2 := conv2 self; state_in := Some state_in_ |}, hidden).

(** The hyper-parameters a constructor hands to [create_ppo_optimizer]
    (its tensor arguments are the model's own operations, see [Run]). *)
Record ppo_arguments := {
  arg_beta : R;
  arg_epsilon : R;
  arg_lr : R;
  arg_max_step : R
}.

Record ContinuousControlModel_t := {
  c_state_in : node;
  c_batch_size : node;
  c_mu : node;
  c_log_sigma_sq : node;
  c_sigma_sq : node;
  c_epsilon : node;
  c_output : node;
  c_probs : node;
  c_entropy : node;
  c_value : node;
  c_old_probs : node;
  c_ppo : ppo_arguments
}.

Definition ContinuousControlModel (lr : R) (brain : BrainParameters) (h_size : Z)
    (epsilon max_step : R) : ContinuousControlModel_t :=
  let s_size := state_space_size brain in
  let a_size := action_space_size brain in
  let state_in_ := placeholder (Some [None; Some s_size]) float32 (Some "state"%string) in
  let batch_size := placeholder None int32 (Some "batch_size"%string) in
  let hidden_policy := dense state_in_ h_size (Some tanh) false default_initializer in
  let hidden_value := dense state_in_ h_size (Some tanh) false default_initializer in
  let hidden_policy_2 := dense hidden_policy h_size (Some tanh) false default_initializer in
  let hidden_value_2 := dense hidden_value h_size (Some tanh) false default_initializer in
  let mu := dense hidden_policy_2 a_size None false (variance_scaling_initializer 0.1) in
  let log_sigma_sq := tf_Variable (zeros [a_size]) in
  let sigma_sq := exp log_sigma_sq in
  let epsilon_ := placeholder (Some [None; Some a_size]) float32 (Some "epsilon"%string) in
  let output := add mu (mul (sqrt sigma_sq) epsilon_) in
  let output := identity output "action" in
  let a :=
    exp (div (mul (constant (-1)) (pow (sub (stop_gradient output) mu) (constant 2)))
             (mul (constant 2) sigma_sq)) in
  let b := div (constant 1) (sqrt (mul (mul (constant 2) sigma_sq) (constant PI))) in
  let probs := mul a b in
  let entropy :=
    reduce_sum (mul (constant 0.5)
                    (log (mul (constant (2 * PI * Rtrigo_def.exp 1)) sigma_sq))) in
  let value := dense hidden_value_2 1 None false default_initializer in
  let old_probs :=
    placeholder (Some [None; Some a_size]) float32 (Some "old_probabilities"%string) in
  {| c_state_in := state_in_; c_batch_size := batch_size; c_mu := mu;
     c_log_sigma_sq := log_sigma_sq; c_sigma_sq := sigma_sq;
     c_epsilon := epsilon_; c_output := output; c_probs := probs;
     c_entropy := entropy; c_value := value; c_old_probs := old_probs;
     c_ppo := {| arg_beta := 0.0; arg_epsilon := epsilon; arg_lr := lr;
                 arg_max_step := max_step |} |}.

Definition no_valid_network : string :=
  "No valid network configuration possible. " ++
  "There are no states or observations in this brain".

Definition no_continuous_visual_model : string :=
  "There is currently no PPO model which supports both a continuous " ++
  "action space and camera observations.".

(** [d_hidden_visual], [d_hidden_state], [d_hidden] and [d_h_size] are the
    locals of the constructor after line 189, kept so that they can be
    inspected; the other fields are attributes of [self]. *)
Record DiscreteControlModel_t := {
  d_self : PPOModel;
  d_h_size : Z;
  d_hidden_visual : option node;
  d_hidden_state : option node;
  d_hidden : node;
  d_batch_size : node;
  d_policy : node;
  d_value : node;
  d_action_holder : node;
  d_old_probs : node;
  d_ppo : ppo_arguments
}.

Definition DiscreteControlModel (lr : R) (brain : BrainParameters) (h_size : Z)
    (epsilon beta max_step : R) : result DiscreteControlModel_t :=
  let self := new_PPOModel in
  let* (self, h_size, hidden_visual) :=
    (if 0 <? number_observations brain then
       let* cam := first (camera_resolutions brain) in
       let* height := getitem cam "height" in
       let* cam' := first (camera_resolutions brain) in
       let* height' := getitem cam' "height" in
       let h_size := height in
       let w_size := height' in
       let* (self, hidden_visual) := create_visual_encoder self h_size w_size h_size in
       Ok (self, h_size, Some hidden_visual)
     else Ok (self, h_size, None)) in
  let '(self, hidden_state) :=
    (if 0 <? state_space_size brain then
       let s_size := state_space_size brain in
       if (state_space_type brain =? "continuous")%string then
         let '(self, h) := create_continuous_state_encoder self s_size h_size in
         (self, Some h)
       else
         let '(self, h) := create_discrete_state_encoder self s_size h_size in
         (self, Some h)
     else (self, None)) in
  let* hidden :=
    match hidden_visual, hidden_state with
    | None, None =>
        Raise (Exception no_valid_network)
    | Some hv, None => Ok hv
    | None, Some hs => Ok hs
    | Some hv, Some hs => Ok (concat hv hs 1)
    end in
  let a_size := action_space_size brain in
  let batch_size := placeholder None int32 (Some "batch_size"%string) in
  let policy := dense hidden a_size None false (variance_scaling_initializer 0.1) in
  let value := dense hidden 1 None false default_initializer in
  let action_holder := placeholder (Some [None]) int32 None in
  let old_probs :=
    placeholder (Some [None; Some a_size]) float32 (Some "old_probabilities"%string) in
  Ok {| d_self := self; d_h_size := h_size; d_hidden_visual := hidden_visual;
        d_hidden_state := hidden_state; d_hidden := hidden;
        d_batch_size := batch_size; d_policy := policy; d_value := value;
        d_action_holder := action_holder; d_old_probs := old_probs;
        d_ppo := {| arg_beta := beta; arg_epsilon := epsilon; arg_lr := lr;
                    arg_max_step := max_step |} |}.

Inductive Model :=
| Continuous (m : ContinuousControlModel_t)
| Discrete (m : DiscreteControlModel_t).

(** A Python function that reaches its end without [return] yields [None]:
    the result is an [option]. *)
Definition create_agent_model (env : UnityEnvironment) (lr : R) (h_size : Z)
    (epsilon beta max_step : R) : result (option Model) :=
  let* brain_name := first (brain_names env) in
  let* brain := getitem (brains env) brain_name in
  if (action_space_type brain =? "continuous")%string then
    if number_observations brain =? 0 then
      Ok (Some (Continuous (ContinuousControlModel lr brain h_size epsilon max_step)))
    else
      Raise (UnityEnvironmentException no_continuous_visual_model)
  else if (action_space_type brain =? "discrete")%string then
    let* m := DiscreteControlModel lr brain h_size epsilon beta max_step in
    Ok (Some (Discrete m))
  else Ok None.

(** The widths of the dense layers of a graph, outermost first. *)
Fixpoint dense_units (n : node) : list Z :=
  match n with
  | placeholder _ _ _ => []
  | conv2d i _ _ _ _ _ => dense_units i
  | dense i u _ _ _ => u :: dense_units i
  | flatten i => dense_units i
  | reshape i _ => dense_units i
  | one_hot_encoding i _ => dense_units i
  | concat a b _ => dense_units a ++ dense_units b
  | constant _ | zeros _ | tf_Variable _ => []
  | exp i | sqrt i | log i | identity i _ | stop_gradient i | reduce_sum i =>
      dense_units i
  | pow a b | add a b | sub a b | mul a b | div a b => dense_units a ++ dense_units b
  end.

(** A brain that differs from [brain] in its cameras only. *)
Definition with_cameras (brain : BrainParameters) (cams : list (gmap string Z))
  : BrainParameters :=
  {| action_space_type := action_space_type brain;
     action_space_size := action_space_size brain;
     state_space_type := state_space_type brain;
     state_space_size := state_space_size brain;
     number_observations := number_observations brain;
     camera_resolutions := cams |}.

End Build.

(** ** Graph evaluation *)

Module Run.

Open Scope R_scope.

(** Tensors of rank 0, 1 and 2; a rank-2 tensor is the list of its rows. *)
Inductive tensor :=
| T0 (x : R)
| T1 (v : list R)
| T2 (m : list (list R)).

Definition rank (t : tensor) : nat :=
  match t with
  | T0 _ => 0
  | T1 _ => 1
  | T2 _ => 2
  end.

(** Broadcasting aligns shapes on the right and pads with leading 1s:
    a scalar is viewed as [[1, 1]], a vector of length n as [[1, n]]. *)
Definition rows (t : tensor) : list (list R) :=
  match t with
  | T0 x => [[x]]
  | T1 v => [v]
  | T2 m => m
  end.

Definition of_rows (r : nat) (m : list (list R)) : tensor :=
  match r with
  | O => T0 (hd 0 (hd [] m))
  | S O => T1 (hd [] m)
  | _ => T2 m
  end.

(** One axis of a broadcast operation: a dimension of size 1 is stretched to
    the other size, equal sizes are paired, anything else is a shape error. *)
Definition stretch {A B C} (f : A -> B -> option C) (xs : list A) (ys : list B)
  : option (list C) :=
  match xs, ys with
  | [x], _ => mapM (f x) ys
  | _, [y] => mapM (fun x => f x y) xs
  | _, _ =>
      if decide (length xs = length ys) then mapM (uncurry f) (zip xs ys) else None
  end.

Definition binop (f : R -> R -> R) (a b : tensor) : option tensor :=
  m ← stretch (stretch (fun x y => Some (f x y))) (rows a) (rows b);
  Some (of_rows (Nat.max (rank a) (rank b)) m).

Definition add := binop Rplus.
Definition sub := binop Rminus.
Definition mul := binop Rmult.
Definition div := binop Rdiv.
Definition minimum := binop Rmin.
Definition squared_difference := binop (fun x y => (x - y) * (x - y)).

Definition map_tensor (f : R -> R) (t : tensor) : tensor :=
  match t with
  | T0 x => T0 (f x)
  | T1 v => T1 (map f v)
  | T2 m => T2 (map (map f) m)
  end.

(** TensorFlow computes [tf.clip_by_value t lo hi] as
    [maximum (minimum t hi) lo]: within [lo <= hi] this is the usual clipping,
    and when the bounds are inverted every value becomes [lo]. *)
Definition clip (lo hi x : R) : R := Rmax (Rmin x hi) lo.

Definition clip_by_value (t : tensor) (clip_value_min clip_value_max : R) : tensor :=
  map_tensor (clip clip_value_min clip_value_max) t.

(** Forward evaluation does not see [tf.stop_gradient]. *)
Definition stop_gradient (t : tensor) : tensor := t.

Definition sum (l : list R) : R := foldr Rplus 0 l.

Definition reduce_sum (t : tensor) : R := sum (map sum (rows t)).

Definition size (t : tensor) : nat := length (concat (rows t)).

(** The mean of an empty tensor is a division by zero (NaN in TensorFlow); no
    result below depends on the value [Rdiv] has there. *)
Definition reduce_mean (t : tensor) : R := reduce_sum t / INR (size t).

(** [tf.reduce_sum t axis=1] needs a second axis. *)
Definition reduce_sum_axis1 (t : tensor) : option tensor :=
  match t with
  | T2 m => Some (T1 (map sum m))
  | _ => None
  end.

(** Over [R] no entry of a softmax is 0; in float32 an entry underflows to 0
    when its logit is far below the largest one, so the entries are only
    known to lie in [[0, 1]]. *)
Definition softmax_row (row : list R) : list R :=
  map (fun x => exp x / sum (map exp row)) row.

Definition softmax (t : tensor) : tensor :=
  match t with
  | T0 x => T0 x
  | T1 v => T1 (softmax_row v)
  | T2 m => T2 (map softmax_row m)
  end.

Definition one_hot_encoding (labels : list Z) (num_classes : nat) : tensor :=
  T2 (map (fun l => map (fun k => if decide (l = k) then 1 else 0)
                        (seqZ 0 (Z.of_nat num_classes))) labels).

(** A value fed to a placeholder, or held by a variable, must fit its
    declared shape ([None] is a free dimension). *)
Definition dim_ok (d : option nat) (n : nat) : bool :=
  match d with
  | None => true
  | Some k => bool_decide (n = k)
  end.

Definition has_shape (shape : list (option nat)) (t : tensor) : bool :=
  match shape, t with
  | [], T0 _ => true
  | [d], T1 v => dim_ok d (length v)
  | [d1; d2], T2 m => dim_ok d1 (length m) && forallb (fun r => dim_ok d2 (length r)) m
  | _, _ => false
  end.

Definition placeholder (shape : list (option nat)) (fed : tensor) : option tensor :=
  if has_shape shape fed then Some fed else None.

Definition tf_Variable (shape : list nat) (value : tensor) : option tensor :=
  placeholder (map Some shape) value.

(** [tf.layers.dense] without bias: [inputs] of shape [[batch, n_in]] times a
    kernel of shape [[n_in, units]], then the activation. *)
Definition vecmat (x : list R) (kernel : list (list R)) (units : nat) : list R :=
  map (fun j => sum (zip_with (fun xi krow => xi * nth j krow 0) x kernel))
      (seq 0 units).

Definition dense (inputs kernel : tensor) (n_in units : nat) (activation : R -> R)
  : option tensor :=
  x ← placeholder [None; Some n_in] inputs;
  k ← tf_Variable [n_in; units] kernel;
  Some (T2 (map (fun row => map activation (vecmat row (rows k) units)) (rows x))).

(** [tf.train.polynomial_decay] with [cycle=False]:
    [global_step = min (global_step, decay_steps)] and
    [(learning_rate - end_learning_rate) * (1 - global_step / decay_steps) ^ power
     + end_learning_rate].  The exponent is an integral literal at its call
    site. *)
Definition polynomial_decay (learning_rate : R) (global_step : Z)
    (decay_steps end_learning_rate : R) (power : Z) : R :=
  let global_step := Rmin (IZR global_step) decay_steps in
  (learning_rate - end_learning_rate)
    * powerRZ (1 - global_step / decay_steps) power
  + end_learning_rate.

(** Arithmetic on [tf.int32] wraps around: the result is the representative
    in [[-2^31, 2^31)] of the exact result modulo [2^32]. *)
Definition int32 (z : Z) : Z :=
  ((z + 2147483648) mod 4294967296 - 2147483648)%Z.

(** *** create_ppo_optimizer *)

(** What the training loop feeds, and the value of the [global_step]
    variable (a [tf.int32]) when the graph is evaluated.  The Adam update
    [update_batch] is not evaluated; [increment_step] is the value assigned to
    [global_step], the int32 sum [global_step + 1]. *)
Record ppo_feed := {
  returns_holder : tensor;
  advantage : tensor;
  global_step : Z
}.

(** [r_theta] and [surrogate] (the tensor under [reduce_mean] in the policy
    loss) are locals of the method; the others are attributes of [self]. *)
Record ppo_ops := {
  r_theta : tensor;
  surrogate : tensor;
  policy_loss : R;
  value_loss : R;
  loss : R;
  learning_rate : R;
  increment_step : Z
}.

Definition create_ppo_optimizer (probs old_probs value entropy : tensor)
    (beta epsilon lr max_step : R) (fd : ppo_feed) : option ppo_ops :=
  returns_holder_ ← placeholder [None] (returns_holder fd);
  advantage_ ← placeholder [None; Some 1%nat] (advantage fd);
  r_theta_ ← div probs old_probs;
  p_opt_a ← mul r_theta_ advantage_;
  p_opt_b ← mul (clip_by_value r_theta_ (1 - epsilon) (1 + epsilon)) advantage_;
  surrogate_ ← minimum p_opt_a p_opt_b;
  let policy_loss_ := - reduce_mean surrogate_ in
  value_sum ← reduce_sum_axis1 value;
  sq ← squared_difference returns_holder_ value_sum;
  let value_loss_ := reduce_mean sq in
  let loss_ := policy_loss_ + value_loss_ - beta * reduce_mean entropy in
  let learning_rate_ := polynomial_decay lr (global_step fd) max_step 1e-10 1 in
  Some {| r_theta := r_theta_; surrogate := surrogate_;
          policy_loss := policy_loss_; value_loss := value_loss_; loss := loss_;
          learning_rate := learning_rate_;
          increment_step := int32 (global_step fd + 1) |}.

(** *** ContinuousControlModel

    The evaluation follows the constructor line by line.  The [batch_size]
    placeholder (never used) and the renaming [tf.identity output] are left
    out; [tf.pow _ 2] has an integral exponent; sizes are the brain's, read as
    natural numbers.  [stop_gradient output - mu] is computed as written:
    over [R] it equals [sqrt sigma_sq * epsilon], in float32 only up to the
    rounding of the sum and of the difference. *)

(** The trainable variables of the continuous model: the kernels of its
    dense layers, in the order of their creation, and [log_sigma_sq]. *)
Record continuous_variables := {
  policy_kernel_1 : tensor;
  value_kernel_1 : tensor;
  policy_kernel_2 : tensor;
  value_kernel_2 : tensor;
  mu_kernel : tensor;
  log_sigma_sq : tensor;
  value_kernel : tensor
}.

Record continuous_feed := {
  c_state_in : tensor;
  c_epsilon : tensor;
  c_old_probs : tensor;
  c_ppo_feed : ppo_feed
}.

Record continuous_ops := {
  c_mu : tensor;
  c_sigma_sq : tensor;
  c_output : tensor;
  c_probs : tensor;
  c_entropy : tensor;
  c_value : tensor;
  c_ppo : ppo_ops
}.

Definition ContinuousControlModel (lr : R) (brain : BrainParameters) (h_size : Z)
    (epsilon max_step : R) (w : continuous_variables) (fd : continuous_feed)
  : option continuous_ops :=
  let s_size := Z.to_nat (state_space_size brain) in
  let a_size := Z.to_nat (action_space_size brain) in
  let h_size := Z.to_nat h_size in
  state_in ← placeholder [None; Some s_size] (c_state_in fd);
  hidden_policy ← dense state_in (policy_kernel_1 w) s_size h_size tanh;
  hidden_value ← dense state_in (value_kernel_1 w) s_size h_size tanh;
  hidden_policy_2 ← dense hidden_policy (policy_kernel_2 w) h_size h_size tanh;
  hidden_value_2 ← dense hidden_value (value_kernel_2 w) h_size h_size tanh;
  mu ← dense hidden_policy_2 (mu_kernel w) h_size a_size id;
  log_sigma_sq_ ← tf_Variable [a_size] (log_sigma_sq w);
  let sigma_sq := map_tensor exp log_sigma_sq_ in
  epsilon_ ← placeholder [None; Some a_size] (c_epsilon fd);
  noise ← mul (map_tensor sqrt sigma_sq) epsilon_;
  output ← add mu noise;
  diff ← sub (stop_gradient output) mu;
  num ← mul (T0 (-1)) (map_tensor (fun x => powerRZ x 2) diff);
  den ← mul (T0 2) sigma_sq;
  quot ← div num den;
  let a := map_tensor exp quot in
  two_sigma_sq ← mul (T0 2) sigma_sq;
  two_sigma_sq_pi ← mul two_sigma_sq (T0 PI);
  b ← div (T0 1) (map_tensor sqrt two_sigma_sq_pi);
  probs ← mul a b;
  scaled ← mul (T0 (2 * PI * exp 1)) sigma_sq;
  halves ← mul (T0 0.5) (map_tensor ln scaled);
  let entropy := T0 (reduce_sum halves) in
  value ← dense hidden_value_2 (value_kernel w) h_size 1 id;
  old_probs ← placeholder [None; Some a_size] (c_old_probs fd);
  ppo ← create_ppo_optimizer probs old_probs value entropy 0.0 epsilon lr max_step
          (c_ppo_feed fd);
  Some {| c_mu := mu; c_sigma_sq := sigma_sq; c_output := output; c_probs := probs;
          c_entropy := entropy; c_value := value; c_ppo := ppo |}.

(** *** DiscreteControlModel, from line 191 on

    The sampled [action] ([tf.multinomial], a random draw) and the unused
    [batch_size] placeholder are left out. *)

Record discrete_variables := {
  d_policy_kernel : tensor;
  d_value_kernel : tensor
}.

(** [d_hidden] is the latent the encoders of lines 170-189 produce for the
    batch; the encoders themselves are not evaluated. *)
Record discrete_feed := {
  d_hidden : tensor;
  d_action_holder : list Z;
  d_old_probs : tensor;
  d_ppo_feed : ppo_feed
}.

Record discrete_ops := {
  d_probs : tensor;
  d_value : tensor;
  d_entropy : tensor;
  d_responsible_probs : tensor;
  d_old_responsible_probs : tensor;
  d_ppo : ppo_ops
}.

Definition DiscreteControlModel (lr : R) (brain : BrainParameters) (n_hidden : nat)
    (epsilon beta max_step : R) (w : discrete_variables) (fd : discrete_feed)
  : option discrete_ops :=
  let hidden := d_hidden fd in
  let a_size := Z.to_nat (action_space_size brain) in
  policy ← dense hidden (d_policy_kernel w) n_hidden a_size id;
  let probs := softmax policy in
  value ← dense hidden (d_value_kernel w) n_hidden 1 id;
  shifted ← add probs (T0 1e-10);
  plogp ← mul probs (map_tensor ln shifted);
  row_sums ← reduce_sum_axis1 plogp;
  let entropy := map_tensor Ropp row_sums in
  let selected_actions := one_hot_encoding (d_action_holder fd) a_size in
  old_probs ← placeholder [None; Some a_size] (d_old_probs fd);
  responsible_probs ← mul probs selected_actions ≫= reduce_sum_axis1;
  old_responsible_probs ← mul old_probs selected_actions ≫= reduce_sum_axis1;
  ppo ← create_ppo_optimizer responsible_probs old_responsible_probs value entropy
          beta epsilon lr max_step (d_ppo_feed fd);
  Some {| d_probs := probs; d_value := value; d_entropy := entropy;
          d_responsible_probs := responsible_probs;
          d_old_responsible_probs := old_responsible_probs; d_ppo := ppo |}.

(** Shapes and entries, for stating results. *)
Definition is_vector (n : nat) (t : tensor) : Prop :=
  has_shape [Some n] t = true.

Definition is_matrix (n k : nat) (t : tensor) : Prop :=
  has_shape [Some n; Some k] t = true.

(** The variables and the feed of the continuous model fit the shapes its
    graph declares, for a batch of [n] states. *)
Definition continuous_shapes (n s_size h_size a_size : nat)
    (w : continuous_variables) (fd : continuous_feed) : Prop :=
  is_matrix s_size h_size (policy_kernel_1 w) /\
  is_matrix s_size h_size (value_kernel_1 w) /\
  is_matrix h_size h_size (policy_kernel_2 w) /\
  is_matrix h_size h_size (value_kernel_2 w) /\
  is_matrix h_size a_size (mu_kernel w) /\
  is_vector a_size (log_sigma_sq w) /\
  is_matrix h_size 1 (value_kernel w) /\
  is_matrix n s_size (c_state_in fd) /\
  is_matrix n a_size (c_epsilon fd) /\
  is_matrix n a_size (c_old_probs fd) /\
  is_vector n (returns_holder (c_ppo_feed fd)) /\
  is_matrix n 1 (advantage (c_ppo_feed fd)).

(** The same for the discrete model, whose latent has width [n_hidden]. *)
Definition discrete_shapes (n n_hidden a_size : nat)
    (w : discrete_variables) (fd : discrete_feed) : Prop :=
  is_matrix n_hidden a_size (d_policy_kernel w) /\
  is_matrix n_hidden 1 (d_value_kernel w) /\
  is_matrix n n_hidden (d_hidden fd) /\
  length (d_action_holder fd) = n /\
  is_matrix n a_size (d_old_probs fd) /\
  is_vector n (returns_holder (d_ppo_feed fd)) /\
  is_matrix n 1 (advantage (d_ppo_feed fd)).

(** The clipped surrogate of one ratio and one advantage, its sum over all
    pairs of a ratio and an advantage, and its sum over the pairs that share
    their index (what a per-sample pairing would average). *)
Definition surrogate_term (epsilon r adv : R) : R :=
  Rmin (r * adv) (clip (1 - epsilon) (1 + epsilon) r * adv).

Definition sum_all_pairs (epsilon : R) (ratios advantages : list R) : R :=
  sum (map (fun adv => sum (map (fun r => surrogate_term epsilon r adv) ratios))
           advantages).

Definition sum_same_index (epsilon : R) (ratios advantages : list R) : R :=
  sum (zip_with (surrogate_term epsilon) ratios advantages).

(** The shape of a tensor as broadcasting sees it, padded with leading 1s to
    rank 2: [r] rows of [c] entries each. *)
Definition broadcast_shape (r c : nat) (t : tensor) : Prop :=
  is_matrix r c (T2 (rows t)).

(** Two sizes of an axis that broadcast together, and the size of the axis
    in the result. *)
Definition compatible (a b : nat) : Prop :=
  a = 1%nat \/ b = 1%nat \/ a = b.

Definition broadcast_dim (a b : nat) : nat :=
  if decide (a = 1%nat) then b else a.

(** An axis of size 1 is read at index 0 whatever the index asked for. *)
Definition pick {A} (l : list A) (i : nat) : option A :=
  match l with
  | [x] => Some x
  | _ => l !! i
  end.

(** The entry a tensor contributes at position [(i, j)] of a broadcast. *)
Definition entry (t : tensor) (i j : nat) : option R :=
  row ← pick (rows t) i; pick row j.

End Run.

(** ** Concrete brains and environments *)

Module Examples.

Definition camera (height width : Z) : gmap string Z :=
  <["height"%string := height]> {["width"%string := width]}.

Definition brain_of (action_type : string) (states observations : Z)
    (cams : list (gmap string Z)) : BrainParameters :=
  {| action_space_type := action_type; action_space_size := 2;
     state_space_type := "continuous"; state_space_size := states;
     number_observations := observations; camera_resolutions := cams |}.

Definition env_of (brain : BrainParameters) : UnityEnvironment :=
  {| brain_names := ["Brain"%string]; brains := {["Brain"%string := brain]} |}.

Definition continuous_visual : BrainParameters :=
  brain_of "continuous" 8 1 [camera 84 64].

Definition continuous_state : BrainParameters :=
  brain_of "continuous" 8 0 [].

Definition hybrid : BrainParameters :=
  brain_of "hybrid" 8 0 [].

Definition discrete_blind : BrainParameters :=
  brain_of "discrete" 0 0 [].

Definition discrete_visual : BrainParameters :=
  brain_of "discrete" 8 1 [camera 84 64].

(** A camera too low for the two convolutions, though wide enough. *)
Definition discrete_tiny_camera : BrainParameters :=
  brain_of "discrete" 8 1 [camera 6 84].

(** A batch of two for [create_ppo_optimizer], in the layout of the discrete
    model: probabilities of shape [[2]], advantages of shape [[2, 1]]. *)
Definition probs : Run.tensor := Run.T1 [0.9; 0.5]%R.
Definition old_probs : Run.tensor := Run.T1 [0.6; 0.5]%R.
Definition value : Run.tensor := Run.T2 [[1]; [2]]%R.
Definition entropy : Run.tensor := Run.T1 [0.5; 0.5]%R.
Definition feed : Run.ppo_feed :=
  {| Run.returns_holder := Run.T1 [1; 1]%R;
     Run.advantage := Run.T2 [[2]; [-1]]%R;
     Run.global_step := 0 |}.

Definition feed_at (step : Z) : Run.ppo_feed :=
  {| Run.returns_holder := Run.T1 [1; 1]%R;
     Run.advantage := Run.T2 [[2]; [-1]]%R;
     Run.global_step := step |}.

(** The learning rate [create_ppo_optimizer] derives for a base rate, a
    number of steps and a value of the step counter. *)
Definition rate_at (lr max_step : R) (step : Z) : option R :=
  Run.learning_rate <$>
    Run.create_ppo_optimizer probs old_probs value entropy 1e-3 0.2 lr max_step
                             (feed_at step).

(** A batch of one with ratio 1 and advantage 1, and the tensor under the
    mean of the policy loss for a clip threshold [epsilon]. *)
Definition unit_surrogate (epsilon : R) : option Run.tensor :=
  Run.surrogate <$>
    Run.create_ppo_optimizer (Run.T1 [1]%R) (Run.T1 [1]%R) (Run.T2 [[0]]%R)
      (Run.T1 [0]%R) 1e-3 epsilon 1e-4 5e6
      {| Run.returns_holder := Run.T1 [0]%R;
         Run.advantage := Run.T2 [[1]]%R;
         Run.global_step := 0 |}.

(** A continuous brain with one state variable and two actions, a network
    with one hidden unit, and a batch of one state [s]. *)
Definition small_continuous : BrainParameters := brain_of "continuous" 1 0 [].

Definition continuous_variables : Run.continuous_variables :=
  {| Run.policy_kernel_1 := Run.T2 [[1]]%R;
     Run.value_kernel_1 := Run.T2 [[1]]%R;
     Run.policy_kernel_2 := Run.T2 [[1]]%R;
     Run.value_kernel_2 := Run.T2 [[1]]%R;
     Run.mu_kernel := Run.T2 [[1; -1]]%R;
     Run.log_sigma_sq := Run.T1 [0; 0]%R;
     Run.value_kernel := Run.T2 [[1]]%R |}.

Definition continuous_feed (s : R) : Run.continuous_feed :=
  {| Run.c_state_in := Run.T2 [[s]];
     Run.c_epsilon := Run.T2 [[0.5; -0.5]]%R;
     Run.c_old_probs := Run.T2 [[0.3; 0.3]]%R;
     Run.c_ppo_feed := {| Run.returns_holder := Run.T1 [1]%R;
                          Run.advantage := Run.T2 [[2]]%R;
                          Run.global_step := 0 |} |}.

(** A batch of two states for the same network, with the returns and the
    advantages of [feed]. *)
Definition continuous_batch : Run.continuous_feed :=
  {| Run.c_state_in := Run.T2 [[1]; [2]]%R;
     Run.c_epsilon := Run.T2 [[0.5; -0.5]; [1; 0]]%R;
     Run.c_old_probs := Run.T2 [[0.3; 0.3]; [0.2; 0.4]]%R;
     Run.c_ppo_feed := feed |}.

(** A discrete brain with two actions, a latent of width one and a batch of
    two. *)
Definition small_discrete : BrainParameters := brain_of "discrete" 1 0 [].

Definition discrete_variables : Run.discrete_variables :=
  {| Run.d_policy_kernel := Run.T2 [[1; -1]]%R;
     Run.d_value_kernel := Run.T2 [[1]]%R |}.

Definition discrete_feed : Run.discrete_feed :=
  {| Run.d_hidden := Run.T2 [[1]; [2]]%R;
     Run.d_action_holder := [0; 1];
     Run.d_old_probs := Run.T2 [[0.5; 0.5]; [0.5; 0.5]]%R;
     Run.d_ppo_feed := feed |}.

End Examples.

(** ** Checkpoints and export (save_model, export_graph)

    The two functions only call the TensorFlow library: they are modelled by
    the calls they make, in order, with the arguments they compute.  The
    session, the saver and the graph definition are opaque objects and are
    left out of the calls. *)

Module Files.

Inductive call :=
| saver_save (save_path : string)
| write_graph (logdir name : string) (as_text : bool)
| print (msg : string)
| freeze_graph (input_graph : string) (input_binary : bool)
               (input_checkpoint output_node_names output_graph : string)
               (clear_devices : bool)
               (initializer_nodes input_saver restore_op_name
                filename_tensor_name : string).

(** [str(steps)] of a Python [int] is its decimal notation, as [pretty]. *)
Definition save_model (model_path : string) (steps : Z) : list call :=
  let last_checkpoint :=
    (((model_path ++ "/model-") ++ pretty steps) ++ ".cptk")%string in
  [saver_save last_checkpoint;
   write_graph model_path "raw_graph_def.pb" false;
   print "Saved Model"].

(** What [tf.train.get_checkpoint_state] returns when the directory holds a
    checkpoint. *)
Record CheckpointState := {
  model_checkpoint_path : string
}.

(** Reading [ckpt.model_checkpoint_path] on [None] raises [AttributeError]. *)
Inductive outcome :=
| Done (calls : list call)
| AttributeError.

Section Exporting.

(** The state of the checkpoint directories is a parameter. *)
Variable get_checkpoint_state : string -> option CheckpointState.

Definition export_graph (model_path env_name target_nodes : string) : outcome :=
  match get_checkpoint_state model_path with
  | None => AttributeError
  | Some ckpt =>
      Done [freeze_graph (model_path ++ "/raw_graph_def.pb")%string true
              (model_checkpoint_path ckpt) target_nodes
              (((model_path ++ "/") ++ env_name) ++ ".bytes")%string
              true "" "" "save/restore_all" "save/Const:0"]
  end.

End Exporting.

(** The last character of a string, if any. *)
Fixpoint last_char (s : string) : option Ascii.ascii :=
  match s with
  | EmptyString => None
  | String c EmptyString => Some c
  | String _ rest => last_char rest
  end.

End Files.

(** * Properties of graph construction *)

Section Selector.

Import Build.

Variables (lr epsilon beta max_step : R) (h_size : Z).

Lemma create_agent_model_brain env name rest brain :
  brain_names env = name :: rest ->
  brains env !! name = Some brain ->
  create_agent_model env lr h_size epsilon beta max_step =
    if (action_space_type brain =? "continuous")%string then
      if number_observations brain =? 0 then
        Ok (Some (Continuous (ContinuousControlModel lr brain h_size epsilon max_step)))
      else Raise (UnityEnvironmentException no_continuous_visual_model)
    else if (action_space_type brain =? "discrete")%string then
      let* m := DiscreteControlModel lr brain h_size epsilon beta max_step in
      Ok (Some (Discrete m))
    else Ok None.
Proof.
  intros Hnames Hbrain. unfold create_agent_model, getitem.
  rewrite Hnames. simpl. rewrite Hbrain. reflexivity.
Qed.

Lemma create_agent_model_unrecognized env name rest brain :
  brain_names env = name :: rest ->
  brains env !! name = Some brain ->
  action_space_type brain <> "continuous"%string ->
  action_space_type brain <> "discrete"%string ->
  create_agent_model env lr h_size epsilon beta max_step = Ok None.
Proof.
  intros Hnames Hbrain Hc Hd.
  rewrite (create_agent_model_brain env name rest brain Hnames Hbrain).
  apply String.eqb_neq in Hc, Hd. rewrite Hc, Hd. reflexivity.
Qed.

Lemma DiscreteControlModel_no_input brain :
  number_observations brain <= 0 ->
  state_space_size brain <= 0 ->
  DiscreteControlModel lr brain h_size epsilon beta max_step =
    Raise (Exception no_valid_network).
Proof.
  intros Hobs Hstate. unfold DiscreteControlModel.
  destruct (Z.ltb_spec 0 (number_observations brain)); [lia|].
  destruct (Z.ltb_spec 0 (state_space_size brain)); [lia|].
  reflexivity.
Qed.

Lemma conv_output_size_fits size kernel stride :
  kernel <= size ->
  conv_output_size size kernel stride = Ok ((size - kernel) / stride + 1).
Proof.
  intros Hfits. unfold conv_output_size.
  destruct (Z.ltb_spec size kernel); [lia|reflexivity].
Qed.

Lemma conv_output_size_small size kernel stride :
  size < kernel -> conv_output_size size kernel stride = Raise ValueError.
Proof.
  intros Hsmall. unfold conv_output_size.
  destruct (Z.ltb_spec size kernel); [reflexivity|lia].
Qed.

(** Two convolutions of kernel 3 and stride 2 fit exactly in the images of
    at least 7 by 7 pixels. *)
Lemma create_visual_encoder_fits self o_size_h o_size_w hidden_size :
  7 <= o_size_h -> 7 <= o_size_w ->
  create_visual_encoder self o_size_h o_size_w hidden_size =
    let observation_in_ :=
      placeholder (Some [None; Some o_size_h; Some o_size_w; Some 1]) float32
                  (Some "observation_0"%string) in
    let conv1_ := conv2d observation_in_ 32 [3; 3] [2; 2] false (Some elu) in
    let conv2_ := conv2d conv1_ 64 [3; 3] [2; 2] false (Some elu) in
    Ok ({| observation_in := Some observation_in_; conv1 := Some conv1_;
           conv2 := Some conv2_; state_in := state_in self |},
        dense (flatten conv2_) hidden_size (Some elu) false default_initializer).
Proof.
  intros Hh Hw. unfold create_visual_encoder.
  rewrite (conv_output_size_fits o_size_h) by lia.
  rewrite (conv_output_size_fits o_size_w) by lia. cbn [bind].
  rewrite !conv_output_size_fits; [reflexivity | |].
  - assert (2 <= (o_size_w - 3) / 2) by (apply Z.div_le_lower_bound; lia). lia.
  - assert (2 <= (o_size_h - 3) / 2) by (apply Z.div_le_lower_bound; lia). lia.
Qed.

Lemma create_visual_encoder_small self o_size_h o_size_w hidden_size :
  o_size_h < 7 \/ o_size_w < 7 ->
  create_visual_encoder self o_size_h o_size_w hidden_size = Raise ValueError.
Proof.
  intros Hsmall. unfold create_visual_encoder.
  destruct (Z.lt_ge_cases o_size_h 3) as [Hh|Hh];
    [rewrite (conv_output_size_small o_size_h) by lia; reflexivity|].
  rewrite (conv_output_size_fits o_size_h) by lia. cbn [bind].
  destruct (Z.lt_ge_cases o_size_w 3) as [Hw|Hw];
    [rewrite (conv_output_size_small o_size_w) by lia; reflexivity|].
  rewrite (conv_output_size_fits o_size_w) by lia. cbn [bind].
  destruct (Z.lt_ge_cases o_size_h 7) as [Hh7|Hh7].
  - rewrite conv_output_size_small; [reflexivity|].
    assert ((o_size_h - 3) / 2 < 2) by (apply Z.div_lt_upper_bound; lia). lia.
  - rewrite (conv_output_size_fits ((o_size_h - 3) / 2 + 1)).
    2:{ assert (2 <= (o_size_h - 3) / 2) by (apply Z.div_le_lower_bound; lia). lia. }
    cbn [bind]. rewrite conv_output_size_small; [reflexivity|].
    assert ((o_size_w - 3) / 2 < 2) by (apply Z.div_lt_upper_bound; lia). lia.
Qed.

Lemma DiscreteControlModel_visual brain cam rest height :
  0 < number_observations brain ->
  camera_resolutions brain = cam :: rest ->
  cam !! "height"%string = Some height ->
  DiscreteControlModel lr brain h_size epsilon beta max_step =
    let* (self, hidden_visual) :=
      create_visual_encoder new_PPOModel height height height in
    let '(self, hidden_state) :=
      (if 0 <? state_space_size brain then
         if (state_space_type brain =? "continuous")%string then
           let '(self, h) :=
             create_continuous_state_encoder self (state_space_size brain) height in
           (self, Some h)
         else
           let '(self, h) :=
             create_discrete_state_encoder self (state_space_size brain) height in
           (self, Some h)
       else (self, None)) in
    let hidden :=
      match hidden_state with
      | None => hidden_visual
      | Some hs => concat hidden_visual hs 1
      end in
    Ok {| d_self := self; d_h_size := height; d_hidden_visual := Some hidden_visual;
          d_hidden_state := hidden_state; d_hidden := hidden;
          d_batch_size := placeholder None int32 (Some "batch_size"%string);
          d_policy := dense hidden (action_space_size brain) None false
                            (variance_scaling_initializer 0.1);
          d_value := dense hidden 1 None false default_initializer;
          d_action_holder := placeholder (Some [None]) int32 None;
          d_old_probs := placeholder (Some [None; Some (action_space_size brain)])
                                     float32 (Some "old_probabilities"%string);
          d_ppo := {| arg_beta := beta; arg_epsilon := epsilon; arg_lr := lr;
                      arg_max_step := max_step |} |}.
Proof.
  intros Hobs Hcams Hheight. unfold DiscreteControlModel, getitem.
  destruct (Z.ltb_spec 0 (number_observations brain)); [|lia].
  rewrite Hcams. cbn [first bind]. rewrite Hheight. cbn [bind].
  destruct (create_visual_encoder new_PPOModel height height height)
    as [[self hidden_visual]|e]; [|reflexivity].
  cbn [bind].
  destruct (0 <? state_space_size brain); [|reflexivity].
  destruct (state_space_type brain =? "continuous")%string; reflexivity.
Qed.

Lemma DiscreteControlModel_small_camera brain cam rest height :
  0 < number_observations brain ->
  camera_resolutions brain = cam :: rest ->
  cam !! "height"%string = Some height ->
  height < 7 ->
  DiscreteControlModel lr brain h_size epsilon beta max_step = Raise ValueError.
Proof.
  intros Hobs Hcams Hheight Hsmall.
  rewrite (DiscreteControlModel_visual brain cam rest height Hobs Hcams Hheight).
  rewrite create_visual_encoder_small by (left; exact Hsmall). reflexivity.
Qed.

End Selector.

(** C6.  On a brain with a continuous action space the selector raises the
    configuration error [UnityEnvironmentException] (so no model is built)
    when the brain has camera observations, and returns the continuous-control
    model when it has none. *)
Theorem continuous_selector_visual_unsupported
    (env : UnityEnvironment) (name : string) (rest : list string)
    (brain : BrainParameters) (lr : R) (h_size : Z) (epsilon beta max_step : R) :
  brain_names env = name :: rest ->
  brains env !! name = Some brain ->
  action_space_type brain = "continuous"%string ->
  (0 < number_observations brain ->
   Build.create_agent_model env lr h_size epsilon beta max_step =
     Raise (UnityEnvironmentException Build.no_continuous_visual_model)) /\
  (number_observations brain = 0 ->
   Build.create_agent_model env lr h_size epsilon beta max_step =
     Ok (Some (Build.Continuous
                 (Build.ContinuousControlModel lr brain h_size epsilon max_step)))).
Proof.
  intros Hnames Hbrain Htype.
  rewrite (create_agent_model_brain _ _ _ _ _ env name rest brain Hnames Hbrain).
  rewrite Htype. simpl. split; intros Hobs.
  - destruct (Z.eqb_spec (number_observations brain) 0); [lia|reflexivity].
  - rewrite Hobs. reflexivity.
Qed.

Lemma continuous_selector_visual_unsupported_witness :
  Build.create_agent_model (Examples.env_of Examples.continuous_visual)
      1e-4 128 0.2 1e-3 5e6 =
    Raise (UnityEnvironmentException Build.no_continuous_visual_model) /\
  Build.create_agent_model (Examples.env_of Examples.continuous_state)
      1e-4 128 0.2 1e-3 5e6 =
    Ok (Some (Build.Continuous
                (Build.ContinuousControlModel 1e-4 Examples.continuous_state
                                              128 0.2 5e6))).
Proof.
  split.
  - apply (continuous_selector_visual_unsupported
             (Examples.env_of Examples.continuous_visual) "Brain" []
             Examples.continuous_visual 1e-4 128 0.2 1e-3 5e6);
      [reflexivity | reflexivity | reflexivity | simpl; lia].
  - apply (continuous_selector_visual_unsupported
             (Examples.env_of Examples.continuous_state) "Brain" []
             Examples.continuous_state 1e-4 128 0.2 1e-3 5e6); reflexivity.
Defined.

(** C7.  On a brain whose action space type is neither continuous nor
    discrete (here ["hybrid"]) the selector raises nothing: it reaches the
    end of the function and returns [None]. *)
Theorem unrecognized_action_space_returns_None :
  Build.create_agent_model (Examples.env_of Examples.hybrid) 1e-4 128 0.2 1e-3 5e6 =
    Ok None.
Proof.
  apply (create_agent_model_unrecognized 1e-4 0.2 1e-3 5e6 128
           (Examples.env_of Examples.hybrid) "Brain" [] Examples.hybrid);
    [reflexivity | reflexivity | discriminate | discriminate].
Qed.

(** C8.  A brain with no vector state and no camera observation makes the
    constructor of the discrete-control model raise "No valid network
    configuration possible", and so does the selector on a discrete brain. *)
Theorem discrete_no_input_raises
    (brain : BrainParameters) (lr : R) (h_size : Z) (epsilon beta max_step : R) :
  state_space_size brain = 0 ->
  number_observations brain = 0 ->
  Build.DiscreteControlModel lr brain h_size epsilon beta max_step =
    Raise (Exception Build.no_valid_network) /\
  forall env name rest,
    brain_names env = name :: rest ->
    brains env !! name = Some brain ->
    action_space_type brain = "discrete"%string ->
    Build.create_agent_model env lr h_size epsilon beta max_step =
      Raise (Exception Build.no_valid_network).
Proof.
  intros Hstate Hobs.
  assert (Hraise : Build.DiscreteControlModel lr brain h_size epsilon beta max_step =
                   Raise (Exception Build.no_valid_network))
    by (apply DiscreteControlModel_no_input; lia).
  split; [exact Hraise|].
  intros env name rest Hnames Hbrain Htype.
  rewrite (create_agent_model_brain _ _ _ _ _ env name rest brain Hnames Hbrain).
  rewrite Htype, Hraise. reflexivity.
Qed.

Lemma discrete_no_input_raises_witness :
  Build.DiscreteControlModel 1e-4 Examples.discrete_blind 128 0.2 1e-3 5e6 =
    Raise (Exception Build.no_valid_network) /\
  Build.create_agent_model (Examples.env_of Examples.discrete_blind)
      1e-4 128 0.2 1e-3 5e6 =
    Raise (Exception Build.no_valid_network).
Proof.
  destruct (discrete_no_input_raises Examples.discrete_blind 1e-4 128 0.2 1e-3 5e6)
    as [Hmodel Hselect]; [reflexivity | reflexivity |].
  split; [exact Hmodel|].
  apply (Hselect (Examples.env_of Examples.discrete_blind) "Brain"%string []);
    reflexivity.
Defined.

(** C3.  When the brain has camera observations, the discrete-control
    constructor reads the "height" entry of the first camera for both spatial
    dimensions of the observation placeholder and rebinds [h_size] to it.
    For a height of at least 7 pixels, which the two convolutions need, the
    model is built: the dense projection of the visual encoder, and every
    dense layer of a state encoder built afterwards, has the width [height].
    Neither the "width" entry nor the [h_size] argument is read: any other
    first camera with the same height, any other cameras after it and any
    other [h_size] give the same model. *)
Theorem discrete_visual_uses_camera_height
    (brain : BrainParameters) (lr : R) (h_size : Z) (epsilon beta max_step : R)
    (cam : gmap string Z) (rest : list (gmap string Z)) (height : Z) :
  0 < number_observations brain ->
  camera_resolutions brain = cam :: rest ->
  cam !! "height"%string = Some height ->
  7 <= height ->
  exists m,
    Build.DiscreteControlModel lr brain h_size epsilon beta max_step = Ok m /\
    Build.observation_in (Build.d_self m) =
      Some (Build.placeholder (Some [None; Some height; Some height; Some 1])
                              Build.float32 (Some "observation_0"%string)) /\
    Build.d_h_size m = height /\
    (exists hv, Build.d_hidden_visual m = Some hv /\ Build.dense_units hv = [height]) /\
    (0 < state_space_size brain ->
     exists hs, Build.d_hidden_state m = Some hs /\
                Build.dense_units hs <> [] /\
                Forall (eq height) (Build.dense_units hs)) /\
    (forall cam' rest' h_size',
       cam' !! "height"%string = Some height ->
       Build.DiscreteControlModel lr (Build.with_cameras brain (cam' :: rest'))
                                  h_size' epsilon beta max_step = Ok m).
Proof.
  intros Hobs Hcams Hheight Hfits.
  pose proof (DiscreteControlModel_visual lr epsilon beta max_step h_size brain
                cam rest height Hobs Hcams Hheight) as E.
  assert (Hsame : forall cam' rest' h_size',
             cam' !! "height"%string = Some height ->
             Build.DiscreteControlModel lr (Build.with_cameras brain (cam' :: rest'))
                                        h_size' epsilon beta max_step =
             Build.DiscreteControlModel lr brain h_size epsilon beta max_step).
  { intros cam' rest' h_size' Hheight'. rewrite E.
    exact (DiscreteControlModel_visual lr epsilon beta max_step h_size'
             (Build.with_cameras brain (cam' :: rest')) cam' rest' height
             Hobs eq_refl Hheight'). }
  rewrite (create_visual_encoder_fits _ _ _ _ Hfits Hfits) in E.
  cbv zeta in E. cbn [bind] in E.
  destruct (Z.ltb_spec 0 (state_space_size brain)) as [Hstate|Hstate];
    [destruct (state_space_type brain =? "continuous")%string|];
    simpl in E; (eexists; split; [exact E|]); simpl;
    (split; [reflexivity|]); (split; [reflexivity|]);
    (split; [eexists; split; reflexivity|]);
    (split; [|intros cam' rest' h_size' Hheight'; rewrite <- E; apply Hsame; exact Hheight']).
  - intros _. eexists. split; [reflexivity|]. simpl. split; [discriminate|].
    repeat constructor.
  - intros _. eexists. split; [reflexivity|]. simpl. split; [discriminate|].
    repeat constructor.
  - intros Hpos. lia.
Qed.

Lemma discrete_visual_uses_camera_height_witness :
  exists m,
    Build.DiscreteControlModel 1e-4 Examples.discrete_visual 128 0.2 1e-3 5e6 = Ok m /\
    Build.observation_in (Build.d_self m) =
      Some (Build.placeholder (Some [None; Some 84; Some 84; Some 1])
                              Build.float32 (Some "observation_0"%string)) /\
    Build.d_h_size m = 84 /\
    (exists hv, Build.d_hidden_visual m = Some hv /\ Build.dense_units hv = [84]) /\
    (exists hs, Build.d_hidden_state m = Some hs /\ Build.dense_units hs = [84; 84]).
Proof.
  destruct (discrete_visual_uses_camera_height Examples.discrete_visual
              1e-4 128 0.2 1e-3 5e6 (Examples.camera 84 64) [] 84)
    as (m & Hm & Hin & Hh & Hv & Hs & _);
    [simpl; lia | reflexivity | reflexivity | lia |].
  exists m. repeat split; try assumption.
  destruct Hs as (hs & Hhs & _ & _); [simpl; lia|].
  exists hs. split; [exact Hhs|].
  rewrite (DiscreteControlModel_visual 1e-4 0.2 1e-3 5e6 128 Examples.discrete_visual
             (Examples.camera 84 64) [] 84) in Hm;
    [| simpl; lia | reflexivity | reflexivity].
  simpl in Hm. injection Hm as <-. simpl in Hhs. injection Hhs as <-. reflexivity.
Defined.

(** * Properties of graph evaluation *)

Lemma pick_lookup {X : Type} (l : list X) (i : nat) :
  length l <> 1%nat -> Run.pick l i = l !! i.
Proof. destruct l as [|x [|x' l]]; simpl; intros; [reflexivity|lia|reflexivity]. Qed.

Lemma pick_Forall2 {X Z : Type} (P : X -> Z -> Prop) xs zs i z :
  Forall2 P xs zs -> Run.pick zs i = Some z ->
  exists x, Run.pick xs i = Some x /\ P x z.
Proof.
  intros HP Hz. pose proof (Forall2_length _ _ _ HP) as Hlen.
  destruct (decide (length zs = 1%nat)) as [Hone|Hone].
  - destruct zs as [|z0 [|]]; try discriminate. destruct xs as [|x0 [|]]; try discriminate.
    simpl in Hz. injection Hz as <-. exists x0. split; [reflexivity|].
    inversion HP; assumption.
  - rewrite pick_lookup in Hz by exact Hone.
    destruct (Forall2_lookup_r _ _ _ _ _ HP Hz) as (x & Hx & HPx).
    exists x. rewrite pick_lookup by lia. auto.
Qed.

Section Broadcasting.

Import Run.

Context {A B C : Type}.

Lemma mapM_total (g : A -> C) (l : list A) :
  mapM (fun x => Some (g x)) l = Some (map g l).
Proof.
  induction l as [|x l IH]; [reflexivity|].
  simpl. rewrite IH. reflexivity.
Qed.

Lemma mapM_zip (g : A -> B -> option C) (h : A -> B -> C) xs ys :
  Forall2 (fun x y => g x y = Some (h x y)) xs ys ->
  mapM (uncurry g) (zip xs ys) = Some (zip_with h xs ys).
Proof.
  induction 1 as [|x y xs ys Hxy _ IH]; [reflexivity|].
  simpl. rewrite Hxy. simpl. rewrite IH. reflexivity.
Qed.

Lemma stretch_same (g : A -> B -> option C) xs ys :
  length xs = length ys ->
  stretch g xs ys = mapM (uncurry g) (zip xs ys).
Proof.
  intros Hlen. unfold stretch.
  destruct xs as [|x [|x' xs]], ys as [|y [|y' ys]]; try discriminate; try reflexivity.
  simpl in Hlen. rewrite decide_True by (simpl; lia). reflexivity.
Qed.

Lemma stretch_right (g : A -> B -> option C) xs y :
  stretch g xs [y] = mapM (fun x => g x y) xs.
Proof. destruct xs as [|x [|x' xs]]; reflexivity. Qed.

Lemma stretch_left (g : A -> B -> option C) x ys :
  stretch g [x] ys = mapM (g x) ys.
Proof. reflexivity. Qed.

Lemma pick_zip (xs : list A) (ys : list B) i x y :
  length xs = length ys ->
  pick (zip xs ys) i = Some (x, y) ->
  pick xs i = Some x /\ pick ys i = Some y.
Proof.
  intros Hlen Hp.
  destruct (decide (length xs = 1%nat)) as [Hone|Hone].
  - destruct xs as [|x0 [|]]; try discriminate. destruct ys as [|y0 [|]]; try discriminate.
    simpl in Hp. injection Hp as <- <-. split; reflexivity.
  - assert (length (zip xs ys) <> 1%nat) by (rewrite length_zip_with; lia).
    rewrite pick_lookup in Hp by assumption.
    rewrite !pick_lookup by lia.
    apply lookup_zip_with_Some in Hp as (x' & y' & Heq & Hx & Hy).
    injection Heq as <- <-. auto.
Qed.

(** Every entry of a broadcast result comes from the entries the two
    operands contribute at the same position. *)
Lemma stretch_pick (g : A -> B -> option C) xs ys zs i z :
  stretch g xs ys = Some zs -> pick zs i = Some z ->
  exists x y, pick xs i = Some x /\ pick ys i = Some y /\ g x y = Some z.
Proof.
  intros Hs Hz.
  destruct (decide (length xs = 1%nat)) as [Hx|Hx].
  - destruct xs as [|x [|]]; try discriminate.
    rewrite stretch_left in Hs. apply mapM_Some_1 in Hs.
    destruct (pick_Forall2 _ _ _ _ _ Hs Hz) as (y & Hy & Hg).
    exists x, y. auto.
  - destruct (decide (length ys = 1%nat)) as [Hy|Hy].
    + destruct ys as [|y [|]]; try discriminate.
      rewrite stretch_right in Hs. apply mapM_Some_1 in Hs.
      destruct (pick_Forall2 _ _ _ _ _ Hs Hz) as (x & Hxi & Hg).
      exists x, y. auto.
    + assert (Hlen : length xs = length ys).
      { unfold stretch in Hs.
        destruct xs as [|x [|x' xs]], ys as [|y [|y' ys]]; simpl in *;
          try lia; try discriminate.
        destruct (decide _) as [Heq|]; [simpl in Heq; lia|discriminate]. }
      rewrite stretch_same in Hs by exact Hlen. apply mapM_Some_1 in Hs.
      destruct (pick_Forall2 _ _ _ _ _ Hs Hz) as ([x y] & Hxy & Hg).
      apply pick_zip in Hxy as [Hxi Hyi]; [|exact Hlen].
      exists x, y. auto.
Qed.

End Broadcasting.

Lemma mapM_ext_total {X Y : Type} (g : X -> option Y) (h : X -> Y) l :
  (forall x, g x = Some (h x)) -> mapM g l = Some (map h l).
Proof.
  intros Hg. induction l as [|x l IH]; [reflexivity|].
  simpl. rewrite Hg. simpl. rewrite IH. reflexivity.
Qed.

Lemma mapM_map {X Y Z : Type} (g : Y -> option Z) (h : X -> Y) l :
  mapM g (map h l) = mapM (fun x => g (h x)) l.
Proof.
  induction l as [|x l IH]; [reflexivity|].
  simpl. rewrite IH. reflexivity.
Qed.

Section TensorOps.

Import Run.

Variable f : R -> R -> R.

Let F (x y : R) : option R := Some (f x y).

Lemma stretch_total_same xs ys :
  length xs = length ys -> stretch F xs ys = Some (zip_with f xs ys).
Proof.
  intros Hlen. rewrite stretch_same by exact Hlen.
  apply mapM_zip. revert ys Hlen.
  induction xs as [|x xs IH]; intros [|y ys] Hlen; simpl in Hlen;
    try discriminate; constructor; [reflexivity|apply IH; lia].
Qed.

Lemma stretch_total_right xs y :
  stretch F xs [y] = Some (map (fun x => f x y) xs).
Proof. rewrite stretch_right. apply (mapM_total (fun x => f x y)). Qed.

Lemma stretch_total_left x ys :
  stretch F [x] ys = Some (map (f x) ys).
Proof. rewrite stretch_left. apply (mapM_total (f x)). Qed.

Lemma rows_of_rows a b m :
  stretch (stretch F) (rows a) (rows b) = Some m ->
  rows (of_rows (Nat.max (rank a) (rank b)) m) = m.
Proof.
  destruct a as [x|v|ma], b as [y|w|mb]; simpl; try reflexivity.
  - intros [= <-]. reflexivity.
  - rewrite (mapM_total (f x)). simpl. intros [= <-]. reflexivity.
  - rewrite stretch_total_right. simpl. intros [= <-]. reflexivity.
  - destruct (stretch F v w) as [r|]; simpl; [|discriminate].
    intros [= <-]. reflexivity.
Qed.

Lemma binop_entry a b c i j z :
  binop f a b = Some c -> entry c i j = Some z ->
  exists x y, entry a i j = Some x /\ entry b i j = Some y /\ z = f x y.
Proof.
  unfold binop, entry. fold F.
  destruct (stretch (stretch F) (rows a) (rows b)) as [m|] eqn:Hm; simpl; [|discriminate].
  intros [= <-]. rewrite (rows_of_rows _ _ _ Hm).
  destruct (pick m i) as [row|] eqn:Hrow; simpl; [|discriminate].
  intros Hz.
  destruct (stretch_pick _ _ _ _ _ _ Hm Hrow) as (ra & rb & Ha & Hb & Hr).
  destruct (stretch_pick _ _ _ _ _ _ Hr Hz) as (x & y & Hx & Hy & Hf).
  exists x, y. rewrite Ha, Hb. simpl. injection Hf as <-. auto.
Qed.

Lemma binop_T0_l x t : binop f (T0 x) t = Some (map_tensor (f x) t).
Proof.
  unfold binop. fold F. simpl rows at 1. rewrite stretch_left.
  rewrite (mapM_ext_total _ (map (f x))) by (intros row; apply stretch_total_left).
  destruct t; reflexivity.
Qed.

Lemma binop_T0_r t y : binop f t (T0 y) = Some (map_tensor (fun x => f x y) t).
Proof.
  unfold binop. fold F. simpl rows at 2. rewrite stretch_right.
  rewrite (mapM_ext_total _ (map (fun x => f x y)))
    by (intros row; apply stretch_total_right).
  destruct t; reflexivity.
Qed.

Lemma binop_T1_same p q :
  length p = length q -> binop f (T1 p) (T1 q) = Some (T1 (zip_with f p q)).
Proof.
  intros Hlen. unfold binop. fold F. simpl.
  rewrite stretch_total_same by exact Hlen. reflexivity.
Qed.

Lemma binop_T2_same ma mb :
  Forall2 (fun ra rb => length ra = length rb) ma mb ->
  binop f (T2 ma) (T2 mb) = Some (T2 (zip_with (zip_with f) ma mb)).
Proof.
  intros Hrows. unfold binop. fold F. simpl.
  rewrite stretch_same by (eapply Forall2_length; exact Hrows).
  rewrite (mapM_zip _ (zip_with f)); [reflexivity|].
  eapply Forall2_impl; [exact Hrows|]. intros ra rb. apply stretch_total_same.
Qed.

(** A vector of length n against a column of shape [[m, 1]]: every element
    of the vector meets every element of the column. *)
Lemma binop_T1_column r col :
  binop f (T1 r) (T2 (map (fun a => [a]) col)) =
    Some (T2 (map (fun a => map (fun x => f x a) r) col)).
Proof.
  unfold binop. fold F.
  change (rows (T1 r)) with [r].
  change (rows (T2 (map (fun a => [a]) col))) with (map (fun a : R => [a]) col).
  rewrite stretch_left, mapM_map.
  rewrite (mapM_ext_total _ (fun a => map (fun x => f x a) r))
    by (intros a; apply stretch_total_right).
  reflexivity.
Qed.

(** A matrix of shape [[n, k]] against a column of shape [[n, 1]]: row i
    meets element i of the column. *)
Lemma binop_T2_column m col :
  length m = length col ->
  binop f (T2 m) (T2 (map (fun a => [a]) col)) =
    Some (T2 (zip_with (fun row a => map (fun x => f x a) row) m col)).
Proof.
  intros Hlen. unfold binop. fold F.
  change (rows (T2 m)) with m.
  change (rows (T2 (map (fun a => [a]) col))) with (map (fun a : R => [a]) col).
  rewrite stretch_same by (rewrite length_map; exact Hlen).
  assert (Hrows : mapM (uncurry (stretch F)) (zip m (map (fun a : R => [a]) col)) =
                  Some (zip_with (fun row a => map (fun x => f x a) row) m col)).
  { revert col Hlen. induction m as [|row m IH]; intros [|a col] Hlen;
      simpl in Hlen; try discriminate; [reflexivity|].
    simpl. rewrite stretch_total_right. simpl.
    rewrite IH by lia. reflexivity. }
  rewrite Hrows. reflexivity.
Qed.

(** A vector of length k against a matrix of shape [[n, k]], either way. *)
Lemma binop_T1_T2 v m :
  Forall (fun row => length row = length v) m ->
  binop f (T1 v) (T2 m) = Some (T2 (map (zip_with f v) m)).
Proof.
  intros Hrows. unfold binop. fold F.
  change (rows (T1 v)) with [v]. change (rows (T2 m)) with m.
  rewrite stretch_left.
  assert (Hm : mapM (stretch F v) m = Some (map (zip_with f v) m)).
  { induction Hrows as [|row m Hrow _ IH]; [reflexivity|].
    simpl. rewrite stretch_total_same by (symmetry; exact Hrow). simpl.
    rewrite IH. reflexivity. }
  rewrite Hm. reflexivity.
Qed.

Lemma binop_T2_T1 m v :
  Forall (fun row => length row = length v) m ->
  binop f (T2 m) (T1 v) = Some (T2 (map (fun row => zip_with f row v) m)).
Proof.
  intros Hrows. unfold binop. fold F.
  change (rows (T1 v)) with [v]. change (rows (T2 m)) with m.
  rewrite stretch_right.
  assert (Hm : mapM (fun row => stretch F row v) m =
               Some (map (fun row => zip_with f row v) m)).
  { induction Hrows as [|row m Hrow _ IH]; [reflexivity|].
    simpl. rewrite stretch_total_same by exact Hrow. simpl.
    rewrite IH. reflexivity. }
  rewrite Hm. reflexivity.
Qed.

End TensorOps.

Lemma pick_map {X Y : Type} (g : X -> Y) (l : list X) (i : nat) :
  Run.pick (map g l) i = g <$> Run.pick l i.
Proof.
  destruct l as [|x [|x' l]]; [reflexivity|reflexivity|].
  change (Run.pick (map g (x :: x' :: l)) i) with (map g (x :: x' :: l) !! i).
  change (Run.pick (x :: x' :: l) i) with ((x :: x' :: l) !! i).
  apply list_lookup_fmap.
Qed.

Lemma entry_map_tensor (g : R -> R) (t : Run.tensor) (i j : nat) :
  Run.entry (Run.map_tensor g t) i j = g <$> Run.entry t i j.
Proof.
  unfold Run.entry. destruct t as [x|v|m]; simpl.
  - reflexivity.
  - apply pick_map.
  - rewrite pick_map. destruct (Run.pick m i) as [row|]; simpl; [|reflexivity].
    apply pick_map.
Qed.

Lemma placeholder_Some shape fed t :
  Run.placeholder shape fed = Some t -> t = fed.
Proof.
  unfold Run.placeholder. destruct (Run.has_shape shape fed); congruence.
Qed.

Lemma clip_above (epsilon r : R) :
  (0 <= epsilon)%R -> (1 + epsilon < r)%R ->
  Run.clip (1 - epsilon) (1 + epsilon) r = (1 + epsilon)%R.
Proof.
  intros Heps Hr. unfold Run.clip.
  rewrite Rmin_right by lra. rewrite Rmax_left by lra. reflexivity.
Qed.

(** Evaluate the [Rmin] and [Rmax] of closed rational expressions. *)
Ltac eval_min_max :=
  repeat match goal with
         | |- context [Rmin ?a ?b] =>
             first [rewrite (Rmin_left a b) by lra | rewrite (Rmin_right a b) by lra]
         | |- context [Rmax ?a ?b] =>
             first [rewrite (Rmax_left a b) by lra | rewrite (Rmax_right a b) by lra]
         end.

(** Peel one [x ← e; k] off a successful evaluation. *)
Ltac bind_inv H x Hx :=
  match type of H with
  | mbind _ ?e = Some _ =>
      destruct e as [x|] eqn:Hx; [cbn [mbind option_bind] in H | discriminate H]
  end.

Lemma create_ppo_optimizer_inv probs old_probs value entropy beta epsilon lr max_step
    fd ops :
  Run.create_ppo_optimizer probs old_probs value entropy beta epsilon lr max_step fd =
    Some ops ->
  exists a b value_sum sq,
    Run.div probs old_probs = Some (Run.r_theta ops) /\
    Run.mul (Run.r_theta ops) (Run.advantage fd) = Some a /\
    Run.mul (Run.clip_by_value (Run.r_theta ops) (1 - epsilon) (1 + epsilon))
            (Run.advantage fd) = Some b /\
    Run.minimum a b = Some (Run.surrogate ops) /\
    Run.policy_loss ops = (- Run.reduce_mean (Run.surrogate ops))%R /\
    Run.reduce_sum_axis1 value = Some value_sum /\
    Run.squared_difference (Run.returns_holder fd) value_sum = Some sq /\
    Run.value_loss ops = Run.reduce_mean sq /\
    Run.loss ops =
      (Run.policy_loss ops + Run.value_loss ops - beta * Run.reduce_mean entropy)%R /\
    Run.learning_rate ops =
      Run.polynomial_decay lr (Run.global_step fd) max_step 1e-10 1.
Proof.
  unfold Run.create_ppo_optimizer. intros H.
  bind_inv H returns_ Hreturns. bind_inv H advantage_ Hadvantage.
  bind_inv H r Hr. bind_inv H a Ha. bind_inv H b Hb. bind_inv H s Hs.
  bind_inv H value_sum Hvalue. bind_inv H sq Hsq. cbn zeta in H.
  apply placeholder_Some in Hreturns, Hadvantage. subst returns_ advantage_.
  injection H as <-. simpl. exists a, b, value_sum, sq. repeat split; assumption.
Qed.

(** ** The learning-rate schedule *)

Lemma polynomial_decay_linear (lr : R) (step : Z) (decay_steps floor : R) :
  Run.polynomial_decay lr step decay_steps floor 1 =
    ((lr - floor) * (1 - Rmin (IZR step) decay_steps / decay_steps) + floor)%R.
Proof. unfold Run.polynomial_decay. simpl. lra. Qed.

Lemma polynomial_decay_monotone (lr : R) (step step' : Z) (decay_steps floor : R) :
  (0 < decay_steps)%R -> (floor <= lr)%R -> (step <= step')%Z ->
  (Run.polynomial_decay lr step' decay_steps floor 1 <=
   Run.polynomial_decay lr step decay_steps floor 1)%R.
Proof.
  intros Hsteps Hfloor Hle. rewrite !polynomial_decay_linear.
  apply IZR_le in Hle.
  assert (Hmin : (Rmin (IZR step) decay_steps <= Rmin (IZR step') decay_steps)%R).
  { apply Rle_min_compat_r. exact Hle. }
  assert (Hdiv : (Rmin (IZR step) decay_steps / decay_steps <=
                  Rmin (IZR step') decay_steps / decay_steps)%R).
  { apply Rmult_le_compat_r; [|exact Hmin].
    apply Rlt_le, Rinv_0_lt_compat, Hsteps. }
  nra.
Qed.

(** C5.  For a positive number [max_step] of training steps, the learning
    rate of [create_ppo_optimizer] is the linear interpolation
    [(lr - 1e-10) * (1 - min step max_step / max_step) + 1e-10] in the step
    counter: it is the base rate [lr] at step 0 and the floor [1e-10] at step
    [max_step], and for a base rate at or above the floor it does not
    increase when the counter grows. *)
Theorem learning_rate_linear_decay
    (probs old_probs value entropy : Run.tensor) (beta epsilon lr max_step : R)
    (fd : Run.ppo_feed) (ops : Run.ppo_ops) :
  (0 < max_step)%R ->
  Run.create_ppo_optimizer probs old_probs value entropy beta epsilon lr max_step fd =
    Some ops ->
  Run.learning_rate ops =
    ((lr - 1e-10) * (1 - Rmin (IZR (Run.global_step fd)) max_step / max_step)
     + 1e-10)%R /\
  (Run.global_step fd = 0 -> Run.learning_rate ops = lr) /\
  (IZR (Run.global_step fd) = max_step -> Run.learning_rate ops = 1e-10%R) /\
  ((1e-10 <= lr)%R ->
   forall probs' old_probs' value' entropy' fd' ops',
     Run.create_ppo_optimizer probs' old_probs' value' entropy' beta epsilon lr
                              max_step fd' = Some ops' ->
     Run.global_step fd <= Run.global_step fd' ->
     (Run.learning_rate ops' <= Run.learning_rate ops)%R).
Proof.
  intros Hsteps Hrun.
  destruct (create_ppo_optimizer_inv _ _ _ _ _ _ _ _ _ _ Hrun)
    as (_ & _ & _ & _ & _ & _ & _ & _ & _ & _ & _ & _ & _ & Hrate).
  rewrite Hrate, polynomial_decay_linear. split; [reflexivity|].
  split; [|split].
  - intros ->. rewrite Rmin_left by lra. unfold Rdiv. rewrite Rmult_0_l. lra.
  - intros ->. rewrite Rmin_left by lra.
    unfold Rdiv. rewrite Rinv_r by lra. lra.
  - intros Hfloor probs' old_probs' value' entropy' fd' ops' Hrun' Hle.
    destruct (create_ppo_optimizer_inv _ _ _ _ _ _ _ _ _ _ Hrun')
      as (_ & _ & _ & _ & _ & _ & _ & _ & _ & _ & _ & _ & _ & Hrate').
    rewrite Hrate', <- polynomial_decay_linear.
    apply polynomial_decay_monotone; assumption.
Qed.

Lemma learning_rate_linear_decay_witness :
  (exists ops,
     Run.create_ppo_optimizer Examples.probs Examples.old_probs Examples.value
       Examples.entropy 1e-3 0.2 1e-4 5e6 Examples.feed = Some ops /\
     Run.learning_rate ops = 1e-4%R) /\
  (exists ops,
     Run.create_ppo_optimizer Examples.probs Examples.old_probs Examples.value
       Examples.entropy 1e-3 0.2 1e-4 5e6 (Examples.feed_at 5000000) = Some ops /\
     Run.learning_rate ops = 1e-10%R).
Proof.
  split.
  - eexists. split; [reflexivity|].
    match goal with
    | |- Run.learning_rate ?o = _ =>
        destruct (learning_rate_linear_decay Examples.probs Examples.old_probs
                    Examples.value Examples.entropy 1e-3 0.2 1e-4 5e6 Examples.feed o)
          as (_ & Hzero & _); [lra | reflexivity |]
    end.
    apply Hzero. reflexivity.
  - eexists. split; [reflexivity|].
    match goal with
    | |- Run.learning_rate ?o = _ =>
        destruct (learning_rate_linear_decay Examples.probs Examples.old_probs
                    Examples.value Examples.entropy 1e-3 0.2 1e-4 5e6
                    (Examples.feed_at 5000000) o)
          as (_ & _ & Hlast & _); [lra | reflexivity |]
    end.
    apply Hlast. simpl. lra.
Defined.

(** Outside that range the schedule is still the same interpolation, but it
    no longer decays from [lr]: with a base rate below the floor ([lr = 0],
    [max_step = 1]) the rate grows from [0] at step 0 to the floor at step 1;
    with a negative [max_step] the rate at step 0 is the floor, not [lr]. *)
Lemma learning_rate_outside_range :
  (Examples.rate_at 0 1 0 = Some (Run.polynomial_decay 0 0 1 1e-10 1) /\
   Examples.rate_at 0 1 1 = Some (Run.polynomial_decay 0 1 1 1e-10 1) /\
   (Run.polynomial_decay 0 0 1 1e-10 1 < Run.polynomial_decay 0 1 1 1e-10 1)%R) /\
  (Examples.rate_at 1e-4 (-1) 0 = Some (Run.polynomial_decay 1e-4 0 (-1) 1e-10 1) /\
   Run.polynomial_decay 1e-4 0 (-1) 1e-10 1 <> 1e-4%R).
Proof.
  repeat split; try reflexivity; rewrite ?polynomial_decay_linear.
  - eval_min_max. lra.
  - eval_min_max. lra.
Qed.

(** ** Inversion of a successful evaluation of the models *)

Lemma ContinuousControlModel_inv lr brain h_size epsilon max_step w fd ops :
  Run.ContinuousControlModel lr brain h_size epsilon max_step w fd = Some ops ->
  exists noise diff numer denom quot two_pi b scaled halves,
    Run.tf_Variable [Z.to_nat (action_space_size brain)] (Run.log_sigma_sq w) =
      Some (Run.log_sigma_sq w) /\
    Run.c_sigma_sq ops = Run.map_tensor exp (Run.log_sigma_sq w) /\
    Run.mul (Run.map_tensor sqrt (Run.c_sigma_sq ops)) (Run.c_epsilon fd) = Some noise /\
    Run.add (Run.c_mu ops) noise = Some (Run.c_output ops) /\
    Run.sub (Run.stop_gradient (Run.c_output ops)) (Run.c_mu ops) = Some diff /\
    Run.mul (Run.T0 (-1)) (Run.map_tensor (fun x => powerRZ x 2) diff) = Some numer /\
    Run.mul (Run.T0 2) (Run.c_sigma_sq ops) = Some denom /\
    Run.div numer denom = Some quot /\
    Run.mul denom (Run.T0 PI) = Some two_pi /\
    Run.div (Run.T0 1) (Run.map_tensor sqrt two_pi) = Some b /\
    Run.mul (Run.map_tensor exp quot) b = Some (Run.c_probs ops) /\
    Run.mul (Run.T0 (2 * PI * exp 1)) (Run.c_sigma_sq ops) = Some scaled /\
    Run.mul (Run.T0 0.5) (Run.map_tensor ln scaled) = Some halves /\
    Run.c_entropy ops = Run.T0 (Run.reduce_sum halves) /\
    Run.create_ppo_optimizer (Run.c_probs ops) (Run.c_old_probs fd) (Run.c_value ops)
      (Run.c_entropy ops) 0.0 epsilon lr max_step (Run.c_ppo_feed fd) =
      Some (Run.c_ppo ops).
Proof.
  unfold Run.ContinuousControlModel. intros H.
  bind_inv H state_in Hstate.
  bind_inv H hp Hhp. bind_inv H hv Hhv. bind_inv H hp2 Hhp2. bind_inv H hv2 Hhv2.
  bind_inv H mu Hmu. bind_inv H lss Hlss. bind_inv H eps Heps.
  bind_inv H noise Hnoise. bind_inv H output Houtput. bind_inv H diff Hdiff.
  bind_inv H numer Hnumer. bind_inv H denom Hdenom. bind_inv H quot Hquot.
  bind_inv H two_pi Htwo. bind_inv H b Hb. bind_inv H probs Hprobs.
  bind_inv H scaled Hscaled. bind_inv H halves Hhalves. bind_inv H val Hvalue.
  bind_inv H old Hold. bind_inv H ppo Hppo.
  pose proof Hlss as Hlss'. apply placeholder_Some in Hlss'.
  apply placeholder_Some in Heps, Hold. subst lss eps old.
  injection H as <-. simpl.
  exists noise, diff, numer, denom, quot, two_pi, b, scaled, halves.
  repeat split; assumption.
Qed.

Lemma DiscreteControlModel_inv lr brain n_hidden epsilon beta max_step w fd ops :
  Run.DiscreteControlModel lr brain n_hidden epsilon beta max_step w fd = Some ops ->
  exists policy shifted plogp row_sums chosen old_chosen,
    Run.dense (Run.d_hidden fd) (Run.d_policy_kernel w) n_hidden
              (Z.to_nat (action_space_size brain)) id = Some policy /\
    Run.d_probs ops = Run.softmax policy /\
    Run.add (Run.d_probs ops) (Run.T0 1e-10) = Some shifted /\
    Run.mul (Run.d_probs ops) (Run.map_tensor ln shifted) = Some plogp /\
    Run.reduce_sum_axis1 plogp = Some row_sums /\
    Run.d_entropy ops = Run.map_tensor Ropp row_sums /\
    Run.mul (Run.d_probs ops)
            (Run.one_hot_encoding (Run.d_action_holder fd)
                                  (Z.to_nat (action_space_size brain))) = Some chosen /\
    Run.reduce_sum_axis1 chosen = Some (Run.d_responsible_probs ops) /\
    Run.mul (Run.d_old_probs fd)
            (Run.one_hot_encoding (Run.d_action_holder fd)
                                  (Z.to_nat (action_space_size brain))) = Some old_chosen /\
    Run.reduce_sum_axis1 old_chosen = Some (Run.d_old_responsible_probs ops) /\
    Run.create_ppo_optimizer (Run.d_responsible_probs ops)
      (Run.d_old_responsible_probs ops) (Run.d_value ops) (Run.d_entropy ops)
      beta epsilon lr max_step (Run.d_ppo_feed fd) = Some (Run.d_ppo ops).
Proof.
  unfold Run.DiscreteControlModel. intros H.
  bind_inv H policy Hpolicy. bind_inv H val Hvalue. bind_inv H shifted Hshifted.
  bind_inv H plogp Hplogp. bind_inv H row_sums Hrows. bind_inv H old Hold.
  bind_inv H responsible Hresp. bind_inv H old_responsible Hold_resp.
  bind_inv H ppo Hppo.
  apply placeholder_Some in Hold. subst old.
  apply bind_Some in Hresp as (chosen & Hchosen & Hresp).
  apply bind_Some in Hold_resp as (old_chosen & Hold_chosen & Hold_resp).
  injection H as <-. simpl.
  exists policy, shifted, plogp, row_sums, chosen, old_chosen.
  repeat split; assumption.
Qed.

(** ** The total loss *)





(** ** The entropy of the continuous policy *)

Lemma sum_scale (k : R) (l : list R) :
  Run.sum (map (Rmult k) l) = (k * Run.sum l)%R.
Proof.
  induction l as [|x l IH]; [simpl; lra|].
  change (k * x + Run.sum (map (Rmult k) l) = k * (x + Run.sum l))%R.
  rewrite IH. lra.
Qed.

Lemma reduce_sum_T1 (v : list R) : Run.reduce_sum (Run.T1 v) = Run.sum v.
Proof. unfold Run.reduce_sum. simpl. lra. Qed.

Lemma tf_Variable_vector (n : nat) (t t' : Run.tensor) :
  Run.tf_Variable [n] t = Some t' -> exists v, t = Run.T1 v /\ length v = n.
Proof.
  unfold Run.tf_Variable, Run.placeholder. simpl.
  destruct t as [x|v|m]; try discriminate.
  destruct (bool_decide (length v = n)) eqn:Hlen; [|discriminate].
  intros _. apply bool_decide_eq_true in Hlen. eauto.
Qed.

Lemma continuous_entropy_formula lr brain h_size epsilon max_step w fd ops :
  Run.ContinuousControlModel lr brain h_size epsilon max_step w fd = Some ops ->
  exists lss,
    Run.log_sigma_sq w = Run.T1 lss /\
    length lss = Z.to_nat (action_space_size brain) /\
    Run.c_sigma_sq ops = Run.T1 (map exp lss) /\
    Run.c_entropy ops =
      Run.T0 (0.5 * Run.sum (map (fun sigma_sq => ln (2 * PI * exp 1 * sigma_sq))
                                 (map exp lss)))%R.
Proof.
  intros Hrun.
  destruct (ContinuousControlModel_inv _ _ _ _ _ _ _ _ Hrun)
    as (noise & diff & numer & denom & quot & two_pi & b & scaled & halves &
        Hvar & Hsigma & _ & _ & _ & _ & _ & _ & _ & _ & _ & Hscaled & Hhalves &
        Hentropy & _).
  destruct (tf_Variable_vector _ _ _ Hvar) as (lss & Hlss & Hlen).
  exists lss. rewrite Hlss in Hsigma. simpl in Hsigma.
  split; [exact Hlss|]. split; [exact Hlen|]. split; [exact Hsigma|].
  rewrite Hsigma in Hscaled. unfold Run.mul in Hscaled, Hhalves.
  rewrite binop_T0_l in Hscaled. injection Hscaled as <-.
  rewrite binop_T0_l in Hhalves. injection Hhalves as <-.
  rewrite Hentropy. simpl Run.map_tensor. rewrite reduce_sum_T1, sum_scale.
  rewrite map_map. reflexivity.
Qed.

(** C9.  The entropy of the continuous model is
    [0.5 * sum (log (2 * pi * e * sigma_sq))] over the action dimensions, with
    [sigma_sq = exp log_sigma_sq]; it is the same for every state input, every
    kernel (hence every [mu]) and every other feed or hyper-parameter, as long
    as [log_sigma_sq] is the same. *)
Theorem continuous_entropy_independent_of_mu
    (lr : R) (brain : BrainParameters) (h_size : Z) (epsilon max_step : R)
    (w : Run.continuous_variables) (fd : Run.continuous_feed)
    (ops : Run.continuous_ops) :
  Run.ContinuousControlModel lr brain h_size epsilon max_step w fd = Some ops ->
  (exists lss,
     Run.log_sigma_sq w = Run.T1 lss /\
     Run.c_sigma_sq ops = Run.T1 (map exp lss) /\
     Run.c_entropy ops =
       Run.T0 (0.5 * Run.sum (map (fun sigma_sq => ln (2 * PI * exp 1 * sigma_sq))
                                  (map exp lss)))%R) /\
  (forall lr' brain' h_size' epsilon' max_step' w' fd' ops',
     Run.ContinuousControlModel lr' brain' h_size' epsilon' max_step' w' fd' =
       Some ops' ->
     Run.log_sigma_sq w' = Run.log_sigma_sq w ->
     Run.c_entropy ops' = Run.c_entropy ops).
Proof.
  intros Hrun.
  destruct (continuous_entropy_formula _ _ _ _ _ _ _ _ Hrun)
    as (lss & Hlss & _ & Hsigma & Hentropy).
  split; [exists lss; auto|].
  intros lr' brain' h_size' epsilon' max_step' w' fd' ops' Hrun' Hsame.
  destruct (continuous_entropy_formula _ _ _ _ _ _ _ _ Hrun')
    as (lss' & Hlss' & _ & _ & Hentropy').
  rewrite Hsame, Hlss in Hlss'. injection Hlss' as <-.
  rewrite Hentropy, Hentropy'. reflexivity.
Qed.

Lemma continuous_entropy_independent_of_mu_witness :
  exists ops ops',
    Run.ContinuousControlModel 1e-4 Examples.small_continuous 1 0.2 5e6
      Examples.continuous_variables (Examples.continuous_feed 1) = Some ops /\
    Run.ContinuousControlModel 1e-4 Examples.small_continuous 1 0.2 5e6
      Examples.continuous_variables (Examples.continuous_feed 2) = Some ops' /\
    Run.c_entropy ops' = Run.c_entropy ops.
Proof.
  eexists. eexists. split; [reflexivity|]. split; [reflexivity|].
  match goal with
  | |- Run.c_entropy ?o' = Run.c_entropy ?o =>
      destruct (continuous_entropy_independent_of_mu 1e-4 Examples.small_continuous
                  1 0.2 5e6 Examples.continuous_variables
                  (Examples.continuous_feed 1) o) as [_ Hsame]; [reflexivity|];
      apply (Hsame 1e-4%R Examples.small_continuous 1 0.2%R 5e6%R
               Examples.continuous_variables (Examples.continuous_feed 2) o');
      reflexivity
  end.
Defined.

(** ** Shapes *)

Section Shapes.

Import Run.

Lemma is_matrix_rows n k t :
  is_matrix n k t <->
  exists m, t = T2 m /\ length m = n /\ Forall (fun r => length r = k) m.
Proof.
  unfold is_matrix. split.
  - destruct t as [x|v|m]; simpl; try discriminate.
    intros H. apply andb_true_iff in H as [Hn Hk].
    apply bool_decide_eq_true in Hn. exists m. split; [reflexivity|].
    split; [exact Hn|]. apply Forall_forall. intros r Hr.
    rewrite forallb_forall in Hk. apply list_elem_of_In in Hr.
    specialize (Hk r Hr). apply bool_decide_eq_true in Hk. exact Hk.
  - intros (m & -> & Hn & Hk). simpl. apply andb_true_iff. split.
    + apply bool_decide_eq_true_2, Hn.
    + apply forallb_forall. intros r Hr. apply bool_decide_eq_true_2.
      rewrite Forall_forall in Hk. apply Hk, list_elem_of_In, Hr.
Qed.

Lemma is_vector_elements n t :
  is_vector n t <-> exists v, t = T1 v /\ length v = n.
Proof.
  unfold is_vector. split.
  - destruct t as [x|v|m]; simpl; try discriminate.
    intros H. apply bool_decide_eq_true in H. eauto.
  - intros (v & -> & Hn). simpl. apply bool_decide_eq_true_2, Hn.
Qed.

Lemma matrix_intro n k m :
  length m = n -> Forall (fun r => length r = k) m -> is_matrix n k (T2 m).
Proof. intros. apply is_matrix_rows. eauto. Qed.

Lemma vector_intro n v : length v = n -> is_vector n (T1 v).
Proof. intros. apply is_vector_elements. eauto. Qed.

Lemma placeholder_matrix n k t :
  is_matrix n k t -> placeholder [None; Some k] t = Some t.
Proof.
  unfold is_matrix, placeholder. destruct t as [x|v|m]; simpl; try discriminate.
  intros H. apply andb_true_iff in H as [_ ->]. reflexivity.
Qed.

Lemma placeholder_vector n t : is_vector n t -> placeholder [None] t = Some t.
Proof.
  unfold is_vector, placeholder. destruct t as [x|v|m]; simpl; try discriminate.
  reflexivity.
Qed.

Lemma tf_Variable_matrix n k t :
  is_matrix n k t -> tf_Variable [n; k] t = Some t.
Proof. unfold is_matrix, tf_Variable, placeholder. simpl map. intros ->. reflexivity. Qed.

Lemma tf_Variable_is_vector n t :
  is_vector n t -> tf_Variable [n] t = Some t.
Proof. unfold is_vector, tf_Variable, placeholder. simpl map. intros ->. reflexivity. Qed.

Lemma map_tensor_matrix g n k t :
  is_matrix n k t -> is_matrix n k (map_tensor g t).
Proof.
  intros (m & -> & Hn & Hk)%is_matrix_rows. simpl. apply matrix_intro.
  - rewrite length_map. exact Hn.
  - apply Forall_map. eapply Forall_impl; [exact Hk|].
    intros r Hr. simpl in *. rewrite length_map. exact Hr.
Qed.

Lemma map_tensor_vector g n t :
  is_vector n t -> is_vector n (map_tensor g t).
Proof.
  intros (v & -> & Hn)%is_vector_elements. simpl. apply vector_intro.
  rewrite length_map. exact Hn.
Qed.

Lemma dense_shape n n_in units x kernel activation :
  is_matrix n n_in x -> is_matrix n_in units kernel ->
  exists y, dense x kernel n_in units activation = Some y /\ is_matrix n units y.
Proof.
  intros Hx Hk. unfold dense.
  rewrite (placeholder_matrix _ _ _ Hx), (tf_Variable_matrix _ _ _ Hk).
  cbn [mbind option_bind]. eexists. split; [reflexivity|].
  apply is_matrix_rows in Hx as (m & -> & Hn & _). apply matrix_intro.
  - simpl. rewrite length_map. exact Hn.
  - apply Forall_map, Forall_forall. intros row _. simpl.
    unfold vecmat. rewrite !length_map, length_seq. reflexivity.
Qed.

Lemma reduce_sum_axis1_shape n k t :
  is_matrix n k t -> exists v, reduce_sum_axis1 t = Some v /\ is_vector n v.
Proof.
  intros (m & -> & Hn & _)%is_matrix_rows. eexists. split; [reflexivity|].
  apply vector_intro. rewrite length_map. exact Hn.
Qed.

Variable f : R -> R -> R.

Lemma Forall2_same_length n k (ma mb : list (list R)) :
  length ma = n -> length mb = n ->
  Forall (fun r => length r = k) ma -> Forall (fun r => length r = k) mb ->
  Forall2 (fun ra rb => length ra = length rb) ma mb.
Proof.
  intros Ha Hb Hka Hkb. apply Forall2_same_length_lookup_2; [congruence|].
  intros i ra rb Hra Hrb.
  rewrite Forall_lookup in Hka. rewrite Forall_lookup in Hkb.
  rewrite (Hka _ _ Hra), (Hkb _ _ Hrb). reflexivity.
Qed.

Lemma binop_matrix_matrix n k a b :
  is_matrix n k a -> is_matrix n k b ->
  exists c, binop f a b = Some c /\ is_matrix n k c.
Proof.
  intros (ma & -> & Ha & Hka)%is_matrix_rows (mb & -> & Hb & Hkb)%is_matrix_rows.
  rewrite binop_T2_same by (eapply Forall2_same_length; eassumption).
  eexists. split; [reflexivity|]. apply matrix_intro.
  - rewrite length_zip_with. lia.
  - apply Forall_lookup. intros i r Hr.
    apply lookup_zip_with_Some in Hr as (ra & rb & -> & Hra & Hrb).
    rewrite Forall_lookup in Hka. rewrite Forall_lookup in Hkb.
    rewrite length_zip_with, (Hka _ _ Hra), (Hkb _ _ Hrb). lia.
Qed.

Lemma binop_vector_vector n a b :
  is_vector n a -> is_vector n b ->
  exists c, binop f a b = Some c /\ is_vector n c.
Proof.
  intros (va & -> & Ha)%is_vector_elements (vb & -> & Hb)%is_vector_elements.
  rewrite binop_T1_same by congruence.
  eexists. split; [reflexivity|]. apply vector_intro.
  rewrite length_zip_with. lia.
Qed.

Lemma binop_vector_matrix n k a b :
  is_vector k a -> is_matrix n k b ->
  exists c, binop f a b = Some c /\ is_matrix n k c.
Proof.
  intros (v & -> & Hv)%is_vector_elements (m & -> & Hn & Hk)%is_matrix_rows.
  rewrite binop_T1_T2 by (eapply Forall_impl; [exact Hk|]; simpl; congruence).
  eexists. split; [reflexivity|]. apply matrix_intro.
  - rewrite length_map. exact Hn.
  - apply Forall_map. eapply Forall_impl; [exact Hk|].
    intros r Hr. simpl in *. rewrite length_zip_with. lia.
Qed.

Lemma binop_matrix_vector n k a b :
  is_matrix n k a -> is_vector k b ->
  exists c, binop f a b = Some c /\ is_matrix n k c.
Proof.
  intros (m & -> & Hn & Hk)%is_matrix_rows (v & -> & Hv)%is_vector_elements.
  rewrite binop_T2_T1 by (eapply Forall_impl; [exact Hk|]; simpl; congruence).
  eexists. split; [reflexivity|]. apply matrix_intro.
  - rewrite length_map. exact Hn.
  - apply Forall_map. eapply Forall_impl; [exact Hk|].
    intros r Hr. simpl in *. rewrite length_zip_with. lia.
Qed.

Lemma column_rows (m : list (list R)) :
  Forall (fun r => length r = 1%nat) m ->
  m = map (fun a => [a]) (map (hd 0%R) m).
Proof.
  induction 1 as [|r m Hr _ IH]; [reflexivity|].
  destruct r as [|a [|]]; try discriminate. simpl. rewrite <- IH. reflexivity.
Qed.

Lemma is_column n t :
  is_matrix n 1 t <-> exists col, t = T2 (map (fun a => [a]) col) /\ length col = n.
Proof.
  rewrite is_matrix_rows. split.
  - intros (m & -> & Hn & Hk). exists (map (hd 0%R) m).
    split; [f_equal; apply column_rows, Hk|]. rewrite length_map. exact Hn.
  - intros (col & -> & Hn). eexists. split; [reflexivity|].
    rewrite length_map. split; [exact Hn|].
    apply Forall_map, Forall_forall. reflexivity.
Qed.

Lemma binop_matrix_column n k a b :
  is_matrix n k a -> is_matrix n 1 b ->
  exists c, binop f a b = Some c /\ is_matrix n k c.
Proof.
  intros (m & -> & Hn & Hk)%is_matrix_rows (col & -> & Hcol)%is_column.
  rewrite binop_T2_column by congruence.
  eexists. split; [reflexivity|]. apply matrix_intro.
  - rewrite length_zip_with. lia.
  - apply Forall_lookup. intros i r Hr.
    apply lookup_zip_with_Some in Hr as (row & x & -> & Hrow & _).
    rewrite Forall_lookup in Hk. rewrite length_map. exact (Hk _ _ Hrow).
Qed.

End Shapes.

(** ** Well-shaped batches evaluate *)

(** Take one step of an evaluation with a lemma that gives the result of the
    step and its shape. *)
Ltac run_step lemma t Ht Hshape :=
  edestruct lemma as (t & Ht & Hshape); [eassumption..|];
  rewrite Ht; cbn [mbind option_bind].

(** Steps whose one operand is a scalar always succeed. *)
Ltac scalar_steps :=
  repeat (progress (rewrite ?binop_T0_l, ?binop_T0_r; cbn [mbind option_bind])).

Lemma create_ppo_optimizer_matrix n k probs old_probs value entropy beta epsilon lr
    max_step fd :
  Run.is_matrix n k probs -> Run.is_matrix n k old_probs ->
  Run.is_matrix n 1 value ->
  Run.is_vector n (Run.returns_holder fd) ->
  Run.is_matrix n 1 (Run.advantage fd) ->
  exists ops,
    Run.create_ppo_optimizer probs old_probs value entropy beta epsilon lr max_step fd =
      Some ops /\
    Run.is_matrix n k (Run.r_theta ops) /\ Run.is_matrix n k (Run.surrogate ops).
Proof.
  intros Hprobs Hold Hvalue Hreturns Hadvantage.
  unfold Run.create_ppo_optimizer, Run.div, Run.mul, Run.minimum,
    Run.squared_difference.
  rewrite (placeholder_vector _ _ Hreturns), (placeholder_matrix _ _ _ Hadvantage).
  cbn [mbind option_bind].
  run_step (binop_matrix_matrix Rdiv n k probs old_probs) r Hr Hr_shape.
  run_step (binop_matrix_column Rmult n k r (Run.advantage fd)) a Ha Ha_shape.
  pose proof (map_tensor_matrix (Run.clip (1 - epsilon) (1 + epsilon)) _ _ _ Hr_shape)
    as Hclip_shape.
  run_step (binop_matrix_column Rmult n k
              (Run.clip_by_value r (1 - epsilon) (1 + epsilon)) (Run.advantage fd))
           b Hb Hb_shape.
  run_step (binop_matrix_matrix Rmin n k a b) s Hs Hs_shape.
  run_step (reduce_sum_axis1_shape n 1 value) value_sum Hsum Hsum_shape.
  run_step (binop_vector_vector (fun x y => (x - y) * (x - y))%R n
              (Run.returns_holder fd) value_sum) sq Hsq Hsq_shape.
  eexists. split; [reflexivity|]. split; assumption.
Qed.

Lemma ContinuousControlModel_evaluates n lr brain h_size epsilon max_step w fd :
  Run.continuous_shapes n (Z.to_nat (state_space_size brain)) (Z.to_nat h_size)
                        (Z.to_nat (action_space_size brain)) w fd ->
  exists ops,
    Run.ContinuousControlModel lr brain h_size epsilon max_step w fd = Some ops /\
    Run.is_matrix n (Z.to_nat (action_space_size brain)) (Run.c_mu ops) /\
    Run.is_vector (Z.to_nat (action_space_size brain)) (Run.c_sigma_sq ops) /\
    Run.is_matrix n (Z.to_nat (action_space_size brain)) (Run.c_output ops) /\
    Run.is_matrix n (Z.to_nat (action_space_size brain)) (Run.c_probs ops) /\
    Run.is_matrix n (Z.to_nat (action_space_size brain)) (Run.r_theta (Run.c_ppo ops)).
Proof.
  intros (Hp1 & Hv1 & Hp2 & Hv2 & Hmu & Hlss & Hval & Hstate & Heps & Hold & Hret & Hadv).
  unfold Run.ContinuousControlModel, Run.mul, Run.add, Run.sub, Run.div.
  set (s_size := Z.to_nat (state_space_size brain)) in *.
  set (a_size := Z.to_nat (action_space_size brain)) in *.
  set (h := Z.to_nat h_size) in *.
  rewrite (placeholder_matrix _ _ _ Hstate). cbn [mbind option_bind].
  run_step (dense_shape n s_size h (Run.c_state_in fd) (Run.policy_kernel_1 w) tanh)
           hp Hhp Hhp_shape.
  run_step (dense_shape n s_size h (Run.c_state_in fd) (Run.value_kernel_1 w) tanh)
           hv Hhv Hhv_shape.
  run_step (dense_shape n h h hp (Run.policy_kernel_2 w) tanh) hp2 Hhp2 Hhp2_shape.
  run_step (dense_shape n h h hv (Run.value_kernel_2 w) tanh) hv2 Hhv2 Hhv2_shape.
  run_step (dense_shape n h a_size hp2 (Run.mu_kernel w) id) mu Hmu' Hmu_shape.
  rewrite (tf_Variable_is_vector _ _ Hlss), (placeholder_matrix _ _ _ Heps).
  cbn [mbind option_bind].
  pose proof (map_tensor_vector exp _ _ Hlss) as Hsigma.
  pose proof (map_tensor_vector sqrt _ _ Hsigma) as Hsqrt.
  run_step (binop_vector_matrix Rmult n a_size
              (Run.map_tensor sqrt (Run.map_tensor exp (Run.log_sigma_sq w)))
              (Run.c_epsilon fd)) noise Hnoise Hnoise_shape.
  run_step (binop_matrix_matrix Rplus n a_size mu noise) output Hout Hout_shape.
  unfold Run.stop_gradient.
  run_step (binop_matrix_matrix Rminus n a_size output mu) diff Hdiff Hdiff_shape.
  scalar_steps.
  pose proof (map_tensor_matrix (Rmult (-1)) _ _ _
                (map_tensor_matrix (fun x => powerRZ x 2) _ _ _ Hdiff_shape)) as Hnum.
  pose proof (map_tensor_vector (Rmult 2) _ _ Hsigma) as Hden.
  run_step (binop_matrix_vector Rdiv n a_size
              (Run.map_tensor (Rmult (-1))
                 (Run.map_tensor (fun x => powerRZ x 2) diff))
              (Run.map_tensor (Rmult 2) (Run.map_tensor exp (Run.log_sigma_sq w))))
           quot Hquot Hquot_shape.
  scalar_steps.
  pose proof (map_tensor_matrix exp _ _ _ Hquot_shape) as Ha.
  pose proof (map_tensor_vector (Rdiv 1) _ _
                (map_tensor_vector sqrt _ _
                   (map_tensor_vector (fun x => x * PI)%R _ _ Hden))) as Hb.
  run_step (binop_matrix_vector Rmult n a_size (Run.map_tensor exp quot)
              (Run.map_tensor (Rdiv 1)
                 (Run.map_tensor sqrt
                    (Run.map_tensor (fun x => x * PI)%R
                       (Run.map_tensor (Rmult 2)
                          (Run.map_tensor exp (Run.log_sigma_sq w)))))))
           probs Hprobs Hprobs_shape.
  run_step (dense_shape n h 1 hv2 (Run.value_kernel w) id) val Hvalue Hvalue_shape.
  rewrite (placeholder_matrix _ _ _ Hold). cbn [mbind option_bind].
  edestruct (create_ppo_optimizer_matrix n a_size probs (Run.c_old_probs fd) val)
    as (ppo & Hppo & Hr_shape & _); [eassumption..|].
  rewrite Hppo. cbn [mbind option_bind].
  eexists. split; [reflexivity|]. simpl. repeat split; assumption.
Qed.

(** ** The clipped surrogate objective *)

Lemma pick_defined {X : Type} (l : list X) (i : nat) :
  (i < length l)%nat -> exists x, Run.pick l i = Some x.
Proof.
  intros Hi. destruct (decide (length l = 1%nat)) as [Hone|Hone].
  - destruct l as [|x [|]]; try discriminate. exists x. reflexivity.
  - rewrite pick_lookup by exact Hone. apply lookup_lt_is_Some_2, Hi.
Qed.

Lemma entry_defined n k t i j :
  Run.is_matrix n k t -> (i < n)%nat -> (j < k)%nat ->
  exists x, Run.entry t i j = Some x.
Proof.
  intros (m & -> & Hn & Hk)%is_matrix_rows Hi Hj. unfold Run.entry. simpl.
  destruct (pick_defined m i) as (row & Hrow); [lia|]. rewrite Hrow. simpl.
  apply pick_defined.
  assert (Hin : row ∈ m).
  { destruct (decide (length m = 1%nat)) as [Hone|Hone].
    - destruct m as [|r [|]]; try discriminate. injection Hrow as <-. left.
    - rewrite pick_lookup in Hrow by exact Hone.
      eapply list_elem_of_lookup_2, Hrow. }
  rewrite Forall_forall in Hk. rewrite (Hk _ Hin). exact Hj.
Qed.

Lemma mapM_Forall {X Y : Type} (g : X -> option Y) (P : Y -> Prop) (l : list X) :
  (forall x, x ∈ l -> exists y, g x = Some y /\ P y) ->
  exists ys, mapM g l = Some ys /\ length ys = length l /\ Forall P ys.
Proof.
  induction l as [|x l IH]; intros Hg.
  - exists []. split; [reflexivity|]. split; [reflexivity|constructor].
  - destruct (Hg x) as (y & Hy & HPy); [left|].
    destruct IH as (ys & Hys & Hlen & HP); [intros x' Hx'; apply Hg; right; exact Hx'|].
    exists (y :: ys). simpl. rewrite Hy. simpl. rewrite Hys. simpl.
    split; [reflexivity|]. split; [lia|constructor; assumption].
Qed.

(** One axis of a broadcast: compatible sizes give a result of the
    broadcast size. *)
Lemma stretch_broadcast {A B C : Type} (g : A -> B -> option C) (P : C -> Prop) xs ys :
  Run.compatible (length xs) (length ys) ->
  (forall x y, x ∈ xs -> y ∈ ys -> exists z, g x y = Some z /\ P z) ->
  exists zs, Run.stretch g xs ys = Some zs /\
             length zs = Run.broadcast_dim (length xs) (length ys) /\ Forall P zs.
Proof.
  intros Hcompat Hg. unfold Run.broadcast_dim.
  destruct (decide (length xs = 1%nat)) as [Hx|Hx].
  - destruct xs as [|x [|]]; try discriminate. rewrite stretch_left.
    apply mapM_Forall. intros y Hy. apply Hg; [left|exact Hy].
  - destruct (decide (length ys = 1%nat)) as [Hy|Hy].
    + destruct ys as [|y [|]]; try discriminate. rewrite stretch_right.
      apply (mapM_Forall (fun x => g x y)). intros x Hx'. apply Hg; [exact Hx'|left].
    + assert (Hlen : length xs = length ys)
        by (destruct Hcompat as [?|[?|?]]; [contradiction | contradiction | assumption]).
      rewrite stretch_same by exact Hlen.
      destruct (mapM_Forall (uncurry g) P (zip xs ys)) as (zs & Hzs & Hl & HP).
      { intros [x y] Hxy. simpl.
        apply Hg; [eapply elem_of_zip_l | eapply elem_of_zip_r]; exact Hxy. }
      exists zs. rewrite length_zip_with in Hl. split; [exact Hzs|].
      split; [lia|exact HP].
Qed.

Lemma broadcast_dim_same (n : nat) : Run.broadcast_dim n n = n.
Proof. unfold Run.broadcast_dim. destruct (decide (n = 1%nat)); reflexivity. Qed.

Lemma broadcast_dim_1_r (n : nat) : Run.broadcast_dim n 1 = n.
Proof. unfold Run.broadcast_dim. destruct (decide (n = 1%nat)); congruence. Qed.

Lemma compatible_same (n : nat) : Run.compatible n n.
Proof. right. right. reflexivity. Qed.

Lemma broadcast_shape_rows r c t :
  Run.broadcast_shape r c t <->
  length (Run.rows t) = r /\ Forall (fun row => length row = c) (Run.rows t).
Proof.
  unfold Run.broadcast_shape. rewrite is_matrix_rows. split.
  - intros (m & [= <-] & Hr & Hc). auto.
  - intros [Hr Hc]. eauto.
Qed.

Lemma is_matrix_broadcast_shape n k t :
  Run.is_matrix n k t -> Run.broadcast_shape n k t.
Proof. intros (m & -> & Hn & Hk)%is_matrix_rows. apply matrix_intro; assumption. Qed.

Lemma is_vector_broadcast_shape n t :
  Run.is_vector n t -> Run.broadcast_shape 1 n t.
Proof.
  intros (v & -> & Hn)%is_vector_elements.
  apply matrix_intro; [reflexivity|]. repeat constructor. exact Hn.
Qed.

Lemma map_tensor_broadcast_shape g r c t :
  Run.broadcast_shape r c t -> Run.broadcast_shape r c (Run.map_tensor g t).
Proof.
  rewrite !broadcast_shape_rows. intros [Hr Hc].
  assert (Hrows : Run.rows (Run.map_tensor g t) = map (map g) (Run.rows t))
    by (destruct t; reflexivity).
  rewrite Hrows, length_map. split; [exact Hr|].
  apply Forall_map. eapply Forall_impl; [exact Hc|].
  intros row Hrow. simpl in *. rewrite length_map. exact Hrow.
Qed.

(** Broadcasting as a whole: operands whose shapes are compatible axis by
    axis give a result, of the broadcast shape. *)
Lemma binop_broadcast (f : R -> R -> R) a b ra ca rb cb :
  Run.broadcast_shape ra ca a -> Run.broadcast_shape rb cb b ->
  Run.compatible ra rb -> Run.compatible ca cb ->
  exists c, Run.binop f a b = Some c /\
            Run.broadcast_shape (Run.broadcast_dim ra rb) (Run.broadcast_dim ca cb) c.
Proof.
  intros [Hra Hca]%broadcast_shape_rows [Hrb Hcb]%broadcast_shape_rows Hr Hc.
  destruct (stretch_broadcast (Run.stretch (fun x y => Some (f x y)))
              (fun row => length row = Run.broadcast_dim ca cb)
              (Run.rows a) (Run.rows b)) as (m & Hm & Hlen & Hrows).
  { rewrite Hra, Hrb. exact Hr. }
  { intros x y Hx Hy.
    rewrite Forall_forall in Hca. rewrite Forall_forall in Hcb.
    destruct (stretch_broadcast (fun x y => Some (f x y)) (fun _ => True) x y)
      as (z & Hz & Hl & _).
    - rewrite (Hca x Hx), (Hcb y Hy). exact Hc.
    - intros; eexists; split; [reflexivity|exact I].
    - exists z. split; [exact Hz|]. rewrite Hl, (Hca x Hx), (Hcb y Hy). reflexivity. }
  unfold Run.binop. rewrite Hm. cbn [mbind option_bind].
  eexists. split; [reflexivity|].
  apply broadcast_shape_rows. rewrite (rows_of_rows f a b m Hm).
  rewrite Hlen, Hra, Hrb. split; [reflexivity|exact Hrows].
Qed.

Lemma broadcast_shape_entry_defined r c t i j :
  Run.broadcast_shape r c t -> (i < r)%nat -> (j < c)%nat ->
  exists x, Run.entry t i j = Some x.
Proof. intros Hshape. exact (entry_defined r c (Run.T2 (Run.rows t)) i j Hshape). Qed.

Lemma broadcast_shape_size r c t :
  Run.broadcast_shape r c t -> Run.size t = (r * c)%nat.
Proof.
  intros [Hr Hc]%broadcast_shape_rows. unfold Run.size. subst r.
  induction Hc as [|row m Hrow _ IH]; [reflexivity|].
  simpl. rewrite length_app, Hrow, IH. reflexivity.
Qed.

(** C1.  On inputs whose shapes broadcast together, [create_ppo_optimizer]
    divides [probs] by [old_probs] entry by entry, and its policy loss is
    minus the mean of the clipped surrogate over the whole broadcast shape:
    the tensor under the mean has exactly [n_rows * n_cols] entries, the one
    at each position is
    [min (r * advantage) (clip r (1 - epsilon) (1 + epsilon) * advantage)]
    for the ratio [r] and the advantage met at that position, and the loss is
    minus their sum divided by their number.  For a clip threshold
    [0 <= epsilon], wherever [advantage > 0] and [r > 1 + epsilon] that entry
    is [(1 + epsilon) * advantage], which differs from [r * advantage]. *)
Theorem clipped_surrogate_objective
    (probs old_probs value entropy : Run.tensor) (beta epsilon lr max_step : R)
    (fd : Run.ppo_feed) (rp cp rq cq m nv kv nr : nat) :
  Run.broadcast_shape rp cp probs ->
  Run.broadcast_shape rq cq old_probs ->
  Run.compatible rp rq ->
  Run.compatible cp cq ->
  Run.is_matrix m 1 (Run.advantage fd) ->
  Run.compatible (Run.broadcast_dim rp rq) m ->
  Run.is_matrix nv kv value ->
  Run.is_vector nr (Run.returns_holder fd) ->
  Run.compatible nr nv ->
  let n_rows := Run.broadcast_dim (Run.broadcast_dim rp rq) m in
  let n_cols := Run.broadcast_dim cp cq in
  exists ops,
    Run.create_ppo_optimizer probs old_probs value entropy beta epsilon lr max_step fd =
      Some ops /\
    Run.div probs old_probs = Some (Run.r_theta ops) /\
    Run.broadcast_shape n_rows n_cols (Run.surrogate ops) /\
    Run.policy_loss ops =
      (- (Run.reduce_sum (Run.surrogate ops) / INR (n_rows * n_cols)))%R /\
    forall i j,
      (i < n_rows)%nat -> (j < n_cols)%nat ->
      exists p q adv,
        Run.entry probs i j = Some p /\
        Run.entry old_probs i j = Some q /\
        Run.entry (Run.r_theta ops) i j = Some (p / q)%R /\
        Run.entry (Run.advantage fd) i j = Some adv /\
        Run.entry (Run.surrogate ops) i j =
          Some (Rmin (p / q * adv)
                     (Run.clip (1 - epsilon) (1 + epsilon) (p / q) * adv)) /\
        ((0 <= epsilon)%R -> (0 < adv)%R -> (1 + epsilon < p / q)%R ->
         Rmin (p / q * adv) (Run.clip (1 - epsilon) (1 + epsilon) (p / q) * adv) =
           ((1 + epsilon) * adv)%R /\
         Rmin (p / q * adv) (Run.clip (1 - epsilon) (1 + epsilon) (p / q) * adv) <>
           (p / q * adv)%R).
Proof.
  intros Hprobs Hold Hrows Hcols Hadv Hbatch Hvalue Hreturns Hvalues n_rows n_cols.
  destruct (binop_broadcast Rdiv _ _ _ _ _ _ Hprobs Hold Hrows Hcols)
    as (r & Hr & Hr_shape).
  pose proof (is_matrix_broadcast_shape _ _ _ Hadv) as Hadv_shape.
  assert (Hcol : Run.compatible (Run.broadcast_dim cp cq) 1) by (right; left; reflexivity).
  destruct (binop_broadcast Rmult _ _ _ _ _ _ Hr_shape Hadv_shape Hbatch Hcol)
    as (a & Ha & Ha_shape).
  pose proof (map_tensor_broadcast_shape (Run.clip (1 - epsilon) (1 + epsilon)) _ _ _
                Hr_shape) as Hclip_shape.
  destruct (binop_broadcast Rmult _ _ _ _ _ _ Hclip_shape Hadv_shape Hbatch Hcol)
    as (b & Hb & Hb_shape).
  rewrite broadcast_dim_1_r in Ha_shape, Hb_shape.
  destruct (binop_broadcast Rmin _ _ _ _ _ _ Ha_shape Hb_shape
              (compatible_same _) (compatible_same _)) as (s & Hs & Hs_shape).
  rewrite !broadcast_dim_same in Hs_shape.
  destruct (reduce_sum_axis1_shape _ _ _ Hvalue) as (value_sum & Hsum & Hsum_shape).
  destruct (binop_broadcast (fun x y => (x - y) * (x - y))%R _ _ _ _ _ _
              (is_vector_broadcast_shape _ _ Hreturns)
              (is_vector_broadcast_shape _ _ Hsum_shape)
              (compatible_same 1) Hvalues) as (sq & Hsq & _).
  assert (Hrun : Run.create_ppo_optimizer probs old_probs value entropy beta epsilon lr
                   max_step fd =
                 Some {| Run.r_theta := r; Run.surrogate := s;
                         Run.policy_loss := - Run.reduce_mean s;
                         Run.value_loss := Run.reduce_mean sq;
                         Run.loss := - Run.reduce_mean s + Run.reduce_mean sq
                                     - beta * Run.reduce_mean entropy;
                         Run.learning_rate :=
                           Run.polynomial_decay lr (Run.global_step fd) max_step
                                                1e-10 1;
                         Run.increment_step :=
                           Run.int32 (Run.global_step fd + 1) |}).
  { unfold Run.create_ppo_optimizer, Run.div, Run.mul, Run.minimum,
      Run.squared_difference, Run.clip_by_value.
    rewrite (placeholder_vector _ _ Hreturns), (placeholder_matrix _ _ _ Hadv).
    cbn [mbind option_bind]. rewrite Hr. cbn [mbind option_bind].
    rewrite Ha. cbn [mbind option_bind]. rewrite Hb. cbn [mbind option_bind].
    rewrite Hs. cbn [mbind option_bind]. rewrite Hsum. cbn [mbind option_bind].
    rewrite Hsq. reflexivity. }
  eexists. split; [exact Hrun|]. cbn [Run.r_theta Run.surrogate Run.policy_loss].
  split; [exact Hr|]. split; [exact Hs_shape|]. split.
  { unfold Run.reduce_mean. rewrite (broadcast_shape_size _ _ _ Hs_shape). reflexivity. }
  intros i j Hi Hj.
  destruct (broadcast_shape_entry_defined _ _ _ i j Hs_shape Hi Hj) as (z & Hentry).
  destruct (binop_entry _ _ _ _ _ _ _ Hs Hentry) as (xa & xb & Hxa & Hxb & ->).
  destruct (binop_entry _ _ _ _ _ _ _ Ha Hxa) as (ratio & adv & Hri & Hadvi & ->).
  destruct (binop_entry _ _ _ _ _ _ _ Hb Hxb) as (c & adv' & Hc & Hadv' & ->).
  destruct (binop_entry _ _ _ _ _ _ _ Hr Hri) as (p & q & Hp & Hq & ->).
  rewrite entry_map_tensor, Hri in Hc.
  injection Hc as <-. rewrite Hadvi in Hadv'. injection Hadv' as <-.
  exists p, q, adv. repeat (split; [assumption|]).
  intros Heps Hpos Hbig. rewrite clip_above by assumption.
  assert (((1 + epsilon) * adv < Rdiv p q * adv)%R) by (apply Rmult_lt_compat_r; assumption).
  rewrite Rmin_right by lra. split; lra.
Qed.

Lemma clipped_surrogate_objective_witness :
  exists ops,
    Run.create_ppo_optimizer Examples.probs Examples.old_probs Examples.value
      Examples.entropy 1e-3 0.2 1e-4 5e6 Examples.feed = Some ops /\
    Run.broadcast_shape 2 2 (Run.surrogate ops) /\
    Run.policy_loss ops = (- (Run.reduce_sum (Run.surrogate ops) / INR (2 * 2)))%R /\
    Run.entry (Run.surrogate ops) 0 0 = Some ((1 + 0.2) * 2)%R.
Proof.
  destruct (clipped_surrogate_objective Examples.probs Examples.old_probs
              Examples.value Examples.entropy 1e-3 0.2 1e-4 5e6 Examples.feed
              1 2 1 2 2 2 1 2)
    as (ops & Hrun & _ & Hshape & Hloss & Hentries);
    [reflexivity | reflexivity | apply compatible_same | apply compatible_same
     | reflexivity | left; reflexivity | reflexivity | reflexivity
     | apply compatible_same |].
  exists ops. split; [exact Hrun|]. split; [exact Hshape|]. split; [exact Hloss|].
  destruct (Hentries 0%nat 0%nat) as (p & q & adv & Hp & Hq & _ & Hadv & Hs & Hclip);
    [vm_compute; lia | vm_compute; lia |].
  injection Hp as <-. injection Hq as <-. injection Hadv as <-.
  destruct Hclip as [Heq _]; [lra | lra | lra |].
  rewrite Hs, Heq. reflexivity.
Defined.

(** A negative threshold is no clip interval: with [epsilon = -0.5] the
    bounds handed to [tf.clip_by_value] are inverted ([1.5] and [0.5]) and the
    clipped ratio is the lower bound [1.5], so for the ratio [1] and the
    advantage [1] the term under the mean is [r * advantage = 1], not
    [(1 + epsilon) * advantage = 0.5]. *)
Lemma negative_epsilon_keeps_unclipped_term :
  Examples.unit_surrogate (-0.5) =
    Some (Run.T2 [[Rmin (1 / 1 * 1)
                        (Run.clip (1 - -0.5) (1 + -0.5) (1 / 1) * 1)]])%R /\
  (0 < 1)%R /\ (1 + -0.5 < 1 / 1)%R /\
  Rmin (1 / 1 * 1) (Run.clip (1 - -0.5) (1 + -0.5) (1 / 1) * 1) = (1 / 1 * 1)%R /\
  Rmin (1 / 1 * 1) (Run.clip (1 - -0.5) (1 + -0.5) (1 / 1) * 1)
    <> ((1 + -0.5) * 1)%R.
Proof.
  split; [reflexivity|]. split; [lra|]. split; [lra|].
  unfold Run.clip. eval_min_max. split; lra.
Qed.

(** ** Entries of the continuous model *)

Lemma continuous_output_entry lr brain h_size epsilon max_step w fd ops i j o :
  Run.ContinuousControlModel lr brain h_size epsilon max_step w fd = Some ops ->
  Run.entry (Run.c_output ops) i j = Some o ->
  exists m s e,
    Run.entry (Run.c_mu ops) i j = Some m /\
    Run.entry (Run.c_sigma_sq ops) i j = Some s /\
    Run.entry (Run.c_epsilon fd) i j = Some e /\
    o = (m + sqrt s * e)%R.
Proof.
  intros Hrun Ho.
  destruct (ContinuousControlModel_inv _ _ _ _ _ _ _ _ Hrun)
    as (noise & diff & numer & denom & quot & two_pi & b & scaled & halves &
        _ & _ & Hnoise & Hout & _).
  destruct (binop_entry _ _ _ _ _ _ _ Hout Ho) as (m & x & Hm & Hx & ->).
  destruct (binop_entry _ _ _ _ _ _ _ Hnoise Hx) as (r & e & Hr & He & ->).
  rewrite entry_map_tensor in Hr. apply fmap_Some in Hr as (s & Hs & ->).
  exists m, s, e. auto.
Qed.

Lemma continuous_probs_entry lr brain h_size epsilon max_step w fd ops i j p :
  Run.ContinuousControlModel lr brain h_size epsilon max_step w fd = Some ops ->
  Run.entry (Run.c_probs ops) i j = Some p ->
  exists o m s,
    Run.entry (Run.c_output ops) i j = Some o /\
    Run.entry (Run.c_mu ops) i j = Some m /\
    Run.entry (Run.c_sigma_sq ops) i j = Some s /\
    p = (exp (- (o - m) ^ 2 / (2 * s)) / sqrt (2 * PI * s))%R.
Proof.
  intros Hrun Hp.
  destruct (ContinuousControlModel_inv _ _ _ _ _ _ _ _ Hrun)
    as (noise & diff & numer & denom & quot & two_pi & b & scaled & halves &
        _ & _ & _ & _ & Hdiff & Hnumer & Hdenom & Hquot & Htwo & Hb & Hprobs & _).
  destruct (binop_entry _ _ _ _ _ _ _ Hprobs Hp) as (ea & xb & Hea & Hxb & ->).
  rewrite entry_map_tensor in Hea. apply fmap_Some in Hea as (q & Hq & ->).
  destruct (binop_entry _ _ _ _ _ _ _ Hquot Hq) as (xn & xd & Hxn & Hxd & ->).
  destruct (binop_entry _ _ _ _ _ _ _ Hnumer Hxn) as (neg & sq & Hneg & Hsq & ->).
  injection Hneg as <-.
  rewrite entry_map_tensor in Hsq. apply fmap_Some in Hsq as (d & Hd & ->).
  unfold Run.stop_gradient in Hdiff.
  destruct (binop_entry _ _ _ _ _ _ _ Hdiff Hd) as (o & m & Ho & Hm & ->).
  destruct (binop_entry _ _ _ _ _ _ _ Hdenom Hxd) as (two & s & Htwo' & Hs & ->).
  injection Htwo' as <-.
  destruct (binop_entry _ _ _ _ _ _ _ Hb Hxb) as (one & rt & Hone & Hrt & ->).
  injection Hone as <-.
  rewrite entry_map_tensor in Hrt. apply fmap_Some in Hrt as (tp & Htp & ->).
  destruct (binop_entry _ _ _ _ _ _ _ Htwo Htp) as (xd' & pi & Hxd' & Hpi & ->).
  injection Hpi as <-. rewrite Hxd in Hxd'. injection Hxd' as <-.
  exists o, m, s. repeat (split; [assumption|]).
  replace (2 * s * PI)%R with (2 * PI * s)%R by ring.
  replace (-1 * powerRZ (o - m) 2 / (2 * s))%R with (- (o - m) ^ 2 / (2 * s))%R
    by (simpl; unfold Rdiv; ring).
  unfold Rdiv. ring.
Qed.

Lemma sigma_sq_entry lr brain h_size epsilon max_step w fd ops i j s :
  Run.ContinuousControlModel lr brain h_size epsilon max_step w fd = Some ops ->
  Run.entry (Run.c_sigma_sq ops) i j = Some s ->
  exists l, Run.entry (Run.log_sigma_sq w) i j = Some l /\ s = exp l.
Proof.
  intros Hrun Hs.
  destruct (ContinuousControlModel_inv _ _ _ _ _ _ _ _ Hrun)
    as (? & ? & ? & ? & ? & ? & ? & ? & ? & _ & Hsigma & _).
  rewrite Hsigma, entry_map_tensor in Hs. apply fmap_Some in Hs. exact Hs.
Qed.

(** [mu] is the output of the policy network on the states fed. *)
Lemma ContinuousControlModel_mu lr brain h_size epsilon max_step w fd ops :
  Run.ContinuousControlModel lr brain h_size epsilon max_step w fd = Some ops ->
  exists hidden_policy hidden_policy_2,
    Run.dense (Run.c_state_in fd) (Run.policy_kernel_1 w)
      (Z.to_nat (state_space_size brain)) (Z.to_nat h_size) tanh = Some hidden_policy /\
    Run.dense hidden_policy (Run.policy_kernel_2 w)
      (Z.to_nat h_size) (Z.to_nat h_size) tanh = Some hidden_policy_2 /\
    Run.dense hidden_policy_2 (Run.mu_kernel w)
      (Z.to_nat h_size) (Z.to_nat (action_space_size brain)) id = Some (Run.c_mu ops).
Proof.
  unfold Run.ContinuousControlModel. intros H.
  bind_inv H state_in Hstate. apply placeholder_Some in Hstate. subst state_in.
  bind_inv H hp Hhp. bind_inv H hv Hhv. bind_inv H hp2 Hhp2. bind_inv H hv2 Hhv2.
  bind_inv H mu Hmu.
  repeat match type of H with
         | mbind _ ?e = Some _ =>
             destruct e; [cbn [mbind option_bind] in H | discriminate H]
         end.
  injection H as <-. exists hp, hp2. auto.
Qed.

(** ** Gradients of the continuous model *)

Lemma differentiates_inv (n x : Build.node) :
  Build.differentiates n x ->
  n = x \/
  ((forall y, n <> Build.stop_gradient y) /\
   exists i, In i (Build.inputs n) /\ Build.differentiates i x).
Proof. intros [|? i ? Hopen Hin Hrest]; [left; reflexivity|right; eauto]. Qed.

(** Follow every chain of inputs from a node of a known graph, and close the
    chains that enter a [stop_gradient] or end in another node than the one
    looked for. *)
Ltac gradient_blocked :=
  repeat match goal with
         | H : Build.differentiates _ _ |- _ =>
             apply differentiates_inv in H;
             let Hopen := fresh "Hopen" in
             let i := fresh "i" in
             let Hin := fresh "Hin" in
             destruct H as [H|(Hopen & i & Hin & H)];
             [discriminate H
             | first [ exfalso; exact (Hopen _ eq_refl)
                     | cbn [Build.inputs In] in Hin;
                       repeat (destruct Hin as [<-|Hin]); try contradiction ]]
         end.

(** C10.  On a well-shaped batch of [n] states the continuous model
    evaluates.  Its [mu] is the output of the policy network on the states
    and its [sigma_sq] the exponential of the variable [log_sigma_sq]; its
    action output has shape [[n, action_space_size]] and is
    [mu + sqrt sigma_sq * epsilon] entry by entry, for the noise [epsilon] the
    caller feeds; its [probs], of the same shape (nothing is summed over the
    action dimensions), is the Gaussian density
    [exp (- (action - mu)^2 / (2 * sigma_sq)) / sqrt (2 * pi * sigma_sq)] at
    that action, entry by entry, and the ratio of the PPO objective divides
    it by [old_probs] entry by entry.  In the graph the constructor builds,
    [probs] reads the action through [tf.stop_gradient] only: it depends on
    the output, but no gradient of [probs] reaches the output or the noise,
    while gradients still reach [mu] and [sigma_sq], which the density reads
    directly. *)
Theorem continuous_action_and_density
    (n : nat) (lr : R) (brain : BrainParameters) (h_size : Z) (epsilon max_step : R)
    (w : Run.continuous_variables) (fd : Run.continuous_feed) :
  Run.continuous_shapes n (Z.to_nat (state_space_size brain)) (Z.to_nat h_size)
                        (Z.to_nat (action_space_size brain)) w fd ->
  (exists ops hidden_policy hidden_policy_2,
     Run.ContinuousControlModel lr brain h_size epsilon max_step w fd = Some ops /\
     Run.dense (Run.c_state_in fd) (Run.policy_kernel_1 w)
       (Z.to_nat (state_space_size brain)) (Z.to_nat h_size) tanh =
       Some hidden_policy /\
     Run.dense hidden_policy (Run.policy_kernel_2 w)
       (Z.to_nat h_size) (Z.to_nat h_size) tanh = Some hidden_policy_2 /\
     Run.dense hidden_policy_2 (Run.mu_kernel w)
       (Z.to_nat h_size) (Z.to_nat (action_space_size brain)) id =
       Some (Run.c_mu ops) /\
     Run.c_sigma_sq ops = Run.map_tensor exp (Run.log_sigma_sq w) /\
     Run.is_matrix n (Z.to_nat (action_space_size brain)) (Run.c_output ops) /\
     Run.is_matrix n (Z.to_nat (action_space_size brain)) (Run.c_probs ops) /\
     forall i j,
       (i < n)%nat -> (j < Z.to_nat (action_space_size brain))%nat ->
       exists mu log_sigma_sq noise old action density,
         Run.entry (Run.c_mu ops) i j = Some mu /\
         Run.entry (Run.log_sigma_sq w) i j = Some log_sigma_sq /\
         Run.entry (Run.c_sigma_sq ops) i j = Some (exp log_sigma_sq) /\
         Run.entry (Run.c_epsilon fd) i j = Some noise /\
         Run.entry (Run.c_old_probs fd) i j = Some old /\
         Run.entry (Run.c_output ops) i j = Some action /\
         action = (mu + sqrt (exp log_sigma_sq) * noise)%R /\
         Run.entry (Run.c_probs ops) i j = Some density /\
         density = (exp (- (action - mu) ^ 2 / (2 * exp log_sigma_sq))
                    / sqrt (2 * PI * exp log_sigma_sq))%R /\
         Run.entry (Run.r_theta (Run.c_ppo ops)) i j = Some (density / old)%R) /\
  (let m := Build.ContinuousControlModel lr brain h_size epsilon max_step in
   Build.c_output m =
     Build.identity
       (Build.add (Build.c_mu m)
                  (Build.mul (Build.sqrt (Build.c_sigma_sq m)) (Build.c_epsilon m)))
       "action" /\
   Build.c_probs m =
     Build.mul
       (Build.exp
          (Build.div
             (Build.mul (Build.constant (-1))
                (Build.pow (Build.sub (Build.stop_gradient (Build.c_output m))
                                      (Build.c_mu m))
                           (Build.constant 2)))
             (Build.mul (Build.constant 2) (Build.c_sigma_sq m))))
       (Build.div (Build.constant 1)
          (Build.sqrt (Build.mul (Build.mul (Build.constant 2) (Build.c_sigma_sq m))
                                 (Build.constant PI)))) /\
   Build.depends_on (Build.c_probs m) (Build.c_output m) /\
   ~ Build.differentiates (Build.c_probs m) (Build.c_output m) /\
   ~ Build.differentiates (Build.c_probs m) (Build.c_epsilon m) /\
   Build.differentiates (Build.c_output m) (Build.c_epsilon m) /\
   Build.differentiates (Build.c_probs m) (Build.c_mu m) /\
   Build.differentiates (Build.c_probs m) (Build.c_sigma_sq m)).
Proof.
  intros Hshapes. split.
  - destruct (ContinuousControlModel_evaluates n lr brain h_size epsilon max_step w fd
                Hshapes) as (ops & Hrun & _ & _ & Hout & Hprobs & Hratio).
    destruct (ContinuousControlModel_mu _ _ _ _ _ _ _ _ Hrun)
      as (hidden_policy & hidden_policy_2 & Hhp & Hhp2 & Hmu).
    destruct (ContinuousControlModel_inv _ _ _ _ _ _ _ _ Hrun)
      as (? & ? & ? & ? & ? & ? & ? & ? & ? & Hinv).
    decompose [and] Hinv.
    exists ops, hidden_policy, hidden_policy_2.
    repeat (split; [assumption|]).
    intros i j Hi Hj.
    destruct (entry_defined _ _ _ i j Hout Hi Hj) as (o & Ho).
    destruct (entry_defined _ _ _ i j Hprobs Hi Hj) as (p & Hp).
    destruct (entry_defined _ _ _ i j Hratio Hi Hj) as (r & Hr).
    destruct (continuous_output_entry _ _ _ _ _ _ _ _ _ _ _ Hrun Ho)
      as (m & s & e & Hm & Hs & He & Hact).
    destruct (continuous_probs_entry _ _ _ _ _ _ _ _ _ _ _ Hrun Hp)
      as (o' & m' & s' & Ho' & Hm' & Hs' & Hdens).
    rewrite Ho in Ho'. injection Ho' as <-. rewrite Hm in Hm'. injection Hm' as <-.
    rewrite Hs in Hs'. injection Hs' as <-.
    destruct (sigma_sq_entry _ _ _ _ _ _ _ _ _ _ _ Hrun Hs) as (l & Hl & ->).
    match goal with
    | Hppo : Run.create_ppo_optimizer _ _ _ _ _ _ _ _ _ = Some _ |- _ =>
        destruct (create_ppo_optimizer_inv _ _ _ _ _ _ _ _ _ _ Hppo)
          as (? & ? & ? & ? & Hdiv & _)
    end.
    destruct (binop_entry _ _ _ _ _ _ _ Hdiv Hr) as (p' & q & Hp' & Hq & ->).
    rewrite Hp in Hp'. injection Hp' as <-.
    exists m, l, e, q, o, p. repeat (split; [assumption|]). exact Hr.
  - cbv zeta. split; [reflexivity|]. split; [reflexivity|].
    unfold Build.ContinuousControlModel.
    cbn [Build.c_probs Build.c_output Build.c_epsilon Build.c_mu Build.c_sigma_sq].
    split; [|split; [|split; [|split; [|split]]]].
    + eapply Build.depends_on_input; [left; reflexivity|].
      eapply Build.depends_on_input; [left; reflexivity|].
      eapply Build.depends_on_input; [left; reflexivity|].
      eapply Build.depends_on_input; [right; left; reflexivity|].
      eapply Build.depends_on_input; [left; reflexivity|].
      eapply Build.depends_on_input; [left; reflexivity|].
      eapply Build.depends_on_input; [left; reflexivity|].
      apply Build.depends_on_refl.
    + intros H. gradient_blocked.
    + intros H. gradient_blocked.
    + eapply Build.differentiates_input; [discriminate | left; reflexivity|].
      eapply Build.differentiates_input; [discriminate | right; left; reflexivity|].
      eapply Build.differentiates_input; [discriminate | right; left; reflexivity|].
      apply Build.differentiates_refl.
    + eapply Build.differentiates_input; [discriminate | left; reflexivity|].
      eapply Build.differentiates_input; [discriminate | left; reflexivity|].
      eapply Build.differentiates_input; [discriminate | left; reflexivity|].
      eapply Build.differentiates_input; [discriminate | right; left; reflexivity|].
      eapply Build.differentiates_input; [discriminate | left; reflexivity|].
      eapply Build.differentiates_input; [discriminate | right; left; reflexivity|].
      apply Build.differentiates_refl.
    + eapply Build.differentiates_input; [discriminate | left; reflexivity|].
      eapply Build.differentiates_input; [discriminate | left; reflexivity|].
      eapply Build.differentiates_input; [discriminate | right; left; reflexivity|].
      eapply Build.differentiates_input; [discriminate | right; left; reflexivity|].
      apply Build.differentiates_refl.
Qed.

Lemma continuous_action_and_density_witness :
  (exists ops,
     Run.ContinuousControlModel 1e-4 Examples.small_continuous 1 0.2 5e6
       Examples.continuous_variables (Examples.continuous_feed 1) = Some ops /\
     Run.is_matrix 1 2 (Run.c_output ops) /\
     exists mu,
       Run.entry (Run.c_mu ops) 0 0 = Some mu /\
       Run.entry (Run.c_sigma_sq ops) 0 0 = Some (exp 0) /\
       Run.entry (Run.c_output ops) 0 0 = Some (mu + sqrt (exp 0) * 0.5)%R) /\
  ~ Build.differentiates
      (Build.c_probs (Build.ContinuousControlModel 1e-4 Examples.small_continuous 1
                        0.2 5e6))
      (Build.c_output (Build.ContinuousControlModel 1e-4 Examples.small_continuous 1
                         0.2 5e6)).
Proof.
  destruct (continuous_action_and_density 1 1e-4 Examples.small_continuous 1 0.2 5e6
              Examples.continuous_variables (Examples.continuous_feed 1))
    as [(ops & hp & hp2 & Hrun & _ & _ & _ & _ & Hshape & _ & Hentries)
        (_ & _ & _ & Hdetached & _)];
    [repeat split; reflexivity|].
  split; [|exact Hdetached].
  exists ops. split; [exact Hrun|]. split; [exact Hshape|].
  destruct (Hentries 0%nat 0%nat) as (mu & l & noise & old & action & density &
                                      Hmu & Hl & Hsigma & Hnoise & _ & Haction & -> & _);
    [simpl; lia | simpl; lia |].
  injection Hl as <-. injection Hnoise as <-. exists mu. auto.
Defined.

(** ** The discrete policy loss *)

Lemma zip_with_map_same {X Y Z W : Type} (h : Y -> Z -> W) (g1 : X -> Y) (g2 : X -> Z)
    (l : list X) :
  zip_with h (map g1 l) (map g2 l) = map (fun x => h (g1 x) (g2 x)) l.
Proof. induction l as [|x l IH]; [reflexivity|]. simpl. rewrite IH. reflexivity. Qed.

Lemma length_concat_map_const {X : Type} (g : X -> list R) (l : list X) (k : nat) :
  (forall x, length (g x) = k) -> length (concat (map g l)) = (length l * k)%nat.
Proof.
  intros Hg. induction l as [|x l IH]; [reflexivity|].
  simpl. rewrite length_app, Hg, IH. reflexivity.
Qed.

Lemma create_ppo_optimizer_vector n probs old_probs value entropy beta epsilon lr
    max_step fd :
  Run.is_vector n probs -> Run.is_vector n old_probs ->
  Run.is_matrix n 1 value ->
  Run.is_vector n (Run.returns_holder fd) ->
  Run.is_matrix n 1 (Run.advantage fd) ->
  exists ops ratios advantages,
    Run.create_ppo_optimizer probs old_probs value entropy beta epsilon lr max_step fd =
      Some ops /\
    Run.div probs old_probs = Some (Run.T1 ratios) /\
    Run.r_theta ops = Run.T1 ratios /\ length ratios = n /\
    Run.advantage fd = Run.T2 (map (fun a => [a]) advantages) /\
    length advantages = n /\
    Run.surrogate ops =
      Run.T2 (map (fun adv => map (fun r => Run.surrogate_term epsilon r adv) ratios)
                  advantages) /\
    Run.policy_loss ops =
      (- (1 / (INR n * INR n)) * Run.sum_all_pairs epsilon ratios advantages)%R.
Proof.
  intros (p & -> & Hp)%is_vector_elements (q & -> & Hq)%is_vector_elements
         Hvalue Hreturns Hadvantage.
  pose proof Hadvantage as (advs & Hadvs & Hlen)%is_column.
  unfold Run.create_ppo_optimizer, Run.div, Run.mul, Run.minimum,
    Run.squared_difference.
  rewrite (placeholder_vector _ _ Hreturns), (placeholder_matrix _ _ _ Hadvantage).
  cbn [mbind option_bind].
  rewrite binop_T1_same by congruence. cbn [mbind option_bind].
  rewrite Hadvs. simpl Run.clip_by_value. rewrite !binop_T1_column.
  cbn [mbind option_bind].
  rewrite binop_T2_same.
  2:{ apply Forall2_fmap, Forall_Forall2_diag, Forall_forall. intros a _.
      rewrite !length_map. reflexivity. }
  cbn [mbind option_bind].
  run_step (reduce_sum_axis1_shape n 1 value) value_sum Hsum Hsum_shape.
  run_step (binop_vector_vector (fun x y => (x - y) * (x - y))%R n
              (Run.returns_holder fd) value_sum) sq Hsq Hsq_shape.
  assert (Hsurrogate :
            zip_with (zip_with Rmin)
              (map (fun a => map (fun x => (x * a)%R) (zip_with Rdiv p q)) advs)
              (map (fun a => map (fun x => (x * a)%R)
                                 (map (Run.clip (1 - epsilon) (1 + epsilon))
                                      (zip_with Rdiv p q))) advs) =
            map (fun adv => map (fun r => Run.surrogate_term epsilon r adv)
                                (zip_with Rdiv p q)) advs).
  { rewrite zip_with_map_same. apply map_ext. intros a.
    rewrite map_map, zip_with_map_same. reflexivity. }
  rewrite Hsurrogate.
  assert (Hratios : length (zip_with Rdiv p q) = n)
    by (rewrite length_zip_with; lia).
  eexists. exists (zip_with Rdiv p q), advs.
  split; [reflexivity|]. simpl.
  repeat (split; [first [reflexivity | assumption]|]).
  unfold Run.reduce_mean, Run.reduce_sum, Run.size, Run.sum_all_pairs. simpl Run.rows.
  rewrite (length_concat_map_const _ _ n) by (intros a; rewrite length_map; exact Hratios).
  rewrite Hlen, mult_INR, map_map. unfold Rdiv. ring.
Qed.

Lemma softmax_matrix n k t :
  Run.is_matrix n k t -> Run.is_matrix n k (Run.softmax t).
Proof.
  intros (m & -> & Hn & Hk)%is_matrix_rows. simpl. apply matrix_intro.
  - rewrite length_map. exact Hn.
  - apply Forall_map. eapply Forall_impl; [exact Hk|].
    intros r Hr. simpl in *. unfold Run.softmax_row. rewrite length_map. exact Hr.
Qed.

Lemma one_hot_encoding_matrix labels k :
  Run.is_matrix (length labels) k (Run.one_hot_encoding labels k).
Proof.
  unfold Run.one_hot_encoding. apply matrix_intro.
  - apply length_map.
  - apply Forall_map, Forall_forall. intros l _. simpl.
    rewrite length_map, length_seqZ. lia.
Qed.

Lemma DiscreteControlModel_evaluates n lr brain n_hidden epsilon beta max_step w fd :
  Run.discrete_shapes n n_hidden (Z.to_nat (action_space_size brain)) w fd ->
  exists ops ratios advantages,
    Run.DiscreteControlModel lr brain n_hidden epsilon beta max_step w fd = Some ops /\
    Run.is_vector n (Run.d_responsible_probs ops) /\
    Run.is_vector n (Run.d_old_responsible_probs ops) /\
    Run.div (Run.d_responsible_probs ops) (Run.d_old_responsible_probs ops) =
      Some (Run.T1 ratios) /\
    Run.r_theta (Run.d_ppo ops) = Run.T1 ratios /\ length ratios = n /\
    Run.advantage (Run.d_ppo_feed fd) = Run.T2 (map (fun a => [a]) advantages) /\
    length advantages = n /\
    Run.surrogate (Run.d_ppo ops) =
      Run.T2 (map (fun adv => map (fun r => Run.surrogate_term epsilon r adv) ratios)
                  advantages) /\
    Run.policy_loss (Run.d_ppo ops) =
      (- (1 / (INR n * INR n)) * Run.sum_all_pairs epsilon ratios advantages)%R.
Proof.
  intros (Hpolicy & Hval & Hhidden & Hlabels & Hold & Hret & Hadv).
  unfold Run.DiscreteControlModel, Run.mul, Run.add.
  set (a_size := Z.to_nat (action_space_size brain)) in *.
  run_step (dense_shape n n_hidden a_size (Run.d_hidden fd) (Run.d_policy_kernel w) id)
           policy Hpol Hpol_shape.
  pose proof (softmax_matrix _ _ _ Hpol_shape) as Hprobs.
  run_step (dense_shape n n_hidden 1 (Run.d_hidden fd) (Run.d_value_kernel w) id)
           val Hvalue Hvalue_shape.
  scalar_steps.
  pose proof (map_tensor_matrix ln _ _ _
                (map_tensor_matrix (fun x => x + 1e-10)%R _ _ _ Hprobs)) as Hlog.
  run_step (binop_matrix_matrix Rmult n a_size (Run.softmax policy)
              (Run.map_tensor ln
                 (Run.map_tensor (fun x => x + 1e-10)%R (Run.softmax policy))))
           plogp Hplogp Hplogp_shape.
  run_step (reduce_sum_axis1_shape n a_size plogp) row_sums Hrows Hrows_shape.
  rewrite (placeholder_matrix _ _ _ Hold). cbn [mbind option_bind].
  pose proof (one_hot_encoding_matrix (Run.d_action_holder fd) a_size) as Hhot.
  rewrite Hlabels in Hhot.
  run_step (binop_matrix_matrix Rmult n a_size (Run.softmax policy)
              (Run.one_hot_encoding (Run.d_action_holder fd) a_size))
           chosen Hchosen Hchosen_shape.
  run_step (reduce_sum_axis1_shape n a_size chosen) responsible Hresp Hresp_shape.
  run_step (binop_matrix_matrix Rmult n a_size (Run.d_old_probs fd)
              (Run.one_hot_encoding (Run.d_action_holder fd) a_size))
           old_chosen Hold_chosen Hold_chosen_shape.
  run_step (reduce_sum_axis1_shape n a_size old_chosen) old_responsible Hold_resp
           Hold_resp_shape.
  edestruct (create_ppo_optimizer_vector n responsible old_responsible val
               (Run.map_tensor Ropp row_sums) beta epsilon lr max_step
               (Run.d_ppo_feed fd))
    as (ppo & ratios & advantages & Hppo & Hdiv & Hr & Hlen & Hadvs & Hlen' & Hs & Hloss);
    [eassumption..|].
  rewrite Hppo. cbn [mbind option_bind].
  eexists. exists ratios, advantages. split; [reflexivity|]. simpl.
  repeat (split; [assumption|]). assumption.
Qed.

Lemma example_sum_all_pairs :
  Run.sum_all_pairs 0.2 [0.9 / 0.6; 0.5 / 0.5]%R [2; -1]%R = 1.9%R.
Proof.
  unfold Run.sum_all_pairs, Run.surrogate_term, Run.clip. simpl.
  eval_min_max. lra.
Qed.

Lemma example_sum_same_index :
  Run.sum_same_index 0.2 [0.9 / 0.6; 0.5 / 0.5]%R [2; -1]%R = 1.4%R.
Proof.
  unfold Run.sum_same_index, Run.surrogate_term, Run.clip. simpl.
  eval_min_max. lra.
Qed.

(** C2.  On a well-shaped batch of [n] samples the discrete model evaluates;
    the probabilities of the taken actions have shape [[n]], the advantages
    shape [[n, 1]], so their product broadcasts to shape [[n, n]] and the
    policy loss is [-(1 / n^2)] times the sum, over all pairs of a ratio and an
    advantage, of [min (r * adv) (clip r (1 - epsilon) (1 + epsilon) * adv)].
    This is not the average over the pairs that share their index: on a batch
    of two with ratios [1.5; 1] and advantages [2; -1] the two differ. *)
Theorem discrete_policy_loss_averages_all_pairs
    (n : nat) (lr : R) (brain : BrainParameters) (n_hidden : nat)
    (epsilon beta max_step : R) (w : Run.discrete_variables) (fd : Run.discrete_feed) :
  Run.discrete_shapes n n_hidden (Z.to_nat (action_space_size brain)) w fd ->
  (exists ops ratios advantages,
     Run.DiscreteControlModel lr brain n_hidden epsilon beta max_step w fd = Some ops /\
     Run.is_vector n (Run.d_responsible_probs ops) /\
     Run.is_vector n (Run.d_old_responsible_probs ops) /\
     Run.div (Run.d_responsible_probs ops) (Run.d_old_responsible_probs ops) =
       Some (Run.T1 ratios) /\
     Run.r_theta (Run.d_ppo ops) = Run.T1 ratios /\ length ratios = n /\
     Run.advantage (Run.d_ppo_feed fd) = Run.T2 (map (fun a => [a]) advantages) /\
     length advantages = n /\
     Run.is_matrix n n (Run.surrogate (Run.d_ppo ops)) /\
     Run.policy_loss (Run.d_ppo ops) =
       (- (1 / (INR n * INR n)) * Run.sum_all_pairs epsilon ratios advantages)%R) /\
  (exists ops,
     Run.create_ppo_optimizer Examples.probs Examples.old_probs Examples.value
       Examples.entropy 1e-3 0.2 1e-4 5e6 Examples.feed = Some ops /\
     Run.r_theta ops = Run.T1 [0.9 / 0.6; 0.5 / 0.5]%R /\
     Run.advantage Examples.feed = Run.T2 [[2]; [-1]]%R /\
     Run.policy_loss ops =
       (- (1 / (INR 2 * INR 2))
        * Run.sum_all_pairs 0.2 [0.9 / 0.6; 0.5 / 0.5] [2; -1])%R /\
     Run.policy_loss ops <>
       (- (1 / INR 2) * Run.sum_same_index 0.2 [0.9 / 0.6; 0.5 / 0.5] [2; -1])%R).
Proof.
  intros Hshapes. split.
  - destruct (DiscreteControlModel_evaluates n lr brain n_hidden epsilon beta max_step
                w fd Hshapes)
      as (ops & ratios & advantages & Hrun & Hresp & Hold & Hdiv & Hr & Hlen & Hadv &
          Hlen' & Hs & Hloss).
    exists ops, ratios, advantages. repeat (split; [assumption|]).
    split; [|exact Hloss]. rewrite Hs. apply matrix_intro.
    + rewrite length_map. exact Hlen'.
    + apply Forall_map, Forall_forall. intros a _. simpl.
      rewrite length_map. exact Hlen.
  - destruct (create_ppo_optimizer_vector 2 Examples.probs Examples.old_probs
                Examples.value Examples.entropy 1e-3 0.2 1e-4 5e6 Examples.feed)
      as (ops & ratios & advantages & Hrun & Hdiv & Hr & _ & Hadv & _ & _ & Hloss);
      try reflexivity.
    assert (Hratios : Run.div Examples.probs Examples.old_probs =
                      Some (Run.T1 [0.9 / 0.6; 0.5 / 0.5]%R)) by reflexivity.
    rewrite Hratios in Hdiv. injection Hdiv as <-.
    change (Run.T2 [[2]; [-1]]%R = Run.T2 (map (fun a => [a]) advantages)) in Hadv.
    injection Hadv as Hadv.
    destruct advantages as [|a [|b [|]]]; try discriminate. injection Hadv as <- <-.
    exists ops. split; [exact Hrun|]. split; [exact Hr|]. split; [reflexivity|].
    split; [exact Hloss|].
    rewrite Hloss, example_sum_all_pairs, example_sum_same_index. simpl INR. lra.
Qed.

Lemma discrete_policy_loss_averages_all_pairs_witness :
  exists ops ratios,
    Run.DiscreteControlModel 1e-4 Examples.small_discrete 1 0.2 1e-3 5e6
      Examples.discrete_variables Examples.discrete_feed = Some ops /\
    Run.r_theta (Run.d_ppo ops) = Run.T1 ratios /\ length ratios = 2%nat /\
    Run.is_matrix 2 2 (Run.surrogate (Run.d_ppo ops)) /\
    Run.policy_loss (Run.d_ppo ops) =
      (- (1 / (INR 2 * INR 2)) * Run.sum_all_pairs 0.2 ratios [2; -1])%R.
Proof.
  destruct (discrete_policy_loss_averages_all_pairs 2 1e-4 Examples.small_discrete 1
              0.2 1e-3 5e6 Examples.discrete_variables Examples.discrete_feed)
    as [(ops & ratios & advantages & Hrun & _ & _ & _ & Hr & Hlen & Hadv & _ & Hs &
         Hloss) _]; [repeat split; reflexivity|].
  change (Run.T2 [[2]; [-1]]%R = Run.T2 (map (fun a => [a]) advantages)) in Hadv.
  injection Hadv as Hadv.
  destruct advantages as [|a [|b [|]]]; try discriminate. injection Hadv as <- <-.
  exists ops, ratios. auto.
Defined.

(** * Further properties of graph construction *)

(** X1.  [create_agent_model] looks the brain up before anything else: an
    environment without brain names raises [IndexError], and a first name
    that is not a key of [brains] raises [KeyError] with that name. *)
Theorem create_agent_model_lookup_errors
    (env : UnityEnvironment) (lr : R) (h_size : Z) (epsilon beta max_step : R) :
  (brain_names env = [] ->
   Build.create_agent_model env lr h_size epsilon beta max_step = Raise IndexError) /\
  (forall name rest,
     brain_names env = name :: rest ->
     brains env !! name = None ->
     Build.create_agent_model env lr h_size epsilon beta max_step =
       Raise (KeyError name)).
Proof.
  unfold Build.create_agent_model, getitem. split.
  - intros ->. reflexivity.
  - intros name rest -> Hnone. simpl. rewrite Hnone. reflexivity.
Qed.

Lemma create_agent_model_lookup_errors_witness :
  Build.create_agent_model {| brain_names := []; brains := ∅ |} 1e-4 128 0.2 1e-3 5e6 =
    Raise IndexError /\
  Build.create_agent_model {| brain_names := ["Ball"%string]; brains := ∅ |}
      1e-4 128 0.2 1e-3 5e6 = Raise (KeyError "Ball").
Proof.
  destruct (create_agent_model_lookup_errors {| brain_names := []; brains := ∅ |}
              1e-4 128 0.2 1e-3 5e6) as [Hempty _].
  destruct (create_agent_model_lookup_errors
              {| brain_names := ["Ball"%string]; brains := ∅ |} 1e-4 128 0.2 1e-3 5e6)
    as [_ Hmissing].
  split; [apply Hempty | apply (Hmissing "Ball"%string [])]; reflexivity.
Defined.

(** X2.  Only the first brain counts: two environments whose first brain
    name is the same and is bound to the same brain give the same result,
    whatever their other names and brains. *)
Theorem create_agent_model_first_brain_only
    (env env' : UnityEnvironment) (name : string) (rest rest' : list string)
    (brain : BrainParameters) (lr : R) (h_size : Z) (epsilon beta max_step : R) :
  brain_names env = name :: rest ->
  brain_names env' = name :: rest' ->
  brains env !! name = Some brain ->
  brains env' !! name = Some brain ->
  Build.create_agent_model env lr h_size epsilon beta max_step =
  Build.create_agent_model env' lr h_size epsilon beta max_step.
Proof.
  intros Hnames Hnames' Hbrain Hbrain'.
  rewrite (create_agent_model_brain _ _ _ _ _ env name rest brain Hnames Hbrain).
  rewrite (create_agent_model_brain _ _ _ _ _ env' name rest' brain Hnames' Hbrain').
  reflexivity.
Qed.

Lemma create_agent_model_first_brain_only_witness :
  Build.create_agent_model (Examples.env_of Examples.hybrid) 1e-4 128 0.2 1e-3 5e6 =
  Build.create_agent_model
    {| brain_names := ["Brain"; "Other"]%string;
       brains := <["Other"%string := Examples.discrete_blind]>
                   {["Brain"%string := Examples.hybrid]} |}
    1e-4 128 0.2 1e-3 5e6.
Proof.
  apply (create_agent_model_first_brain_only _ _ "Brain" [] ["Other"%string]
           Examples.hybrid); reflexivity.
Defined.

Lemma DiscreteControlModel_no_camera lr brain h_size epsilon beta max_step :
  0 < number_observations brain ->
  camera_resolutions brain = [] ->
  Build.DiscreteControlModel lr brain h_size epsilon beta max_step = Raise IndexError.
Proof.
  intros Hobs Hcams. unfold Build.DiscreteControlModel.
  destruct (Z.ltb_spec 0 (number_observations brain)); [|lia].
  rewrite Hcams. reflexivity.
Qed.

Lemma DiscreteControlModel_no_height lr brain h_size epsilon beta max_step cam rest :
  0 < number_observations brain ->
  camera_resolutions brain = cam :: rest ->
  cam !! "height"%string = None ->
  Build.DiscreteControlModel lr brain h_size epsilon beta max_step =
    Raise (KeyError "height").
Proof.
  intros Hobs Hcams Hheight. unfold Build.DiscreteControlModel, getitem.
  destruct (Z.ltb_spec 0 (number_observations brain)); [|lia].
  rewrite Hcams. simpl. rewrite Hheight. reflexivity.
Qed.

Lemma DiscreteControlModel_state_only lr brain h_size epsilon beta max_step :
  number_observations brain <= 0 ->
  0 < state_space_size brain ->
  Build.DiscreteControlModel lr brain h_size epsilon beta max_step =
    let '(self, hidden_state) :=
      if (state_space_type brain =? "continuous")%string then
        Build.create_continuous_state_encoder Build.new_PPOModel
          (state_space_size brain) h_size
      else
        Build.create_discrete_state_encoder Build.new_PPOModel
          (state_space_size brain) h_size in
    Ok {| Build.d_self := self; Build.d_h_size := h_size;
          Build.d_hidden_visual := None;
          Build.d_hidden_state := Some hidden_state; Build.d_hidden := hidden_state;
          Build.d_batch_size :=
            Build.placeholder None Build.int32 (Some "batch_size"%string);
          Build.d_policy :=
            Build.dense hidden_state (action_space_size brain) None false
                        (Build.variance_scaling_initializer 0.1);
          Build.d_value :=
            Build.dense hidden_state 1 None false Build.default_initializer;
          Build.d_action_holder := Build.placeholder (Some [None]) Build.int32 None;
          Build.d_old_probs :=
            Build.placeholder (Some [None; Some (action_space_size brain)])
                              Build.float32 (Some "old_probabilities"%string);
          Build.d_ppo := {| Build.arg_beta := beta; Build.arg_epsilon := epsilon;
                            Build.arg_lr := lr; Build.arg_max_step := max_step |} |}.
Proof.
  intros Hobs Hstate. unfold Build.DiscreteControlModel.
  destruct (Z.ltb_spec 0 (number_observations brain)); [lia|].
  destruct (Z.ltb_spec 0 (state_space_size brain)); [|lia].
  destruct (state_space_type brain =? "continuous")%string; reflexivity.
Qed.

Lemma DiscreteControlModel_builds_with_camera lr brain h_size epsilon beta max_step
    cam rest height :
  0 < number_observations brain ->
  camera_resolutions brain = cam :: rest ->
  cam !! "height"%string = Some height ->
  7 <= height ->
  exists m, Build.DiscreteControlModel lr brain h_size epsilon beta max_step = Ok m.
Proof.
  intros Hobs Hcams Hheight Hfits.
  rewrite (DiscreteControlModel_visual lr epsilon beta max_step h_size brain cam rest
             height Hobs Hcams Hheight).
  rewrite (create_visual_encoder_fits _ _ _ _ Hfits Hfits). cbv zeta. cbn [bind].
  destruct (0 <? state_space_size brain);
    [destruct (state_space_type brain =? "continuous")%string|];
    simpl; eexists; reflexivity.
Qed.

Lemma DiscreteControlModel_builds_with_state lr brain h_size epsilon beta max_step :
  number_observations brain <= 0 ->
  0 < state_space_size brain ->
  exists m, Build.DiscreteControlModel lr brain h_size epsilon beta max_step = Ok m.
Proof.
  intros Hobs Hstate. rewrite DiscreteControlModel_state_only by assumption.
  destruct (state_space_type brain =? "continuous")%string; simpl; eexists; reflexivity.
Qed.

(** Settle the equivalences between an outcome that is known and the
    conditions on the brain. *)
Ltac outcome_cases :=
  (split; [|split; [|split; [|split]]]); split;
  (let H := fresh "H" in
   intros H;
   repeat (destruct_or?; destruct_and?;
           try match goal with
               | Hex : exists _, _ |- _ => destruct Hex
               end);
   repeat match goal with
          | H1 : ?l = _ :: _, H2 : ?l = _ :: _ |- _ =>
              rewrite H1 in H2; injection H2 as -> ->
          | H1 : ?c !! ?k = Some _, H2 : ?c !! ?k = Some _ |- _ =>
              rewrite H1 in H2; injection H2 as ->
          end;
   first [congruence | lia | eauto 10]).

(** X3.  The outcome of the discrete-control constructor, case by case, for
    a positive number of actions and a positive [h_size] (the widths of the
    layers it declares; other widths are left out).  It builds a model
    exactly when the brain has observations and its first camera has a
    "height" of at least 7, or has no observation but a vector state.  With
    observations, an empty camera list raises [IndexError], a first camera
    without "height" raises [KeyError] and a first camera lower than 7 pixels
    raises [ValueError] (the convolutions do not fit), whether or not there
    is a vector state; without observations and without state it raises the
    "no valid network" exception. *)
Theorem DiscreteControlModel_outcomes
    (lr : R) (brain : BrainParameters) (h_size : Z) (epsilon beta max_step : R) :
  0 < action_space_size brain ->
  0 < h_size ->
  let built := Build.DiscreteControlModel lr brain h_size epsilon beta max_step in
  ((exists m, built = Ok m) <->
   (0 < number_observations brain /\
    exists cam rest height,
      camera_resolutions brain = cam :: rest /\
      cam !! "height"%string = Some height /\ 7 <= height) \/
   (number_observations brain <= 0 /\ 0 < state_space_size brain)) /\
  (built = Raise IndexError <->
   0 < number_observations brain /\ camera_resolutions brain = []) /\
  (built = Raise (KeyError "height") <->
   0 < number_observations brain /\
   exists cam rest,
     camera_resolutions brain = cam :: rest /\ cam !! "height"%string = None) /\
  (built = Raise ValueError <->
   0 < number_observations brain /\
   exists cam rest height,
     camera_resolutions brain = cam :: rest /\
     cam !! "height"%string = Some height /\ height < 7) /\
  (built = Raise (Exception Build.no_valid_network) <->
   number_observations brain <= 0 /\ state_space_size brain <= 0).
Proof.
  intros _ _ built. subst built.
  assert (Hcases :
    (0 < number_observations brain /\ camera_resolutions brain = []) \/
    (0 < number_observations brain /\
     exists cam rest, camera_resolutions brain = cam :: rest /\
                      cam !! "height"%string = None) \/
    (0 < number_observations brain /\
     exists cam rest height, camera_resolutions brain = cam :: rest /\
                             cam !! "height"%string = Some height /\ 7 <= height) \/
    (0 < number_observations brain /\
     exists cam rest height, camera_resolutions brain = cam :: rest /\
                             cam !! "height"%string = Some height /\ height < 7) \/
    (number_observations brain <= 0 /\ 0 < state_space_size brain) \/
    (number_observations brain <= 0 /\ state_space_size brain <= 0)).
  { destruct (Z.lt_ge_cases 0 (number_observations brain)) as [Hobs|Hobs].
    - destruct (camera_resolutions brain) as [|cam rest]; [auto|].
      destruct (cam !! "height"%string) as [height|] eqn:Hheight.
      + destruct (Z.lt_ge_cases height 7) as [Hsmall|Hfits].
        * do 3 right. left. split; [exact Hobs|]. exists cam, rest, height. auto.
        * right. right. left. split; [exact Hobs|]. exists cam, rest, height. auto.
      + right. left. split; [exact Hobs|]. exists cam, rest. auto.
    - destruct (Z.lt_ge_cases 0 (state_space_size brain)); [do 4 right; left|
                                                             do 5 right]; lia. }
  destruct Hcases as [[Hobs Hcams]|[(Hobs & cam & rest & Hcams & Hheight)|
                      [(Hobs & cam & rest & height & Hcams & Hheight & Hfits)|
                       [(Hobs & cam & rest & height & Hcams & Hheight & Hsmall)|
                        [[Hobs Hstate]|[Hobs Hstate]]]]]].
  - rewrite (DiscreteControlModel_no_camera _ _ _ _ _ _ Hobs Hcams).
    outcome_cases.
  - rewrite (DiscreteControlModel_no_height _ _ _ _ _ _ _ _ Hobs Hcams Hheight).
    outcome_cases.
  - destruct (DiscreteControlModel_builds_with_camera lr brain h_size epsilon beta
                max_step cam rest height Hobs Hcams Hheight Hfits) as [m E].
    rewrite E. outcome_cases.
  - rewrite (DiscreteControlModel_small_camera lr epsilon beta max_step h_size brain
               cam rest height Hobs Hcams Hheight Hsmall).
    outcome_cases.
  - destruct (DiscreteControlModel_builds_with_state lr brain h_size epsilon beta
                max_step Hobs Hstate) as [m E].
    rewrite E. outcome_cases.
  - rewrite DiscreteControlModel_no_input by assumption.
    outcome_cases.
Qed.

Lemma DiscreteControlModel_outcomes_witness :
  (exists m, Build.DiscreteControlModel 1e-4 Examples.discrete_visual 128 0.2 1e-3 5e6
             = Ok m) /\
  Build.DiscreteControlModel 1e-4 Examples.discrete_tiny_camera 128 0.2 1e-3 5e6 =
    Raise ValueError.
Proof.
  destruct (DiscreteControlModel_outcomes 1e-4 Examples.discrete_visual 128 0.2 1e-3
              5e6) as (Hbuilt & _); [simpl; lia | lia |].
  destruct (DiscreteControlModel_outcomes 1e-4 Examples.discrete_tiny_camera 128 0.2
              1e-3 5e6) as (_ & _ & _ & Hvalue & _); [simpl; lia | lia |].
  split.
  - apply Hbuilt. left. split; [simpl; lia|].
    exists (Examples.camera 84 64), [], 84.
    split; [reflexivity|]. split; [reflexivity|lia].
  - apply Hvalue. split; [simpl; lia|].
    exists (Examples.camera 6 84), [], 6.
    split; [reflexivity|]. split; [reflexivity|lia].
Defined.

Lemma DiscreteControlModel_Ok_inv lr brain h_size epsilon beta max_step m :
  Build.DiscreteControlModel lr brain h_size epsilon beta max_step = Ok m ->
  (0 < number_observations brain /\
   exists cam rest height,
     camera_resolutions brain = cam :: rest /\
     cam !! "height"%string = Some height /\ 7 <= height) \/
  (number_observations brain <= 0 /\ 0 < state_space_size brain).
Proof.
  intros Hok.
  destruct (Z.lt_ge_cases 0 (number_observations brain)) as [Hobs|Hobs].
  - left. split; [exact Hobs|].
    destruct (camera_resolutions brain) as [|cam rest] eqn:Hcams.
    + rewrite (DiscreteControlModel_no_camera _ _ _ _ _ _ Hobs Hcams) in Hok.
      discriminate.
    + destruct (cam !! "height"%string) as [height|] eqn:Hheight.
      * destruct (Z.lt_ge_cases height 7) as [Hsmall|Hfits]; [|eauto 10].
        rewrite (DiscreteControlModel_small_camera lr epsilon beta max_step h_size
                   brain cam rest height Hobs Hcams Hheight Hsmall) in Hok.
        discriminate.
      * rewrite (DiscreteControlModel_no_height _ _ _ _ _ _ _ _ Hobs Hcams Hheight)
          in Hok.
        discriminate.
  - right. split; [lia|].
    destruct (Z.lt_ge_cases 0 (state_space_size brain)) as [Hstate|Hstate];
      [exact Hstate|].
    rewrite DiscreteControlModel_no_input in Hok by lia. discriminate.
Qed.

(** X4.  Without camera observations the discrete-control constructor never
    reads the cameras and keeps the configured [h_size]: for a brain with a
    vector state it builds a model whose latent is the state encoder alone,
    with every dense layer of width [h_size] and no observation placeholder,
    and the model is the same for any list of cameras. *)
Theorem discrete_state_only_uses_h_size
    (lr : R) (brain : BrainParameters) (h_size : Z) (epsilon beta max_step : R) :
  number_observations brain <= 0 ->
  0 < state_space_size brain ->
  exists m hs,
    Build.DiscreteControlModel lr brain h_size epsilon beta max_step = Ok m /\
    Build.d_h_size m = h_size /\
    Build.d_hidden_visual m = None /\
    Build.observation_in (Build.d_self m) = None /\
    Build.d_hidden_state m = Some hs /\
    Build.d_hidden m = hs /\
    Build.dense_units hs <> [] /\
    Forall (eq h_size) (Build.dense_units hs) /\
    forall cams,
      Build.DiscreteControlModel lr (Build.with_cameras brain cams) h_size epsilon beta
                                 max_step = Ok m.
Proof.
  intros Hobs Hstate.
  pose proof (DiscreteControlModel_state_only lr brain h_size epsilon beta max_step
                Hobs Hstate) as E.
  assert (Hsame : forall cams,
             Build.DiscreteControlModel lr (Build.with_cameras brain cams) h_size
                                        epsilon beta max_step =
             Build.DiscreteControlModel lr brain h_size epsilon beta max_step).
  { intros cams. rewrite E.
    exact (DiscreteControlModel_state_only lr (Build.with_cameras brain cams) h_size
             epsilon beta max_step Hobs Hstate). }
  destruct (state_space_type brain =? "continuous")%string; simpl in E;
    (eexists; eexists; split; [exact E|]); simpl;
    repeat (split; [first [reflexivity | discriminate | repeat constructor]|]);
    intros cams; rewrite <- E; apply Hsame.
Qed.

Lemma discrete_state_only_uses_h_size_witness :
  exists m hs,
    Build.DiscreteControlModel 1e-4 (Examples.brain_of "discrete" 8 0 []) 128
                               0.2 1e-3 5e6 = Ok m /\
    Build.d_hidden_state m = Some hs /\
    Build.dense_units hs = [128; 128].
Proof.
  destruct (discrete_state_only_uses_h_size 1e-4 (Examples.brain_of "discrete" 8 0 [])
              128 0.2 1e-3 5e6) as (m & hs & Hm & _ & _ & _ & Hhs & _);
    [simpl; lia | simpl; lia |].
  exists m, hs. split; [exact Hm|]. split; [exact Hhs|].
  rewrite DiscreteControlModel_state_only in Hm by (simpl; lia).
  simpl in Hm. injection Hm as <-. simpl in Hhs. injection Hhs as <-. reflexivity.
Defined.

(** X5.  A model the discrete-control constructor builds has an attribute
    for exactly the inputs the brain has: [observation_in] (and the two
    convolutions) when there are observations, [state_in] when there is a
    vector state.  The state placeholder is a float32 batch of width
    [state_space_size] when [state_space_type] is "continuous", and an int32
    batch of width 1 for every other type string.  The latent fed to the heads
    is the one encoder present, or their concatenation along axis 1. *)
Theorem discrete_attributes_follow_inputs
    (lr : R) (brain : BrainParameters) (h_size : Z) (epsilon beta max_step : R)
    (m : Build.DiscreteControlModel_t) :
  Build.DiscreteControlModel lr brain h_size epsilon beta max_step = Ok m ->
  (is_Some (Build.observation_in (Build.d_self m)) <-> 0 < number_observations brain) /\
  (is_Some (Build.conv1 (Build.d_self m)) <-> 0 < number_observations brain) /\
  (is_Some (Build.conv2 (Build.d_self m)) <-> 0 < number_observations brain) /\
  (is_Some (Build.d_hidden_visual m) <-> 0 < number_observations brain) /\
  (is_Some (Build.d_hidden_state m) <-> 0 < state_space_size brain) /\
  Build.state_in (Build.d_self m) =
    (if 0 <? state_space_size brain then
       if (state_space_type brain =? "continuous")%string then
         Some (Build.placeholder (Some [None; Some (state_space_size brain)])
                                 Build.float32 (Some "state"%string))
       else
         Some (Build.placeholder (Some [None; Some 1]) Build.int32
                                 (Some "state"%string))
     else None) /\
  Build.d_hidden m =
    match Build.d_hidden_visual m, Build.d_hidden_state m with
    | Some hv, Some hs => Build.concat hv hs 1
    | Some hv, None => hv
    | None, Some hs => hs
    | None, None => Build.d_hidden m
    end /\
  (exists input, Build.d_policy m =
                 Build.dense input (action_space_size brain) None false
                             (Build.variance_scaling_initializer 0.1) /\
                 Build.d_value m =
                 Build.dense input 1 None false Build.default_initializer /\
                 input = Build.d_hidden m).
Proof.
  intros Hok.
  destruct (DiscreteControlModel_Ok_inv _ _ _ _ _ _ _ Hok)
    as [(Hobs & cam & rest & height & Hcams & Hheight & Hfits)|[Hobs Hstate]].
  - rewrite (DiscreteControlModel_visual lr epsilon beta max_step h_size brain cam rest
               height Hobs Hcams Hheight) in Hok.
    rewrite (create_visual_encoder_fits _ _ _ _ Hfits Hfits) in Hok.
    cbv zeta in Hok. cbn [bind] in Hok.
    destruct (Z.ltb_spec 0 (state_space_size brain)) as [Hstate|Hstate];
      [destruct (state_space_type brain =? "continuous")%string|];
      simpl in Hok; injection Hok as <-; simpl;
      repeat (split; [first [reflexivity
                            | split; [intros _; assumption | intros _; eexists; reflexivity]
                            | split; [intros [? [=]] | intros; lia]]|]);
      eexists; repeat split; reflexivity.
  - rewrite DiscreteControlModel_state_only in Hok by assumption.
    destruct (Z.ltb_spec 0 (state_space_size brain)); [|lia].
    destruct (state_space_type brain =? "continuous")%string;
      simpl in Hok; injection Hok as <-; simpl;
      repeat (split; [first [reflexivity
                            | split; [intros _; assumption | intros _; eexists; reflexivity]
                            | split; [intros [? [=]] | intros; lia]]|]);
      eexists; repeat split; reflexivity.
Qed.

Lemma discrete_attributes_follow_inputs_witness :
  exists m,
    Build.DiscreteControlModel 1e-4
      {| action_space_type := "discrete"; action_space_size := 4;
         state_space_type := "one-hot"; state_space_size := 5;
         number_observations := 0; camera_resolutions := [] |}
      128 0.2 1e-3 5e6 = Ok m /\
    Build.state_in (Build.d_self m) =
      Some (Build.placeholder (Some [None; Some 1]) Build.int32 (Some "state"%string)) /\
    Build.observation_in (Build.d_self m) = None.
Proof.
  eexists. split; [reflexivity|].
  match goal with
  | |- Build.state_in (Build.d_self ?m) = _ /\ _ =>
      destruct (discrete_attributes_follow_inputs 1e-4
                  {| action_space_type := "discrete"; action_space_size := 4;
                     state_space_type := "one-hot"; state_space_size := 5;
                     number_observations := 0; camera_resolutions := [] |}
                  128 0.2 1e-3 5e6 m eq_refl) as (_ & _ & _ & _ & _ & Hstate & _)
  end.
  split; [exact Hstate | reflexivity].
Defined.

(** * Checkpoints and export *)

Lemma list_ascii_of_string_app (s t : string) :
  list_ascii_of_string (s +:+ t) = list_ascii_of_string s ++ list_ascii_of_string t.
Proof. induction s as [|c s IH]; [reflexivity|]. simpl. rewrite IH. reflexivity. Qed.

Lemma list_ascii_of_string_inj (s t : string) :
  list_ascii_of_string s = list_ascii_of_string t -> s = t.
Proof.
  intros H. rewrite <- (string_of_list_ascii_of_string s),
              <- (string_of_list_ascii_of_string t), H.
  reflexivity.
Qed.

Lemma string_app_inv_tail (s s' t : string) : s +:+ t = s' +:+ t -> s = s'.
Proof.
  intros H. apply list_ascii_of_string_inj.
  apply (f_equal list_ascii_of_string) in H.
  rewrite !list_ascii_of_string_app in H. exact (app_inv_tail _ _ _ H).
Qed.

Lemma last_char_app (s t : string) :
  t <> ""%string -> Files.last_char (s +:+ t) = Files.last_char t.
Proof.
  intros Ht. induction s as [|c s IH]; [reflexivity|].
  simpl. destruct (s +:+ t) eqn:Hst; [|exact IH].
  destruct s; simpl in Hst; [contradiction|discriminate].
Qed.

(** X6.  [save_model] names one checkpoint per step count: with the same
    [model_path], two calls hand the same path to the saver only when their
    step counts are equal, so a later step never overwrites an earlier
    checkpoint. *)
Theorem save_model_checkpoint_per_step (model_path path : string) (steps steps' : Z) :
  In (Files.saver_save path) (Files.save_model model_path steps) ->
  In (Files.saver_save path) (Files.save_model model_path steps') ->
  steps = steps'.
Proof.
  unfold Files.save_model, In.
  intros [H1|[H1|[H1|[]]]] [H2|[H2|[H2|[]]]];
    try discriminate H1; try discriminate H2.
  injection H1 as <-. injection H2 as H2.
  apply string_app_inv_tail in H2.
  apply String.app_inj in H2. apply pretty_Z_inj in H2. symmetry. exact H2.
Qed.

Lemma save_model_checkpoint_per_step_witness :
  In (Files.saver_save "./models/model-250.cptk") (Files.save_model "./models" 250) /\
  250 = 250.
Proof.
  assert (H : In (Files.saver_save "./models/model-250.cptk")
                 (Files.save_model "./models" 250))
    by (left; vm_compute; reflexivity).
  split; [exact H|].
  exact (save_model_checkpoint_per_step "./models" "./models/model-250.cptk" 250 250
           H H).
Defined.

(** X7.  [export_graph] fails with [AttributeError] exactly when the
    directory has no checkpoint state; otherwise it makes a single call, to
    [freeze_graph], with the checkpoint the directory reports, the requested
    output nodes, and as input the binary graph file that [save_model], called
    on the same [model_path], asks [write_graph] to write: its directory
    followed by "/" and its file name. *)
Theorem export_graph_reads_saved_graph
    (get_checkpoint_state : string -> option Files.CheckpointState)
    (model_path env_name target_nodes : string) :
  (Files.export_graph get_checkpoint_state model_path env_name target_nodes =
     Files.AttributeError <-> get_checkpoint_state model_path = None) /\
  (forall ckpt,
     get_checkpoint_state model_path = Some ckpt ->
     exists input output,
       Files.export_graph get_checkpoint_state model_path env_name target_nodes =
         Files.Done [Files.freeze_graph input true (Files.model_checkpoint_path ckpt)
                       target_nodes output true "" "" "save/restore_all"
                       "save/Const:0"] /\
       forall steps logdir name as_text,
         In (Files.write_graph logdir name as_text) (Files.save_model model_path steps) ->
         input = ((logdir +:+ "/") +:+ name)%string /\ as_text = false).
Proof.
  unfold Files.export_graph. split.
  - destruct (get_checkpoint_state model_path); split; congruence.
  - intros ckpt ->. eexists. eexists. split; [reflexivity|].
    intros steps logdir name as_text [[=]|[[= <- <- <-]|[[=]|[]]]].
    split; [|reflexivity].
    apply list_ascii_of_string_inj. rewrite !list_ascii_of_string_app.
    rewrite <- app_assoc. reflexivity.
Qed.

Lemma export_graph_reads_saved_graph_witness :
  Files.export_graph (fun _ => None) "./models" "env" "action" = Files.AttributeError /\
  exists input output,
    Files.export_graph
      (fun _ => Some {| Files.model_checkpoint_path := "./models/model-250.cptk" |})
      "./models" "env" "action" =
      Files.Done [Files.freeze_graph input true "./models/model-250.cptk" "action"
                    output true "" "" "save/restore_all" "save/Const:0"] /\
    input = "./models/raw_graph_def.pb"%string.
Proof.
  split.
  - apply (export_graph_reads_saved_graph (fun _ => None) "./models" "env" "action").
    reflexivity.
  - destruct (export_graph_reads_saved_graph
                (fun _ => Some {| Files.model_checkpoint_path :=
                                    "./models/model-250.cptk" |})
                "./models" "env" "action") as [_ H].
    destruct (H {| Files.model_checkpoint_path := "./models/model-250.cptk" |} eq_refl)
      as (input & output & Hrun & Hinput).
    exists input, output. split; [exact Hrun|].
    destruct (Hinput 0 "./models"%string "raw_graph_def.pb"%string false) as [-> _];
      [right; left; reflexivity | reflexivity].
Defined.

(** X8.  The file [export_graph] writes is [model_path/env_name.bytes]: its
    name always ends in ".bytes", so it is never the graph file it reads
    (".pb"), and never a path that [save_model] hands to the saver (".cptk"),
    whatever the directories, the environment name and the step count. *)
Theorem export_graph_never_overwrites
    (get_checkpoint_state : string -> option Files.CheckpointState)
    (model_path env_name target_nodes : string) (calls : list Files.call)
    (input ckpt nodes output init saver restore filename : string)
    (binary clear : bool) :
  Files.export_graph get_checkpoint_state model_path env_name target_nodes =
    Files.Done calls ->
  In (Files.freeze_graph input binary ckpt nodes output clear init saver restore
                         filename) calls ->
  output = (((model_path +:+ "/") +:+ env_name) +:+ ".bytes")%string /\
  output <> input /\
  forall model_path' steps, ~ In (Files.saver_save output)
                                 (Files.save_model model_path' steps).
Proof.
  unfold Files.export_graph.
  destruct (get_checkpoint_state model_path) as [state|]; [|discriminate].
  intros [= <-] [[= <- _ _ _ <- _ _ _ _ _]|[]].
  assert (Hlast : Files.last_char (((model_path +:+ "/") +:+ env_name) +:+ ".bytes")
                  = Some "s"%char) by (rewrite last_char_app; [reflexivity|discriminate]).
  split; [reflexivity|]. split.
  - intros Heq. rewrite Heq in Hlast.
    rewrite last_char_app in Hlast by discriminate. discriminate.
  - intros model_path' steps [[= Heq]|[[=]|[[=]|[]]]].
    rewrite <- Heq in Hlast. rewrite last_char_app in Hlast by discriminate.
    discriminate.
Qed.

Lemma export_graph_never_overwrites_witness :
  "./models/env.bytes"%string = ((("./models" +:+ "/") +:+ "env") +:+ ".bytes")%string /\
  "./models/env.bytes"%string <> "./models/raw_graph_def.pb"%string /\
  ~ In (Files.saver_save "./models/env.bytes") (Files.save_model "./models" 250).
Proof.
  cut ("./models/env.bytes"%string =
         ((("./models" +:+ "/") +:+ "env") +:+ ".bytes")%string /\
       "./models/env.bytes"%string <> "./models/raw_graph_def.pb"%string /\
       forall model_path' steps,
         ~ In (Files.saver_save "./models/env.bytes")
              (Files.save_model model_path' steps)).
  { intros (Hname & Hinput & Hsaver).
    split; [exact Hname|]. split; [exact Hinput|]. apply Hsaver. }
  apply (export_graph_never_overwrites
           (fun _ => Some {| Files.model_checkpoint_path := "./models/model-250.cptk" |})
           "./models" "env" "action"
           [Files.freeze_graph "./models/raw_graph_def.pb" true
              "./models/model-250.cptk" "action" "./models/env.bytes" true "" ""
              "save/restore_all" "save/Const:0"]
           "./models/raw_graph_def.pb" "./models/model-250.cptk" "action"
           "./models/env.bytes" "" "" "save/restore_all" "save/Const:0" true true);
    [reflexivity | left; reflexivity].
Defined.

(** * Further properties of the PPO objective *)

Lemma surrogate_entry probs old_probs value entropy beta epsilon lr max_step fd ops
    i j s :
  Run.create_ppo_optimizer probs old_probs value entropy beta epsilon lr max_step fd =
    Some ops ->
  Run.entry (Run.surrogate ops) i j = Some s ->
  exists r adv,
    Run.entry (Run.r_theta ops) i j = Some r /\
    Run.entry (Run.advantage fd) i j = Some adv /\
    s = Run.surrogate_term epsilon r adv.
Proof.
  intros Hrun Hentry.
  destruct (create_ppo_optimizer_inv _ _ _ _ _ _ _ _ _ _ Hrun)
    as (a & b & _ & _ & _ & Ha & Hb & Hs & _).
  destruct (binop_entry _ _ _ _ _ _ _ Hs Hentry) as (xa & xb & Hxa & Hxb & ->).
  destruct (binop_entry _ _ _ _ _ _ _ Ha Hxa) as (r & adv & Hr & Hadv & ->).
  destruct (binop_entry _ _ _ _ _ _ _ Hb Hxb) as (c & adv' & Hc & Hadv' & ->).
  unfold Run.clip_by_value in Hc. rewrite entry_map_tensor, Hr in Hc.
  injection Hc as <-. rewrite Hadv in Hadv'. injection Hadv' as <-.
  exists r, adv. auto.
Qed.

Lemma clip_within (lo hi x : R) :
  (lo <= hi)%R -> (lo <= Run.clip lo hi x <= hi)%R.
Proof.
  intros Hle. unfold Run.clip, Rmax, Rmin.
  destruct (Rle_dec x hi); destruct (Rle_dec _ lo); lra.
Qed.

Lemma clip_inside (lo hi x : R) :
  (lo <= x <= hi)%R -> Run.clip lo hi x = x.
Proof.
  intros Hx. unfold Run.clip, Rmax, Rmin.
  destruct (Rle_dec x hi); destruct (Rle_dec _ lo); lra.
Qed.

Lemma clip_below (lo hi x : R) :
  (lo <= hi)%R -> (x <= lo)%R -> Run.clip lo hi x = lo.
Proof.
  intros Hle Hx. unfold Run.clip, Rmax, Rmin.
  destruct (Rle_dec x hi); destruct (Rle_dec _ lo); lra.
Qed.

Lemma clip_at_least (lo hi x : R) :
  (x <= hi)%R -> (x <= Run.clip lo hi x)%R.
Proof.
  intros Hx. unfold Run.clip, Rmax, Rmin.
  destruct (Rle_dec x hi); destruct (Rle_dec _ lo); lra.
Qed.

Lemma clip_at_most (lo hi x : R) :
  (lo <= hi)%R -> (lo <= x)%R -> (Run.clip lo hi x <= x)%R.
Proof.
  intros Hle Hx. unfold Run.clip, Rmax, Rmin.
  destruct (Rle_dec x hi); destruct (Rle_dec _ lo); lra.
Qed.

(** X9.  Every entry of the tensor under the mean of the policy loss is at
    most the unclipped term [r * advantage].  For a clip threshold
    [0 <= epsilon] it is the unclipped term whenever clipping would make the
    objective larger (the advantage is not negative and [r <= 1 + epsilon],
    or the advantage is not positive and [1 - epsilon <= r]), and it is
    [(1 - epsilon) * advantage] when the advantage is negative and
    [r < 1 - epsilon]. *)
Theorem surrogate_is_pessimistic
    (probs old_probs value entropy : Run.tensor) (beta epsilon lr max_step : R)
    (fd : Run.ppo_feed) (ops : Run.ppo_ops) (i j : nat) (s : R) :
  Run.create_ppo_optimizer probs old_probs value entropy beta epsilon lr max_step fd =
    Some ops ->
  Run.entry (Run.surrogate ops) i j = Some s ->
  exists r adv,
    Run.entry (Run.r_theta ops) i j = Some r /\
    Run.entry (Run.advantage fd) i j = Some adv /\
    (s <= r * adv)%R /\
    ((0 <= epsilon)%R ->
     ((0 <= adv)%R -> (r <= 1 + epsilon)%R -> s = (r * adv)%R) /\
     ((adv <= 0)%R -> (1 - epsilon <= r)%R -> s = (r * adv)%R) /\
     ((adv < 0)%R -> (r < 1 - epsilon)%R -> s = ((1 - epsilon) * adv)%R)).
Proof.
  intros Hrun Hentry.
  destruct (surrogate_entry _ _ _ _ _ _ _ _ _ _ _ _ _ Hrun Hentry)
    as (r & adv & Hr & Hadv & ->).
  exists r, adv. split; [exact Hr|]. split; [exact Hadv|].
  unfold Run.surrogate_term. split; [apply Rmin_l|].
  intros Heps. split; [|split].
  - intros Hpos Hle. apply Rmin_left.
    apply Rmult_le_compat_r; [exact Hpos|]. apply clip_at_least, Hle.
  - intros Hneg Hle. apply Rmin_left.
    pose proof (clip_at_most (1 - epsilon) (1 + epsilon) r) as Hclip. nra.
  - intros Hneg Hlt. rewrite clip_below by lra. apply Rmin_right. nra.
Qed.

Lemma surrogate_is_pessimistic_witness :
  exists ops r adv,
    Run.create_ppo_optimizer Examples.probs Examples.old_probs Examples.value
      Examples.entropy 1e-3 0.2 1e-4 5e6 Examples.feed = Some ops /\
    Run.entry (Run.r_theta ops) 1 0 = Some r /\
    Run.entry (Run.advantage Examples.feed) 1 0 = Some adv /\
    Run.entry (Run.surrogate ops) 1 0 = Some (r * adv)%R.
Proof.
  eexists. eexists. eexists. split; [reflexivity|].
  split; [reflexivity|]. split; [reflexivity|].
  match goal with
  | |- Run.entry (Run.surrogate ?o) _ _ = _ =>
      edestruct (surrogate_is_pessimistic Examples.probs Examples.old_probs
                   Examples.value Examples.entropy 1e-3 0.2 1e-4 5e6 Examples.feed o
                   1%nat 0%nat)
        as (r & adv & Hr & Hadv & _ & Hcases); [reflexivity | reflexivity |]
  end.
  injection Hr as <-. injection Hadv as <-.
  destruct Hcases as (_ & Hneg & _); [lra|].
  refine (eq_trans _ (f_equal Some (Hneg _ _))); [reflexivity | lra | lra].
Defined.

Lemma sum_nonneg (l : list R) : Forall (fun x => 0 <= x)%R l -> (0 <= Run.sum l)%R.
Proof.
  induction 1 as [|x l Hx _ IH]; [simpl; lra|].
  change (0 <= x + Run.sum l)%R. lra.
Qed.

Lemma map_sum_singletons (vs : list R) :
  map Run.sum (map (fun v => [v]) vs) = vs.
Proof.
  induction vs as [|v vs IH]; [reflexivity|].
  simpl. rewrite IH. f_equal. lra.
Qed.

(** X10.  The value loss is the mean squared error between the returns and
    the value estimates: with [n] returns and a value tensor of shape
    [[n, 1]] it is [(1 / n) * sum ((return_i - value_i)^2)], and it is never
    negative. *)
Theorem value_loss_is_mean_squared_error
    (probs old_probs value entropy : Run.tensor) (beta epsilon lr max_step : R)
    (fd : Run.ppo_feed) (ops : Run.ppo_ops) (returns values : list R) :
  Run.create_ppo_optimizer probs old_probs value entropy beta epsilon lr max_step fd =
    Some ops ->
  Run.returns_holder fd = Run.T1 returns ->
  value = Run.T2 (map (fun v => [v]) values) ->
  length returns = length values ->
  Run.value_loss ops =
    (Run.sum (zip_with (fun r v => (r - v) * (r - v)) returns values)
     / INR (length returns))%R /\
  (0 <= Run.value_loss ops)%R.
Proof.
  intros Hrun Hreturns -> Hlen.
  destruct (create_ppo_optimizer_inv _ _ _ _ _ _ _ _ _ _ Hrun)
    as (a & b & value_sum & sq & _ & _ & _ & _ & _ & Hsum & Hsq & Hloss & _).
  simpl in Hsum. injection Hsum as <-. rewrite map_sum_singletons in Hsq.
  rewrite Hreturns in Hsq. unfold Run.squared_difference in Hsq.
  rewrite binop_T1_same in Hsq by exact Hlen. injection Hsq as <-.
  assert (Hvalue : Run.value_loss ops =
                   (Run.sum (zip_with (fun r v => (r - v) * (r - v)) returns values)
                    / INR (length returns))%R).
  { rewrite Hloss. unfold Run.reduce_mean, Run.size. rewrite reduce_sum_T1.
    simpl. rewrite app_nil_r, length_zip_with, <- Hlen, Nat.min_id. reflexivity. }
  split; [exact Hvalue|]. rewrite Hvalue.
  assert (Hsquares : (0 <= Run.sum (zip_with (fun r v => (r - v) * (r - v))
                                             returns values))%R).
  { apply sum_nonneg, Forall_forall. intros x Hx.
    apply list_elem_of_lookup in Hx as [k Hk].
    apply lookup_zip_with_Some in Hk as (r & v & -> & _ & _).
    apply Rle_0_sqr. }
  destruct returns as [|r returns].
  - simpl. unfold Rdiv. rewrite Rmult_0_l. lra.
  - apply Rmult_le_pos; [exact Hsquares|].
    apply Rlt_le, Rinv_0_lt_compat, lt_0_INR. simpl. lia.
Qed.

Lemma value_loss_is_mean_squared_error_witness :
  exists ops,
    Run.create_ppo_optimizer Examples.probs Examples.old_probs Examples.value
      Examples.entropy 1e-3 0.2 1e-4 5e6 Examples.feed = Some ops /\
    Run.value_loss ops = (((1 - 1) * (1 - 1) + ((1 - 2) * (1 - 2) + 0)) / INR 2)%R.
Proof.
  eexists. split; [reflexivity|].
  match goal with
  | |- Run.value_loss ?o = _ =>
      destruct (value_loss_is_mean_squared_error Examples.probs Examples.old_probs
                  Examples.value Examples.entropy 1e-3 0.2 1e-4 5e6 Examples.feed o
                  [1; 1]%R [1; 2]%R) as [Hvalue _]; try reflexivity
  end.
  exact Hvalue.
Defined.

(** * Batch sizes and broadcasting *)

Lemma stretch_mismatch {A B C : Type} (g : A -> B -> option C) xs ys :
  length xs <> 1%nat -> length ys <> 1%nat -> length xs <> length ys ->
  Run.stretch g xs ys = None.
Proof.
  intros Hx Hy Hne. unfold Run.stretch.
  destruct xs as [|x [|x' xs]], ys as [|y [|y' ys]]; simpl in *; try lia;
    try reflexivity; destruct (decide _) as [Heq|]; try reflexivity;
    simpl in Heq; lia.
Qed.

(** X11.  When the probabilities are a matrix, as in the continuous model, a
    batch of advantages whose size differs from the batch of probabilities is
    a shape error: [create_ppo_optimizer] does not evaluate (unless one of
    the two batches has size 1 and is stretched). *)
Theorem matrix_layout_rejects_batch_mismatch
    (n m k : nat) (probs old_probs value entropy : Run.tensor)
    (beta epsilon lr max_step : R) (fd : Run.ppo_feed) :
  Run.is_matrix n k probs -> Run.is_matrix n k old_probs ->
  Run.is_matrix m 1 (Run.advantage fd) ->
  n <> m -> n <> 1%nat -> m <> 1%nat ->
  Run.create_ppo_optimizer probs old_probs value entropy beta epsilon lr max_step fd =
    None.
Proof.
  intros Hprobs Hold Hadv Hne Hn Hm.
  unfold Run.create_ppo_optimizer, Run.div, Run.mul.
  destruct (Run.placeholder [None] (Run.returns_holder fd)); [|reflexivity].
  rewrite (placeholder_matrix _ _ _ Hadv). cbn [mbind option_bind].
  destruct (binop_matrix_matrix Rdiv n k probs old_probs Hprobs Hold)
    as (r & -> & Hr).
  cbn [mbind option_bind].
  apply is_matrix_rows in Hr as (mr & -> & Hlen & _).
  apply is_matrix_rows in Hadv as (ma & -> & Hlen' & _).
  unfold Run.binop. simpl Run.rows.
  rewrite (stretch_mismatch _ mr ma) by lia. reflexivity.
Qed.

Lemma matrix_layout_rejects_batch_mismatch_witness :
  Run.create_ppo_optimizer (Run.T2 [[1; 1]; [1; 1]]%R) (Run.T2 [[1; 1]; [1; 1]]%R)
    (Run.T2 [[0]; [0]]%R) (Run.T0 0) 0 0.2 1e-4 5e6
    {| Run.returns_holder := Run.T1 [0; 0]%R;
       Run.advantage := Run.T2 [[1]; [1]; [1]]%R;
       Run.global_step := 0 |} = None.
Proof.
  apply (matrix_layout_rejects_batch_mismatch 2 3 2); try reflexivity; lia.
Defined.

(** X12.  When the probabilities are a vector, as in the discrete model, the
    batch of advantages may have any size: for [n] probabilities and [m]
    advantages [create_ppo_optimizer] evaluates without a shape error, the
    tensor under the mean has shape [[m, n]], and the policy loss averages
    the clipped surrogate over all [m * n] pairs. *)
Theorem vector_layout_accepts_any_advantage_batch
    (n n' m : nat) (probs old_probs value entropy : Run.tensor)
    (beta epsilon lr max_step : R) (fd : Run.ppo_feed) :
  Run.is_vector n probs -> Run.is_vector n old_probs ->
  Run.is_matrix n' 1 value ->
  Run.is_vector n' (Run.returns_holder fd) ->
  Run.is_matrix m 1 (Run.advantage fd) ->
  exists ops ratios advantages,
    Run.create_ppo_optimizer probs old_probs value entropy beta epsilon lr max_step fd =
      Some ops /\
    Run.r_theta ops = Run.T1 ratios /\ length ratios = n /\
    Run.advantage fd = Run.T2 (map (fun a => [a]) advantages) /\
    length advantages = m /\
    Run.is_matrix m n (Run.surrogate ops) /\
    Run.policy_loss ops =
      (- (1 / (INR m * INR n)) * Run.sum_all_pairs epsilon ratios advantages)%R.
Proof.
  intros (p & -> & Hp)%is_vector_elements (q & -> & Hq)%is_vector_elements
         Hvalue Hreturns Hadvantage.
  pose proof Hadvantage as (advs & Hadvs & Hlen)%is_column.
  unfold Run.create_ppo_optimizer, Run.div, Run.mul, Run.minimum,
    Run.squared_difference.
  rewrite (placeholder_vector _ _ Hreturns), (placeholder_matrix _ _ _ Hadvantage).
  cbn [mbind option_bind].
  rewrite binop_T1_same by congruence. cbn [mbind option_bind].
  rewrite Hadvs. simpl Run.clip_by_value. rewrite !binop_T1_column.
  cbn [mbind option_bind].
  rewrite binop_T2_same.
  2:{ apply Forall2_fmap, Forall_Forall2_diag, Forall_forall. intros a _.
      rewrite !length_map. reflexivity. }
  cbn [mbind option_bind].
  run_step (reduce_sum_axis1_shape n' 1 value) value_sum Hsum Hsum_shape.
  run_step (binop_vector_vector (fun x y => (x - y) * (x - y))%R n'
              (Run.returns_holder fd) value_sum) sq Hsq Hsq_shape.
  rewrite zip_with_map_same.
  assert (Hratios : length (zip_with Rdiv p q) = n)
    by (rewrite length_zip_with; lia).
  eexists. exists (zip_with Rdiv p q), advs.
  split; [reflexivity|]. simpl.
  split; [reflexivity|]. split; [exact Hratios|]. split; [reflexivity|].
  split; [exact Hlen|]. split.
  - apply matrix_intro; [rewrite length_map; exact Hlen|].
    apply Forall_map, Forall_forall. intros a _. simpl.
    rewrite length_zip_with, !length_map. lia.
  - unfold Run.reduce_mean, Run.reduce_sum, Run.size, Run.sum_all_pairs.
    simpl Run.rows.
    rewrite (length_concat_map_const _ _ n)
      by (intros a; rewrite length_zip_with, !length_map; lia).
    rewrite Hlen, mult_INR, map_map.
    assert (Hrows : forall a,
               zip_with Rmin (map (fun x => (x * a)%R) (zip_with Rdiv p q))
                 (map (fun x => (x * a)%R)
                      (map (Run.clip (1 - epsilon) (1 + epsilon)) (zip_with Rdiv p q))) =
               map (fun r => Run.surrogate_term epsilon r a) (zip_with Rdiv p q)).
    { intros a. rewrite map_map, zip_with_map_same. reflexivity. }
    rewrite (map_ext _ _ (fun a => f_equal Run.sum (Hrows a))).
    unfold Rdiv. ring.
Qed.

Lemma vector_layout_accepts_any_advantage_batch_witness :
  exists ops,
    Run.create_ppo_optimizer (Run.T1 [1; 1]%R) (Run.T1 [1; 1]%R)
      (Run.T2 [[0]; [0]]%R) (Run.T0 0) 0 0.2 1e-4 5e6
      {| Run.returns_holder := Run.T1 [0; 0]%R;
         Run.advantage := Run.T2 [[1]; [1]; [1]]%R;
         Run.global_step := 0 |} = Some ops /\
    Run.is_matrix 3 2 (Run.surrogate ops).
Proof.
  destruct (vector_layout_accepts_any_advantage_batch 2 2 3
              (Run.T1 [1; 1]%R) (Run.T1 [1; 1]%R) (Run.T2 [[0]; [0]]%R) (Run.T0 0)
              0 0.2 1e-4 5e6
              {| Run.returns_holder := Run.T1 [0; 0]%R;
                 Run.advantage := Run.T2 [[1]; [1]; [1]]%R;
                 Run.global_step := 0 |})
    as (ops & ratios & advantages & Hrun & _ & _ & _ & _ & Hshape & _);
    try reflexivity.
  exists ops. auto.
Defined.

Lemma surrogate_rows epsilon (ratios : list (list R)) (advantages : list R) :
  zip_with (zip_with Rmin)
    (zip_with (fun row a => map (fun x => (x * a)%R) row) ratios advantages)
    (zip_with (fun row a => map (fun x => (x * a)%R) row)
       (map (map (Run.clip (1 - epsilon) (1 + epsilon))) ratios) advantages) =
  zip_with (fun row adv => map (fun r => Run.surrogate_term epsilon r adv) row)
           ratios advantages.
Proof.
  revert advantages. induction ratios as [|row ratios IH]; intros [|a advantages];
    try reflexivity.
  simpl. rewrite IH. f_equal. rewrite map_map, zip_with_map_same. reflexivity.
Qed.

Lemma rows_size {X : Type} (g : list R -> X -> list R) (rows : list (list R))
    (xs : list X) (k : nat) :
  length rows = length xs ->
  Forall (fun row => length row = k) rows ->
  (forall row x, length (g row x) = length row) ->
  length (concat (zip_with g rows xs)) = (length rows * k)%nat.
Proof.
  intros Hlen Hrows Hg. revert xs Hlen.
  induction Hrows as [|row rows Hrow _ IH]; intros [|x xs] Hlen;
    simpl in Hlen; try discriminate; [reflexivity|].
  simpl. rewrite length_app, Hg, Hrow, IH by lia. reflexivity.
Qed.

Lemma map_sum_zip_with {X : Type} (g : list R -> X -> list R) (rows : list (list R))
    (xs : list X) :
  map Run.sum (zip_with g rows xs) = zip_with (fun row x => Run.sum (g row x)) rows xs.
Proof.
  revert xs. induction rows as [|row rows IH]; intros [|x xs]; try reflexivity.
  simpl. rewrite IH. reflexivity.
Qed.

Lemma ppo_rows_policy_loss n k probs old_probs value entropy beta epsilon lr max_step
    fd ops :
  Run.create_ppo_optimizer probs old_probs value entropy beta epsilon lr max_step fd =
    Some ops ->
  Run.is_matrix n k probs -> Run.is_matrix n k old_probs ->
  Run.is_matrix n 1 (Run.advantage fd) ->
  exists ratios advantages,
    Run.r_theta ops = Run.T2 ratios /\
    Run.is_matrix n k (Run.T2 ratios) /\
    Run.advantage fd = Run.T2 (map (fun a => [a]) advantages) /\
    length advantages = n /\
    Run.policy_loss ops =
      (- (1 / (INR n * INR k))
       * Run.sum (zip_with (fun row adv =>
                              Run.sum (map (fun r => Run.surrogate_term epsilon r adv)
                                           row))
                           ratios advantages))%R.
Proof.
  intros Hrun Hprobs Hold Hadv.
  destruct (create_ppo_optimizer_inv _ _ _ _ _ _ _ _ _ _ Hrun)
    as (a & b & _ & _ & Hr & Ha & Hb & Hs & Hloss & _).
  destruct (binop_matrix_matrix Rdiv n k probs old_probs Hprobs Hold)
    as (r & Hr' & Hshape).
  unfold Run.div in Hr. rewrite Hr' in Hr. injection Hr as Hr.
  rewrite <- Hr in *. clear Hr Hr'.
  pose proof Hshape as (ratios & -> & Hn & Hk)%is_matrix_rows.
  apply is_column in Hadv as (advs & Hadvs & Hlen).
  rewrite Hadvs in Ha, Hb. unfold Run.mul in Ha, Hb. simpl Run.clip_by_value in Hb.
  rewrite binop_T2_column in Ha by congruence.
  rewrite binop_T2_column in Hb by (rewrite length_map; congruence).
  injection Ha as <-. injection Hb as <-.
  unfold Run.minimum in Hs. rewrite binop_T2_same in Hs.
  2:{ apply Forall2_same_length_lookup_2.
      - rewrite !length_zip_with, length_map. reflexivity.
      - intros i ra rb Hra Hrb.
        apply lookup_zip_with_Some in Hra as (row & x & -> & Hrow & Hx).
        apply lookup_zip_with_Some in Hrb as (row' & x' & -> & Hrow' & _).
        rewrite list_lookup_fmap, Hrow in Hrow'. injection Hrow' as <-.
        rewrite !length_map. reflexivity. }
  injection Hs as Hs. rewrite surrogate_rows in Hs.
  exists ratios, advs. split; [reflexivity|]. split; [exact Hshape|].
  split; [exact Hadvs|]. split; [exact Hlen|].
  rewrite Hloss, <- Hs. unfold Run.reduce_mean, Run.reduce_sum, Run.size.
  simpl Run.rows.
  rewrite (rows_size _ _ _ k) by
    first [congruence | assumption | intros; apply length_map].
  rewrite map_sum_zip_with, Hn, mult_INR. unfold Rdiv. ring.
Qed.

(** X13.  In the continuous model every sample meets only its own
    advantage: on a well-shaped batch of [n] samples with [a] action
    dimensions the ratio tensor has shape [[n, a]] and the policy loss is
    [-(1 / (n * a))] times the sum, over the samples, of the clipped
    surrogates of the sample's [a] ratios with the sample's advantage.  The
    entropy has weight [0.0], so the total loss is the policy loss plus the
    value loss.  (On a batch of two with the advantages 2 and -1, the first
    row of ratios meets 2 only and the second row -1 only.) *)
Theorem continuous_policy_loss_pairs_rows
    (n : nat) (lr : R) (brain : BrainParameters) (h_size : Z) (epsilon max_step : R)
    (w : Run.continuous_variables) (fd : Run.continuous_feed) :
  Run.continuous_shapes n (Z.to_nat (state_space_size brain)) (Z.to_nat h_size)
                        (Z.to_nat (action_space_size brain)) w fd ->
  exists ops ratios advantages,
    Run.ContinuousControlModel lr brain h_size epsilon max_step w fd = Some ops /\
    Run.r_theta (Run.c_ppo ops) = Run.T2 ratios /\
    Run.is_matrix n (Z.to_nat (action_space_size brain)) (Run.T2 ratios) /\
    Run.advantage (Run.c_ppo_feed fd) = Run.T2 (map (fun a => [a]) advantages) /\
    length advantages = n /\
    Run.policy_loss (Run.c_ppo ops) =
      (- (1 / (INR n * INR (Z.to_nat (action_space_size brain))))
       * Run.sum (zip_with (fun row adv =>
                              Run.sum (map (fun r => Run.surrogate_term epsilon r adv)
                                           row))
                           ratios advantages))%R /\
    Run.loss (Run.c_ppo ops) =
      (Run.policy_loss (Run.c_ppo ops) + Run.value_loss (Run.c_ppo ops))%R.
Proof.
  intros Hshapes.
  destruct (ContinuousControlModel_evaluates n lr brain h_size epsilon max_step w fd
              Hshapes) as (ops & Hrun & _ & _ & _ & Hprobs & _).
  destruct Hshapes as (_ & _ & _ & _ & _ & _ & _ & _ & _ & Hold & _ & Hadv).
  destruct (ContinuousControlModel_inv _ _ _ _ _ _ _ _ Hrun)
    as (? & ? & ? & ? & ? & ? & ? & ? & ? & Hinv).
  decompose [and] Hinv.
  match goal with
  | Hppo : Run.create_ppo_optimizer _ _ _ _ _ _ _ _ _ = Some _ |- _ =>
      destruct (ppo_rows_policy_loss n _ _ _ _ _ _ _ _ _ _ _ Hppo Hprobs Hold Hadv)
        as (ratios & advantages & Hr & Hshape & Hadvs & Hlen & Hloss);
      destruct (create_ppo_optimizer_inv _ _ _ _ _ _ _ _ _ _ Hppo)
        as (? & ? & ? & ? & _ & _ & _ & _ & _ & _ & _ & _ & Htotal & _)
  end.
  exists ops, ratios, advantages. repeat (split; [assumption|]).
  rewrite Htotal. lra.
Qed.

Lemma continuous_policy_loss_pairs_rows_witness :
  exists ops row1 row2,
    Run.ContinuousControlModel 1e-4 Examples.small_continuous 1 0.2 5e6
      Examples.continuous_variables Examples.continuous_batch = Some ops /\
    Run.r_theta (Run.c_ppo ops) = Run.T2 [row1; row2] /\
    length row1 = 2%nat /\ length row2 = 2%nat /\
    Run.policy_loss (Run.c_ppo ops) =
      (- (1 / (INR 2 * INR 2))
       * (Run.sum (map (fun r => Run.surrogate_term 0.2 r 2) row1)
          + (Run.sum (map (fun r => Run.surrogate_term 0.2 r (-1)) row2) + 0)))%R /\
    Run.loss (Run.c_ppo ops) =
      (Run.policy_loss (Run.c_ppo ops) + Run.value_loss (Run.c_ppo ops))%R.
Proof.
  destruct (continuous_policy_loss_pairs_rows 2 1e-4 Examples.small_continuous 1 0.2
              5e6 Examples.continuous_variables Examples.continuous_batch)
    as (ops & ratios & advantages & Hrun & Hr & Hshape & Hadvs & Hlen & Hpolicy & Hloss);
    [repeat split; reflexivity|].
  apply is_matrix_rows in Hshape as (m & [= <-] & Hrows & Hcols).
  destruct ratios as [|row1 [|row2 [|]]]; try discriminate Hrows.
  destruct advantages as [|adv1 [|adv2 [|]]]; try discriminate Hlen.
  injection Hadvs as <- <-.
  apply Forall_cons in Hcols as [Hrow1 Hcols].
  apply Forall_cons in Hcols as [Hrow2 _].
  exists ops, row1, row2. split; [exact Hrun|]. split; [exact Hr|].
  split; [exact Hrow1|]. split; [exact Hrow2|]. split; [exact Hpolicy|exact Hloss].
Defined.

(** * Further properties of the learning rate *)

Lemma create_ppo_optimizer_increment probs old_probs value entropy beta epsilon lr
    max_step fd ops :
  Run.create_ppo_optimizer probs old_probs value entropy beta epsilon lr max_step fd =
    Some ops ->
  Run.increment_step ops = Run.int32 (Run.global_step fd + 1).
Proof.
  unfold Run.create_ppo_optimizer. intros Hrun.
  repeat match type of Hrun with
         | mbind _ ?e = Some _ =>
             destruct e; [cbn [mbind option_bind] in Hrun | discriminate Hrun]
         end.
  injection Hrun as <-. reflexivity.
Qed.

Lemma int32_in_range (z : Z) :
  -2147483648 <= z <= 2147483647 -> Run.int32 z = z.
Proof. intros Hz. unfold Run.int32. rewrite Z.mod_small by lia. lia. Qed.

(** X14.  For a positive [max_step], a base rate at or above the floor and a
    step counter that is not negative, the learning rate stays between the
    floor [1e-10] and the base rate, and it is the floor at every step from
    [max_step] on.  The value [increment_step] assigns to the counter is the
    counter plus one as long as that fits in a [tf.int32]; at the largest
    int32, [2147483647], the sum wraps around and the counter becomes
    [-2147483648]. *)
Theorem learning_rate_stays_in_range
    (probs old_probs value entropy : Run.tensor) (beta epsilon lr max_step : R)
    (fd : Run.ppo_feed) (ops : Run.ppo_ops) :
  (0 < max_step)%R ->
  (1e-10 <= lr)%R ->
  0 <= Run.global_step fd <= 2147483647 ->
  Run.create_ppo_optimizer probs old_probs value entropy beta epsilon lr max_step fd =
    Some ops ->
  (1e-10 <= Run.learning_rate ops <= lr)%R /\
  ((max_step <= IZR (Run.global_step fd))%R -> Run.learning_rate ops = 1e-10%R) /\
  (Run.global_step fd < 2147483647 ->
   Run.increment_step ops = Run.global_step fd + 1) /\
  (Run.global_step fd = 2147483647 -> Run.increment_step ops = -2147483648).
Proof.
  intros Hsteps Hfloor [Hstep Hint] Hrun.
  pose proof (create_ppo_optimizer_increment _ _ _ _ _ _ _ _ _ _ Hrun) as Hnext.
  destruct (create_ppo_optimizer_inv _ _ _ _ _ _ _ _ _ _ Hrun)
    as (_ & _ & _ & _ & _ & _ & _ & _ & _ & _ & _ & _ & _ & Hrate).
  rewrite Hrate, polynomial_decay_linear.
  apply IZR_le in Hstep.
  assert (Hfrac : (0 <= Rmin (IZR (Run.global_step fd)) max_step / max_step <= 1)%R).
  { assert (0 <= Rmin (IZR (Run.global_step fd)) max_step <= max_step)%R
      by (split; [apply Rmin_glb; lra | apply Rmin_r]).
    split.
    - apply Rmult_le_pos; [lra|]. apply Rlt_le, Rinv_0_lt_compat, Hsteps.
    - apply (Rmult_le_reg_r max_step); [exact Hsteps|].
      unfold Rdiv. rewrite Rmult_assoc, Rinv_l by lra. lra. }
  split; [split; nra|]. split; [|split].
  - intros Hpast. rewrite Rmin_right by exact Hpast.
    unfold Rdiv. rewrite Rinv_r by lra. lra.
  - intros Hbelow. rewrite Hnext. apply int32_in_range.
    apply le_IZR in Hstep. lia.
  - intros Hlast. rewrite Hnext, Hlast. reflexivity.
Qed.

Lemma learning_rate_stays_in_range_witness :
  (exists ops,
     Run.create_ppo_optimizer Examples.probs Examples.old_probs Examples.value
       Examples.entropy 1e-3 0.2 1e-4 100 (Examples.feed_at 250) = Some ops /\
     Run.learning_rate ops = 1e-10%R /\ Run.increment_step ops = 251) /\
  (exists ops,
     Run.create_ppo_optimizer Examples.probs Examples.old_probs Examples.value
       Examples.entropy 1e-3 0.2 1e-4 100 (Examples.feed_at 2147483647) = Some ops /\
     Run.increment_step ops = -2147483648).
Proof.
  split.
  - eexists. split; [reflexivity|].
    match goal with
    | |- Run.learning_rate ?o = _ /\ _ =>
        destruct (learning_rate_stays_in_range Examples.probs Examples.old_probs
                    Examples.value Examples.entropy 1e-3 0.2 1e-4 100
                    (Examples.feed_at 250) o) as (_ & Hfloor & Hnext & _);
          [lra | lra | simpl; lia | reflexivity |]
    end.
    split; [apply Hfloor; simpl; lra | apply Hnext; simpl; lia].
  - eexists. split; [reflexivity|].
    match goal with
    | |- Run.increment_step ?o = _ =>
        destruct (learning_rate_stays_in_range Examples.probs Examples.old_probs
                    Examples.value Examples.entropy 1e-3 0.2 1e-4 100
                    (Examples.feed_at 2147483647) o) as (_ & _ & _ & Hwrap);
          [lra | lra | simpl; lia | reflexivity |]
    end.
    apply Hwrap. reflexivity.
Defined.

(** * Further properties of the continuous model *)

(** X15.  The probability the continuous model gives to its own sampled
    action never exceeds the peak of the density: every entry of [probs] lies
    between 0 and [1 / sqrt (2 * pi * sigma_sq)], where [sigma_sq] is the
    exponential of the entry of [log_sigma_sq] for that action dimension.
    Where the noise fed is 0 the action is [mu] itself and the probability
    is that peak. *)
Theorem continuous_density_at_most_peak
    (lr : R) (brain : BrainParameters) (h_size : Z) (epsilon max_step : R)
    (w : Run.continuous_variables) (fd : Run.continuous_feed)
    (ops : Run.continuous_ops) (i j : nat) (p : R) :
  Run.ContinuousControlModel lr brain h_size epsilon max_step w fd = Some ops ->
  Run.entry (Run.c_probs ops) i j = Some p ->
  exists l noise action mu,
    Run.entry (Run.log_sigma_sq w) i j = Some l /\
    Run.entry (Run.c_epsilon fd) i j = Some noise /\
    Run.entry (Run.c_output ops) i j = Some action /\
    Run.entry (Run.c_mu ops) i j = Some mu /\
    (0 <= p <= 1 / sqrt (2 * PI * exp l))%R /\
    (noise = 0%R -> action = mu /\ p = (1 / sqrt (2 * PI * exp l))%R).
Proof.
  intros Hrun Hp.
  destruct (continuous_probs_entry _ _ _ _ _ _ _ _ _ _ _ Hrun Hp)
    as (o & m & s & Ho & Hm & Hs & ->).
  destruct (continuous_output_entry _ _ _ _ _ _ _ _ _ _ _ Hrun Ho)
    as (m' & s' & e & Hm' & Hs' & He & ->).
  rewrite Hm in Hm'. injection Hm' as <-. rewrite Hs in Hs'. injection Hs' as <-.
  destruct (sigma_sq_entry _ _ _ _ _ _ _ _ _ _ _ Hrun Hs) as (l & Hl & ->).
  pose proof (exp_pos l) as Hpos.
  assert (Hroot : (0 < sqrt (2 * PI * exp l))%R).
  { apply sqrt_lt_R0. pose proof PI_RGT_0. nra. }
  exists l, e, (m + sqrt (exp l) * e)%R, m.
  repeat (split; [assumption|]). split; [split|].
  - apply Rlt_le, Rdiv_lt_0_compat; [apply exp_pos | exact Hroot].
  - apply Rmult_le_compat_r; [apply Rlt_le, Rinv_0_lt_compat, Hroot|].
    rewrite <- exp_0.
    set (x := (- (m + sqrt (exp l) * e - m) ^ 2 / (2 * exp l))%R).
    assert (Hx : (x <= 0)%R).
    { unfold x, Rdiv. rewrite <- Ropp_mult_distr_l.
      apply Ropp_le_cancel. rewrite Ropp_involutive, Ropp_0.
      apply Rmult_le_pos; [apply pow2_ge_0|].
      apply Rlt_le, Rinv_0_lt_compat. lra. }
    destruct (Req_dec x 0) as [->|Hne]; [lra|].
    apply Rlt_le, exp_increasing. lra.
  - intros ->. split; [ring|].
    replace (- (m + sqrt (exp l) * 0 - m) ^ 2 / (2 * exp l))%R with 0%R
      by (field; lra).
    rewrite exp_0. reflexivity.
Qed.

Lemma continuous_density_at_most_peak_witness :
  exists ops p,
    Run.ContinuousControlModel 1e-4 Examples.small_continuous 1 0.2 5e6
      Examples.continuous_variables Examples.continuous_batch = Some ops /\
    Run.entry (Run.c_probs ops) 1 1 = Some p /\
    (0 <= p <= 1 / sqrt (2 * PI * exp 0))%R /\
    p = (1 / sqrt (2 * PI * exp 0))%R.
Proof.
  destruct (ContinuousControlModel_evaluates 2 1e-4 Examples.small_continuous 1 0.2
              5e6 Examples.continuous_variables Examples.continuous_batch)
    as (ops & Hrun & _ & _ & _ & Hshape & _); [repeat split; reflexivity|].
  destruct (entry_defined _ _ _ 1 1 Hshape) as (p & Hp); [lia | simpl; lia |].
  destruct (continuous_density_at_most_peak _ _ _ _ _ _ _ _ 1%nat 1%nat p Hrun Hp)
    as (l & noise & action & mu & Hl & Hnoise & _ & _ & Hbound & Hpeak).
  injection Hl as <-. injection Hnoise as <-.
  exists ops, p. split; [exact Hrun|]. split; [exact Hp|]. split; [exact Hbound|].
  apply Hpeak. reflexivity.
Defined.

Lemma gaussian_entropy_term (l : R) :
  ln (2 * PI * exp 1 * exp l) = (ln (2 * PI) + 1 + l)%R.
Proof.
  pose proof PI_RGT_0. pose proof (exp_pos 1). pose proof (exp_pos l).
  rewrite ln_mult by nra. rewrite ln_mult by nra. rewrite !ln_exp. reflexivity.
Qed.

Lemma sum_shifted (c : R) (l : list R) :
  Run.sum (map (fun x => c + x)%R l) = (INR (length l) * c + Run.sum l)%R.
Proof.
  induction l as [|x l IH]; [simpl; lra|].
  change (c + x + Run.sum (map (fun x => c + x)%R l) =
          INR (S (length l)) * c + (x + Run.sum l))%R.
  rewrite IH, S_INR. lra.
Qed.

(** X16.  The entropy of the continuous model is affine in the learned
    log-variances: with [a] action dimensions it is
    [0.5 * (a * (ln (2 * pi) + 1) + sum log_sigma_sq)], so raising any
    log-variance by [d] raises the entropy by [d / 2]. *)
Theorem continuous_entropy_is_affine
    (lr : R) (brain : BrainParameters) (h_size : Z) (epsilon max_step : R)
    (w : Run.continuous_variables) (fd : Run.continuous_feed)
    (ops : Run.continuous_ops) :
  Run.ContinuousControlModel lr brain h_size epsilon max_step w fd = Some ops ->
  exists lss,
    Run.log_sigma_sq w = Run.T1 lss /\
    length lss = Z.to_nat (action_space_size brain) /\
    Run.c_entropy ops =
      Run.T0 (0.5 * (INR (Z.to_nat (action_space_size brain)) * (ln (2 * PI) + 1)
                     + Run.sum lss))%R.
Proof.
  intros Hrun.
  destruct (continuous_entropy_formula _ _ _ _ _ _ _ _ Hrun)
    as (lss & Hlss & Hlen & _ & Hentropy).
  exists lss. split; [exact Hlss|]. split; [exact Hlen|].
  rewrite Hentropy, map_map.
  rewrite (map_ext _ (fun l => (ln (2 * PI) + 1 + l)%R))
    by (intros l; apply gaussian_entropy_term).
  rewrite sum_shifted, Hlen. reflexivity.
Qed.

Lemma continuous_entropy_is_affine_witness :
  exists ops,
    Run.ContinuousControlModel 1e-4 Examples.small_continuous 1 0.2 5e6
      Examples.continuous_variables (Examples.continuous_feed 1) = Some ops /\
    Run.c_entropy ops = Run.T0 (0.5 * (INR 2 * (ln (2 * PI) + 1) + (0 + (0 + 0))))%R.
Proof.
  eexists. split; [reflexivity|].
  match goal with
  | |- Run.c_entropy ?o = _ =>
      destruct (continuous_entropy_is_affine 1e-4 Examples.small_continuous 1 0.2 5e6
                  Examples.continuous_variables (Examples.continuous_feed 1) o eq_refl)
        as (lss & Hlss & _ & Hentropy)
  end.
  injection Hlss as <-. exact Hentropy.
Defined.

(** * Further properties of the discrete model *)

Lemma dense_Some inputs kernel n_in units activation y :
  Run.dense inputs kernel n_in units activation = Some y ->
  exists rows, y = Run.T2 rows /\ Forall (fun row => length row = units) rows /\
               Run.is_matrix (length rows) n_in inputs.
Proof.
  unfold Run.dense. intros H.
  bind_inv H x Hx. bind_inv H k Hk. injection H as <-.
  pose proof Hx as Hshape. apply placeholder_Some in Hx. subst x.
  unfold Run.placeholder in Hshape.
  destruct (Run.has_shape [None; Some n_in] inputs) eqn:Hin; [|discriminate].
  destruct inputs as [x|v|m]; try discriminate.
  eexists. split; [reflexivity|]. split.
  - apply Forall_map, Forall_forall. intros row _. simpl.
    unfold Run.vecmat. rewrite !length_map, length_seq. reflexivity.
  - simpl. rewrite length_map. unfold Run.is_matrix. simpl. simpl in Hin.
    rewrite Hin. rewrite bool_decide_eq_true_2 by reflexivity. reflexivity.
Qed.

Lemma sum_map_div (g : R -> R) (c : R) (l : list R) :
  Run.sum (map (fun x => g x / c)%R l) = (Run.sum (map g l) / c)%R.
Proof.
  induction l as [|x l IH]; [simpl; unfold Rdiv; ring|].
  change (g x / c + Run.sum (map (fun x => g x / c)%R l) =
          (g x + Run.sum (map g l)) / c)%R.
  rewrite IH. unfold Rdiv. ring.
Qed.

Lemma sum_exp_pos (l : list R) : l <> [] -> (0 < Run.sum (map exp l))%R.
Proof.
  intros Hne. destruct l as [|x l]; [contradiction|].
  change (0 < exp x + Run.sum (map exp l))%R.
  assert (0 <= Run.sum (map exp l))%R.
  { apply sum_nonneg, Forall_map, Forall_forall. intros y _. apply Rlt_le, exp_pos. }
  pose proof (exp_pos x). lra.
Qed.

Lemma exp_le_sum_exp (l : list R) (x : R) :
  x ∈ l -> (exp x <= Run.sum (map exp l))%R.
Proof.
  induction 1 as [x l|x y l _ IH].
  - change (exp x <= exp x + Run.sum (map exp l))%R.
    assert (0 <= Run.sum (map exp l))%R; [|lra].
    apply sum_nonneg, Forall_map, Forall_forall. intros z _. apply Rlt_le, exp_pos.
  - change (exp x <= exp y + Run.sum (map exp l))%R. pose proof (exp_pos y). lra.
Qed.

Lemma softmax_row_distribution (row : list R) :
  row <> [] ->
  Run.sum (Run.softmax_row row) = 1%R /\
  Forall (fun p => 0 <= p <= 1)%R (Run.softmax_row row).
Proof.
  intros Hne. pose proof (sum_exp_pos row Hne) as Hpos. unfold Run.softmax_row. split.
  - rewrite (sum_map_div exp). unfold Rdiv. apply Rinv_r. lra.
  - apply Forall_map, Forall_forall. intros x Hx. simpl.
    pose proof (exp_le_sum_exp row x Hx). pose proof (exp_pos x). split.
    + apply Rlt_le, Rdiv_lt_0_compat; assumption.
    + apply (Rmult_le_reg_r (Run.sum (map exp row))); [exact Hpos|].
      unfold Rdiv. rewrite Rmult_assoc, Rinv_l by lra. lra.
Qed.

Lemma discrete_probs_rows lr brain n_hidden epsilon beta max_step w fd ops :
  Run.DiscreteControlModel lr brain n_hidden epsilon beta max_step w fd = Some ops ->
  exists logits,
    Run.d_probs ops = Run.T2 (map Run.softmax_row logits) /\
    Forall (fun row => length row = Z.to_nat (action_space_size brain)) logits /\
    Run.is_matrix (length logits) n_hidden (Run.d_hidden fd).
Proof.
  intros Hrun.
  destruct (DiscreteControlModel_inv _ _ _ _ _ _ _ _ _ Hrun)
    as (policy & ? & ? & ? & ? & ? & Hpolicy & Hprobs & _).
  destruct (dense_Some _ _ _ _ _ _ Hpolicy) as (logits & -> & Hrows & Hhidden).
  exists logits. rewrite Hprobs. auto.
Qed.

(** X17.  Every row of the discrete model's [probs] is a probability
    distribution over the actions: when the brain has at least one action it
    has [action_space_size] entries, each between 0 and 1, and they sum
    to 1. *)
Theorem discrete_probs_are_distributions
    (lr : R) (brain : BrainParameters) (n_hidden : nat) (epsilon beta max_step : R)
    (w : Run.discrete_variables) (fd : Run.discrete_feed) (ops : Run.discrete_ops) :
  Run.DiscreteControlModel lr brain n_hidden epsilon beta max_step w fd = Some ops ->
  0 < action_space_size brain ->
  exists rows,
    Run.d_probs ops = Run.T2 rows /\
    Run.is_matrix (length rows) n_hidden (Run.d_hidden fd) /\
    Forall (fun row => length row = Z.to_nat (action_space_size brain) /\
                       Run.sum row = 1%R /\
                       Forall (fun p => 0 <= p <= 1)%R row) rows.
Proof.
  intros Hrun Hactions.
  destruct (discrete_probs_rows _ _ _ _ _ _ _ _ _ Hrun) as (logits & Hprobs & Hrows & Hn).
  exists (map Run.softmax_row logits). split; [exact Hprobs|].
  rewrite length_map. split; [exact Hn|].
  apply Forall_map. eapply Forall_impl; [exact Hrows|].
  intros row Hrow. simpl in *.
  assert (Hne : row <> []) by (intros ->; simpl in Hrow; lia).
  split; [unfold Run.softmax_row; rewrite length_map; exact Hrow|].
  apply softmax_row_distribution, Hne.
Qed.

Lemma discrete_probs_are_distributions_witness :
  exists ops rows,
    Run.DiscreteControlModel 1e-4 Examples.small_discrete 1 0.2 1e-3 5e6
      Examples.discrete_variables Examples.discrete_feed = Some ops /\
    Run.d_probs ops = Run.T2 rows /\ length rows = 2%nat /\
    Forall (fun row => Run.sum row = 1%R) rows.
Proof.
  eexists. eexists. split; [reflexivity|]. split; [reflexivity|].
  split; [reflexivity|].
  match goal with
  | |- Forall _ ?rows0 =>
      edestruct (discrete_probs_are_distributions 1e-4 Examples.small_discrete 1 0.2
                   1e-3 5e6 Examples.discrete_variables Examples.discrete_feed)
        as (rows & Hprobs & _ & Hrows); [reflexivity | simpl; lia |];
      assert (Heq : rows0 = rows) by (injection Hprobs as <-; reflexivity)
  end.
  rewrite Heq. eapply Forall_impl; [exact Hrows|]. intros row (_ & Hsum & _).
  exact Hsum.
Defined.

Lemma one_hot_select (row : list R) (label start : Z) :
  Run.sum (zip_with Rmult row
             (map (fun k => if decide (label = k) then 1 else 0)%R
                  (seqZ start (Z.of_nat (length row))))) =
  if decide (start <= label < start + Z.of_nat (length row))
  then nth (Z.to_nat (label - start)) row 0%R else 0%R.
Proof.
  revert start. induction row as [|x row IH]; intros start.
  - simpl. destruct (decide _); [lia|reflexivity].
  - rewrite seqZ_cons by (simpl; lia).
    replace (Z.pred (Z.of_nat (length (x :: row)))) with (Z.of_nat (length row))
      by (simpl; lia).
    change (x * (if decide (label = start)%Z then 1 else 0)
            + Run.sum (zip_with Rmult row
                         (map (fun k => if decide (label = k)%Z then 1 else 0)
                              (seqZ (Z.succ start) (Z.of_nat (length row))))) =
            if decide (start <= label < start + Z.of_nat (length (x :: row)))%Z
            then nth (Z.to_nat (label - start)) (x :: row) 0 else 0)%R.
    rewrite IH. simpl length.
    destruct (decide (label = start)) as [->|Hne].
    + destruct (decide (Z.succ start <= start < _)); [lia|].
      destruct (decide (start <= start < _)); [|lia].
      replace (start - start) with 0 by lia. simpl. lra.
    + destruct (decide (Z.succ start <= label < _)) as [Hin|Hout].
      * destruct (decide (start <= label < _)); [|lia].
        replace (Z.to_nat (label - start)) with (S (Z.to_nat (label - Z.succ start)))
          by lia.
        simpl. lra.
      * destruct (decide (start <= label < _)); [lia|]. lra.
Qed.

Lemma one_hot_select_from_zero (row : list R) (label : Z) (k : nat) :
  length row = k ->
  Run.sum (zip_with Rmult row
             (map (fun k => if decide (label = k) then 1 else 0)%R
                  (seqZ 0 (Z.of_nat k)))) =
  if decide (0 <= label < Z.of_nat k) then nth (Z.to_nat label) row 0%R else 0%R.
Proof.
  intros <-. rewrite one_hot_select, Z.sub_0_r. reflexivity.
Qed.

(** X18.  [responsible_probs] picks, for each sample, the probability of the
    action that was taken: on a well-shaped batch, entry [i] is the entry of
    row [i] of [probs] at the index fed in [action_holder], and it is 0 when
    that index is not an action of the brain (negative, or not below
    [action_space_size]).  [old_responsible_probs] picks from [old_probs] in
    the same way. *)
Theorem responsible_probs_select_taken_action
    (n : nat) (lr : R) (brain : BrainParameters) (n_hidden : nat)
    (epsilon beta max_step : R) (w : Run.discrete_variables) (fd : Run.discrete_feed) :
  Run.discrete_shapes n n_hidden (Z.to_nat (action_space_size brain)) w fd ->
  exists ops rows old_rows taken old_taken,
    Run.DiscreteControlModel lr brain n_hidden epsilon beta max_step w fd = Some ops /\
    Run.d_probs ops = Run.T2 rows /\
    Run.d_old_probs fd = Run.T2 old_rows /\
    Run.d_responsible_probs ops = Run.T1 taken /\
    Run.d_old_responsible_probs ops = Run.T1 old_taken /\
    forall i label,
      Run.d_action_holder fd !! i = Some label ->
      exists row old_row,
        rows !! i = Some row /\ old_rows !! i = Some old_row /\
        taken !! i =
          Some (if decide (0 <= label < Z.of_nat (Z.to_nat (action_space_size brain)))
                then nth (Z.to_nat label) row 0%R else 0%R) /\
        old_taken !! i =
          Some (if decide (0 <= label < Z.of_nat (Z.to_nat (action_space_size brain)))
                then nth (Z.to_nat label) old_row 0%R else 0%R).
Proof.
  intros Hshapes.
  destruct (DiscreteControlModel_evaluates n lr brain n_hidden epsilon beta max_step w
              fd Hshapes) as (ops & _ & _ & Hrun & _).
  destruct Hshapes as (_ & _ & Hhidden & Hlabels & Hold & _).
  set (a_size := Z.to_nat (action_space_size brain)) in *.
  destruct (discrete_probs_rows _ _ _ _ _ _ _ _ _ Hrun)
    as (logits & Hprobs & Hlogits & Hn).
  assert (Hbatch : length logits = n).
  { apply is_matrix_rows in Hn as (m & Hm & Hlen & _).
    apply is_matrix_rows in Hhidden as (m' & Hm' & Hlen' & _).
    rewrite Hm in Hm'. injection Hm' as <-. congruence. }
  destruct (DiscreteControlModel_inv _ _ _ _ _ _ _ _ _ Hrun)
    as (policy & ? & ? & ? & chosen & old_chosen & _ & _ & _ & _ & _ & _ &
        Hchosen & Hresp & Hold_chosen & Hold_resp & _).
  fold a_size in Hchosen, Hold_chosen.
  pose proof Hold as (old_rows & Hold_rows & Hold_len & Hold_k)%is_matrix_rows.
  assert (Hrows_k : Forall (fun row => length row = a_size)
                           (map Run.softmax_row logits)).
  { apply Forall_map. eapply Forall_impl; [exact Hlogits|].
    intros row Hrow. simpl in *. unfold Run.softmax_row. rewrite length_map.
    exact Hrow. }
  pose proof (one_hot_encoding_matrix (Run.d_action_holder fd) a_size)
    as (hot & Hhot & Hhot_len & Hhot_k)%is_matrix_rows.
  unfold Run.mul in Hchosen, Hold_chosen.
  rewrite Hprobs, Hhot in Hchosen. rewrite Hold_rows, Hhot in Hold_chosen.
  rewrite binop_T2_same in Hchosen
    by (eapply Forall2_same_length; [rewrite length_map| | |]; eauto; congruence).
  rewrite binop_T2_same in Hold_chosen
    by (eapply Forall2_same_length; eauto; congruence).
  injection Hchosen as <-. injection Hold_chosen as <-.
  simpl in Hresp, Hold_resp. injection Hresp as Hresp.
  injection Hold_resp as Hold_resp.
  exists ops, (map Run.softmax_row logits), old_rows. eexists. eexists.
  split; [exact Hrun|]. split; [exact Hprobs|]. split; [exact Hold_rows|].
  split; [symmetry; f_equal; exact Hresp|].
  split; [symmetry; f_equal; exact Hold_resp|].
  intros i label Hlabel.
  assert (Hi : (i < n)%nat) by (rewrite <- Hlabels; eapply lookup_lt_Some, Hlabel).
  destruct (lookup_lt_is_Some_2 (map Run.softmax_row logits) i) as [row Hrow];
    [rewrite length_map; lia|].
  destruct (lookup_lt_is_Some_2 old_rows i) as [old_row Hold_row]; [lia|].
  assert (Hhot_row : hot !! i =
                     Some (map (fun k => if decide (label = k) then 1 else 0)%R
                               (seqZ 0 (Z.of_nat a_size)))).
  { unfold Run.one_hot_encoding in Hhot. injection Hhot as <-.
    rewrite list_lookup_fmap, Hlabel. reflexivity. }
  assert (Hrow_len : length row = a_size)
    by (rewrite Forall_lookup in Hrows_k; exact (Hrows_k _ _ Hrow)).
  assert (Hold_row_len : length old_row = a_size)
    by (rewrite Forall_lookup in Hold_k; exact (Hold_k _ _ Hold_row)).
  exists row, old_row. split; [exact Hrow|]. split; [exact Hold_row|].
  rewrite !list_lookup_fmap, !lookup_zip_with, Hrow, Hold_row, Hhot_row. simpl.
  rewrite (one_hot_select_from_zero row label a_size Hrow_len).
  rewrite (one_hot_select_from_zero old_row label a_size Hold_row_len).
  split; reflexivity.
Qed.

Lemma responsible_probs_select_taken_action_witness :
  exists ops rows taken row,
    Run.DiscreteControlModel 1e-4 Examples.small_discrete 1 0.2 1e-3 5e6
      Examples.discrete_variables Examples.discrete_feed = Some ops /\
    Run.d_probs ops = Run.T2 rows /\
    Run.d_responsible_probs ops = Run.T1 taken /\
    rows !! 1%nat = Some row /\
    taken !! 1%nat = Some (nth 1 row 0%R).
Proof.
  destruct (responsible_probs_select_taken_action 2 1e-4 Examples.small_discrete 1
              0.2 1e-3 5e6 Examples.discrete_variables Examples.discrete_feed)
    as (ops & rows & old_rows & taken & old_taken & Hrun & Hprobs & _ & Hresp & _ &
        Hpick); [repeat split; reflexivity|].
  destruct (Hpick 1%nat 1 eq_refl) as (row & old_row & Hrow & _ & Htaken & _).
  exists ops, rows, taken, row. auto.
Defined.




